(** * Noughts and Crosses: the board and the minimax search with alpha-beta
    pruning (board.c, minimax.c), embedded in Rocq.

    The C code is translated function by function.  C integers are [Z] with
    the conversions to [uint8_t] and [int8_t] written out; the heap block
    behind [board->cells] is a list whose length is the size of the
    allocation, and every access is bounds-checked: an access outside the
    block is undefined behaviour.  The board is mutated in place in C; here it
    is passed through every call and handed back with the result. *)

From Stdlib Require Import ZArith Ascii Bool Lia.
From stdpp Require Import base tactics option list strings.

Local Open Scope Z_scope.

(** ** Outcomes of a C computation *)

Inductive outcome (A : Type) : Type :=
| Done (a : A)        (* the call returned *)
| AssertFailed        (* an [assert] failed: the program aborts *)
| Undefined           (* undefined behaviour: access outside a block, read of
                         an uninitialised variable *)
| OutOfFuel.          (* the budget of loop iterations or of recursion depth
                         was used up before the call returned *)

Arguments Done {A} a.
Arguments AssertFailed {A}.
Arguments Undefined {A}.
Arguments OutOfFuel {A}.

Definition bind {A B : Type} (m : outcome A) (k : A -> outcome B) : outcome B :=
  match m with
  | Done a => k a
  | AssertFailed => AssertFailed
  | Undefined => Undefined
  | OutOfFuel => OutOfFuel
  end.

Notation "x <-- m ;; k" := (bind m (fun x => k))
  (at level 100, m at next level, right associativity).

Definition assert (c : bool) : outcome unit :=
  if c then Done tt else AssertFailed.

(** ** Machine integers *)

(** Conversion of an [int] to [uint8_t] and to [int8_t] (two's complement,
    as gcc does it). *)
Definition to_uint8 (z : Z) : Z := z mod 256.
Definition to_int8 (z : Z) : Z := (z + 128) mod 256 - 128.

Definition INT8_MAX : Z := 127.
Definition INT8_MIN : Z := -128.

(** ** Loops over a [uint8_t] counter *)

(** What one iteration of a loop body does: go on with the next iteration,
    or [return] from the enclosing function. *)
Inductive flow (St R : Type) : Type :=
| Next (s : St)
| Return (r : R).

Arguments Next {St R} s.
Arguments Return {St R} r.

(** [for (i = i0; i < bound; i += 1) body], with [i] a [uint8_t]: the
    comparison is made on [int]s, the increment wraps around at 256.  [gas]
    bounds the number of times the loop condition is evaluated. *)
Fixpoint for_uint8 {St R : Type} (gas : nat) (bound : Z)
    (body : Z -> St -> outcome (flow St R)) (i : Z) (s : St)
    : outcome (flow St R) :=
  match gas with
  | O => OutOfFuel
  | S g =>
      if i <? bound then
        match body i s with
        | Done (Next s') => for_uint8 g bound body (to_uint8 (i + 1)) s'
        | r => r
        end
      else Done (Next s)
  end.

(** The code after a loop: reached when the loop ran to its end. *)
Definition after_loop {St R : Type} (l : outcome (flow St R))
    (rest : St -> outcome R) : outcome R :=
  match l with
  | Done (Next s) => rest s
  | Done (Return r) => Done r
  | AssertFailed => AssertFailed
  | Undefined => Undefined
  | OutOfFuel => OutOfFuel
  end.

(** ** board.h / board.c *)

Definition NOUGHT : ascii := "O"%char.
Definition CROSS : ascii := "X"%char.
Definition EMPTY : ascii := " "%char.

(** [struct board_s]: [cells] is the block that [board->cells] points to. *)
Record board_t : Type := mkBoard { size : Z; cells : list ascii }.

(** [board->cells[k]] as an rvalue. *)
Definition load (board : board_t) (k : Z) : outcome ascii :=
  if k <? 0 then Undefined
  else match cells board !! Z.to_nat k with
       | Some c => Done c
       | None => Undefined
       end.

(** [board->cells[k] = c]. *)
Definition store (board : board_t) (k : Z) (c : ascii) : outcome board_t :=
  if (0 <=? k) && (k <? Z.of_nat (length (cells board))) then
    Done (mkBoard (size board) (<[Z.to_nat k := c]> (cells board)))
  else Undefined.

Definition resetBoard (gas : nat) (board : board_t) : outcome board_t :=
  after_loop
    (for_uint8 gas (size board * size board)
       (fun cell board => board' <-- store board cell EMPTY ;; Done (Next board'))
       0 board)
    (fun board => Done board).

(** [malloc (sizeof (char) * n)]: a block of [n] chars whose contents are
    indeterminate; [junk] stands for whatever the block holds. *)
Definition malloc_chars (n : Z) (junk : nat -> ascii) : list ascii :=
  map junk (seq 0 (Z.to_nat n)).

(** Both allocations are taken to succeed, so that the two assertions on
    [NULL] hold. *)
Definition initBoard (gas : nat) (size : Z) (junk : nat -> ascii)
    : outcome board_t :=
  resetBoard gas (mkBoard size (malloc_chars size junk)).

Definition isWinRow (gas : nat) (board : board_t) (row : Z) (symbol : ascii)
    : outcome bool :=
  after_loop
    (for_uint8 gas (size board)
       (fun i (_ : unit) =>
          c <-- load board (size board * row + i) ;;
          if negb (Ascii.eqb c symbol) then Done (Return false)
          else Done (Next tt))
       0 tt)
    (fun _ => Done true).

Definition isWinCol (gas : nat) (board : board_t) (column : Z) (symbol : ascii)
    : outcome bool :=
  after_loop
    (for_uint8 gas (size board)
       (fun i (_ : unit) =>
          c <-- load board (column + size board * i) ;;
          if negb (Ascii.eqb c symbol) then Done (Return false)
          else Done (Next tt))
       0 tt)
    (fun _ => Done true).

Definition isWinForwardDiag (gas : nat) (board : board_t) (symbol : ascii)
    : outcome bool :=
  after_loop
    (for_uint8 gas (size board)
       (fun i (_ : unit) =>
          c <-- load board (size board * i + i) ;;
          if negb (Ascii.eqb c symbol) then Done (Return false)
          else Done (Next tt))
       0 tt)
    (fun _ => Done true).

Definition isWinBackwardDiag (gas : nat) (board : board_t) (symbol : ascii)
    : outcome bool :=
  after_loop
    (for_uint8 gas (size board)
       (fun i (_ : unit) =>
          c <-- load board (size board * (size board - 1 - i) + i) ;;
          if negb (Ascii.eqb c symbol) then Done (Return false)
          else Done (Next tt))
       0 tt)
    (fun _ => Done true).

Definition isWin (gas : nat) (board : board_t) (symbol : ascii) : outcome bool :=
  f <-- isWinForwardDiag gas board symbol ;;
  d <-- (if f then Done true else isWinBackwardDiag gas board symbol) ;;
  if d then Done true
  else
    after_loop
      (for_uint8 gas (size board)
         (fun i (_ : unit) =>
            r <-- isWinRow gas board i symbol ;;
            l <-- (if r then Done true else isWinCol gas board i symbol) ;;
            if l then Done (Return true) else Done (Next tt))
         0 tt)
      (fun _ => Done false).

Definition isDraw (gas : nat) (board : board_t) : outcome bool :=
  n <-- isWin gas board NOUGHT ;;
  w <-- (if n then Done true else isWin gas board CROSS) ;;
  if w then Done false
  else
    after_loop
      (for_uint8 gas (size board * size board)
         (fun cell (_ : unit) =>
            c <-- load board cell ;;
            if Ascii.eqb c EMPTY then Done (Return false) else Done (Next tt))
         0 tt)
      (fun _ => Done true).

(** [cell] is a [uint8_t]; [&&] and [||] evaluate their right operand only
    when needed, so the cell is read only for an in-range [cell] and a
    [symbol] other than [EMPTY]. *)
Definition isValidMove (board : board_t) (cell : Z) (symbol : ascii)
    : outcome bool :=
  if (0 <=? cell) && (cell <? size board * size board) then
    if Ascii.eqb symbol EMPTY then Done true
    else c <-- load board cell ;; Done (Ascii.eqb c EMPTY)
  else Done false.

Definition getSize (board : board_t) : Z := size board.

Definition getCell (board : board_t) (cell : Z) : outcome ascii :=
  v <-- isValidMove board cell EMPTY ;;
  _ <-- assert v ;;
  load board cell.

Definition setCell (board : board_t) (cell : Z) (symbol : ascii)
    : outcome board_t :=
  _ <-- assert (Ascii.eqb symbol NOUGHT || Ascii.eqb symbol CROSS
                || Ascii.eqb symbol EMPTY) ;;
  v <-- isValidMove board cell symbol ;;
  _ <-- assert v ;;
  store board cell symbol.

(** ** minimax.c *)

Definition SCORE_WIN : Z := INT8_MAX.
Definition SCORE_LOSE : Z := INT8_MIN.
Definition SCORE_DRAW : Z := 0.

Definition min (a b : Z) : Z := if a <? b then a else b.
Definition max (a b : Z) : Z := if a >? b then a else b.

(** The type of [minimise] and [maximise]: board, symbolSelf, symbolOther,
    depth, alpha, beta; the score comes back with the board as the call left
    it. *)
Definition search_fn : Type :=
  board_t -> ascii -> ascii -> Z -> Z -> Z -> outcome (Z * board_t).

(** The body of [minimise], with the function it calls for the next ply as a
    parameter. *)
Definition minimise_body (maximise : search_fn) (gas : nat) : search_fn :=
  fun board symbolSelf symbolOther depth alpha beta =>
  w <-- isWin gas board symbolOther ;;
  if w then Done (to_int8 (SCORE_LOSE + depth), board)
  else
    d <-- isDraw gas board ;;
    if d then Done (to_int8 SCORE_DRAW, board)
    else
      after_loop
        (for_uint8 gas (getSize board * getSize board)
           (fun cell st =>
              let '(board, beta) := st in
              v <-- isValidMove board cell symbolOther ;;
              if v then
                board <-- setCell board cell symbolOther ;;
                r <-- maximise board symbolSelf symbolOther
                        (to_uint8 (depth + 1)) alpha beta ;;
                let '(score, board) := r in
                board <-- setCell board cell EMPTY ;;
                let beta := min beta score in
                if beta <=? alpha then Done (Return (alpha, board))
                else Done (Next (board, beta))
              else Done (Next (board, beta)))
           0 (board, beta))
        (fun st => let '(board, beta) := st in Done (beta, board)).

(** The body of [maximise]. *)
Definition maximise_body (minimise : search_fn) (gas : nat) : search_fn :=
  fun board symbolSelf symbolOther depth alpha beta =>
  w <-- isWin gas board symbolSelf ;;
  if w then Done (to_int8 (SCORE_WIN - depth), board)
  else
    d <-- isDraw gas board ;;
    if d then Done (to_int8 SCORE_DRAW, board)
    else
      after_loop
        (for_uint8 gas (getSize board * getSize board)
           (fun cell st =>
              let '(board, alpha) := st in
              v <-- isValidMove board cell symbolSelf ;;
              if v then
                board <-- setCell board cell symbolSelf ;;
                r <-- minimise board symbolSelf symbolOther
                        (to_uint8 (depth + 1)) alpha beta ;;
                let '(score, board) := r in
                board <-- setCell board cell EMPTY ;;
                let alpha := max alpha score in
                if alpha >=? beta then Done (Return (beta, board))
                else Done (Next (board, alpha))
              else Done (Next (board, alpha)))
           0 (board, alpha))
        (fun st => let '(board, alpha) := st in Done (alpha, board)).

(** [minimise] and [maximise] call each other; [fuel] bounds the depth of the
    recursion, [gas] the iterations of each loop. *)
Fixpoint minimise (fuel gas : nat) {struct fuel} : search_fn :=
  match fuel with
  | O => fun _ _ _ _ _ _ => OutOfFuel
  | S f => minimise_body (maximise f gas) gas
  end
with maximise (fuel gas : nat) {struct fuel} : search_fn :=
  match fuel with
  | O => fun _ _ _ _ _ _ => OutOfFuel
  | S f => maximise_body (minimise f gas) gas
  end.

(** The body of [getBestMove], with [minimise] as a parameter.  [bestMove]
    is not initialised: it is [None] until the first assignment, and
    returning it before that is undefined behaviour. *)
Definition getBestMove_body (minimise : search_fn) (gas : nat)
    (board : board_t) (symbolSelf : ascii) : outcome (Z * board_t) :=
  let symbolOther := if Ascii.eqb symbolSelf NOUGHT then CROSS else NOUGHT in
  let alpha := to_int8 SCORE_LOSE in
  let beta := to_int8 SCORE_WIN in
  after_loop
    (for_uint8 gas (getSize board * getSize board)
       (fun cell st =>
          let '(board, alpha, bestMove) := st in
          v <-- isValidMove board cell symbolSelf ;;
          if v then
            board <-- setCell board cell symbolSelf ;;
            r <-- minimise board symbolSelf symbolOther 1 alpha beta ;;
            let '(score, board) := r in
            board <-- setCell board cell EMPTY ;;
            if score >? alpha then Done (Next (board, score, Some cell))
            else Done (Next (board, alpha, bestMove))
          else Done (Next (board, alpha, bestMove)))
       0 (board, alpha, @None Z))
    (fun st =>
       let '(board, alpha, bestMove) := st in
       _ <-- assert (negb (alpha =? SCORE_LOSE)) ;;
       match bestMove with
       | Some cell => Done (cell, board)
       | None => Undefined
       end).

Definition getBestMove (fuel gas : nat) (board : board_t) (symbolSelf : ascii)
    : outcome (Z * board_t) :=
  getBestMove_body (minimise fuel gas) gas board symbolSelf.

(** ** The data model of the specification *)

(** A board as the data model has it: [size] fits its [uint8_t] field and
    the block holds exactly [size * size] cells. *)
Definition wf_board (board : board_t) : Prop :=
  0 <= size board <= 255 /\
  Z.of_nat (length (cells board)) = size board * size board.

(** Cell [k] of the board holds [symbol]. *)
Definition holds (board : board_t) (k : Z) (symbol : ascii) : Prop :=
  0 <= k /\ cells board !! Z.to_nat k = Some symbol.

Definition full_row (board : board_t) (r : Z) (symbol : ascii) : Prop :=
  forall i, 0 <= i < size board -> holds board (r * size board + i) symbol.

Definition full_col (board : board_t) (c : Z) (symbol : ascii) : Prop :=
  forall i, 0 <= i < size board -> holds board (c + i * size board) symbol.

Definition full_forward_diag (board : board_t) (symbol : ascii) : Prop :=
  forall i, 0 <= i < size board -> holds board (i * size board + i) symbol.

Definition full_backward_diag (board : board_t) (symbol : ascii) : Prop :=
  forall i, 0 <= i < size board ->
    holds board ((size board - 1 - i) * size board + i) symbol.

Definition has_line (board : board_t) (symbol : ascii) : Prop :=
  (exists r, 0 <= r < size board /\ full_row board r symbol) \/
  (exists c, 0 <= c < size board /\ full_col board c symbol) \/
  full_forward_diag board symbol \/
  full_backward_diag board symbol.

Definition no_empty_cell (board : board_t) : Prop :=
  forall k, ~ holds board k EMPTY.

Definition player (symbol : ascii) : Prop := symbol = NOUGHT \/ symbol = CROSS.

(** The number of empty cells of a block: the measure that bounds the depth
    of the search. *)
Fixpoint count_empty (l : list ascii) : nat :=
  match l with
  | [] => O
  | c :: l' => ((if Ascii.eqb c EMPTY then 1 else 0) + count_empty l')%nat
  end.

(** ** The search as the specification words it *)

Definition indices (n : Z) : list Z := seqZ 0 n.

Definition cell_is (board : board_t) (k : Z) (symbol : ascii) : bool :=
  match cells board !! Z.to_nat k with
  | Some c => Ascii.eqb c symbol
  | None => false
  end.

(** "true iff any full row, any full column, the main diagonal, or the
    anti-diagonal consists entirely of symbol" *)
Definition spec_isWin (board : board_t) (symbol : ascii) : bool :=
  let n := size board in
  existsb (fun r => forallb (fun i => cell_is board (r * n + i) symbol)
                      (indices n)) (indices n)
  || existsb (fun c => forallb (fun i => cell_is board (c + i * n) symbol)
                         (indices n)) (indices n)
  || forallb (fun i => cell_is board (i * n + i) symbol) (indices n)
  || forallb (fun i => cell_is board ((n - 1 - i) * n + i) symbol) (indices n).

(** "true iff neither symbol has won AND no cell is Empty" *)
Definition spec_isDraw (board : board_t) : bool :=
  negb (spec_isWin board NOUGHT) && negb (spec_isWin board CROSS)
  && forallb (fun k => negb (cell_is board k EMPTY))
       (indices (size board * size board)).

(** The currently valid cells for a player, in ascending order. *)
Definition spec_moves (board : board_t) : list Z :=
  List.filter (fun k => cell_is board k EMPTY)
    (indices (size board * size board)).

Definition place (board : board_t) (k : Z) (symbol : ascii) : board_t :=
  mkBoard (size board) (<[Z.to_nat k := symbol]> (cells board)).

(** Exhaustive minimax without pruning.  "Each step first checks terminal
    conditions (self-win, opponent-win, draw)": a position won by self
    scores [WIN_BASE - depth], one won by the opponent [LOSE_BASE + depth],
    a drawn one 0; otherwise the maximize step takes the highest score of
    its candidates and the minimize step the lowest.  [plies] is the
    number of plies left to look ahead; with as many plies as the board has
    cells the search is exhaustive. *)
Fixpoint spec_score (plies : nat) (maximize : bool) (board : board_t)
    (self other : ascii) (depth : Z) : Z :=
  if spec_isWin board self then SCORE_WIN - depth
  else if spec_isWin board other then SCORE_LOSE + depth
  else if spec_isDraw board then SCORE_DRAW
  else
    match plies with
    | O => SCORE_DRAW
    | S p =>
        let mover := if maximize then self else other in
        let scores :=
          map (fun k => spec_score p (negb maximize)
                          (place board k mover) self other (depth + 1))
              (spec_moves board) in
        if maximize then fold_right Z.max SCORE_LOSE scores
        else fold_right Z.min SCORE_WIN scores
    end.

(** "records the cell index achieving each new strict improvement; ties
    keep the earliest (lowest-index) candidate" *)
Definition spec_best (scored : list (Z * Z)) : option (Z * Z) :=
  fold_left
    (fun best ks =>
       match best with
       | None => Some ks
       | Some (_, s0) => if snd ks >? s0 then Some ks else best
       end)
    scored None.

(** The lowest-index valid cell whose score is maximal among all valid
    moves for [symbolSelf]; [None] when there is no valid move. *)
Definition spec_getBestMove (board : board_t) (symbolSelf : ascii)
    : option Z :=
  let symbolOther := if Ascii.eqb symbolSelf NOUGHT then CROSS else NOUGHT in
  let scored :=
    map (fun k =>
           (k, spec_score (length (cells board)) false
                 (place board k symbolSelf) symbolSelf symbolOther 1))
        (spec_moves board) in
  fst <$> spec_best scored.

(** ** The search of the code without its bounds *)

(** The score that the code gives a position when nothing is pruned: the
    terminal tests and scores of [minimise] and [maximise] as they are
    (each step tests one of the two wins, then the draw), and otherwise
    the lowest, for [minimise], or the highest, for [maximise], of the
    scores of the valid moves.  Without a valid move the step of the code
    returns the bound it was given: here the widest one, [SCORE_WIN] for
    [minimise] and [SCORE_LOSE] for [maximise].  [plies] is the number of
    plies to look ahead. *)
Fixpoint code_value (plies : nat) (maximize : bool) (board : board_t)
    (self other : ascii) (depth : Z) : Z :=
  match plies with
  | O => SCORE_DRAW
  | S p =>
      if maximize then
        if spec_isWin board self then to_int8 (SCORE_WIN - depth)
        else if spec_isDraw board then to_int8 SCORE_DRAW
        else
          fold_left
            (fun best cell =>
               Z.max best
                 (code_value p false (place board cell self) self other
                    (to_uint8 (depth + 1))))
            (spec_moves board) SCORE_LOSE
      else
        if spec_isWin board other then to_int8 (SCORE_LOSE + depth)
        else if spec_isDraw board then to_int8 SCORE_DRAW
        else
          fold_left
            (fun worst cell =>
               Z.min worst
                 (code_value p true (place board cell other) self other
                    (to_uint8 (depth + 1))))
            (spec_moves board) SCORE_WIN
  end.

(** [code_value] over the integers: the same tests, the depth and the
    scores as integers that never wrap, without a conversion to [uint8_t]
    or [int8_t]. *)
Fixpoint exact_value (plies : nat) (maximize : bool) (board : board_t)
    (self other : ascii) (depth : Z) : Z :=
  match plies with
  | O => SCORE_DRAW
  | S p =>
      if maximize then
        if spec_isWin board self then SCORE_WIN - depth
        else if spec_isDraw board then SCORE_DRAW
        else
          fold_left
            (fun best cell =>
               Z.max best
                 (exact_value p false (place board cell self) self other
                    (depth + 1)))
            (spec_moves board) SCORE_LOSE
      else
        if spec_isWin board other then SCORE_LOSE + depth
        else if spec_isDraw board then SCORE_DRAW
        else
          fold_left
            (fun worst cell =>
               Z.min worst
                 (exact_value p true (place board cell other) self other
                    (depth + 1)))
            (spec_moves board) SCORE_WIN
  end.

(** The choice of [getBestMove] when nothing is pruned: the candidates in
    ascending order, each scored by [code_value] at depth 1, a candidate
    taken when it scores strictly more than the best so far, which is
    [SCORE_LOSE] at the start. *)
Definition code_best (plies : nat) (board : board_t) (symbolSelf : ascii)
    : option Z * Z :=
  let symbolOther := if Ascii.eqb symbolSelf NOUGHT then CROSS else NOUGHT in
  fold_left
    (fun st cell =>
       let v := code_value plies false (place board cell symbolSelf)
                  symbolSelf symbolOther 1 in
       if v >? snd st then (Some cell, v) else st)
    (spec_moves board) (None, SCORE_LOSE).

(** The valid cells below [j], in ascending order: the candidates that a
    loop over the cells has seen when its counter is [j]. *)
Definition moves_below (board : board_t) (j : Z) : list Z :=
  List.filter (fun k => cell_is board k EMPTY) (seqZ 0 j).

(** What a search with the bounds [alpha] and [beta] may answer for a
    position of the given value: the value itself when it lies strictly
    between the bounds, and otherwise something on the same side of the
    bound as the value. *)
Definition within_bounds (alpha beta value score : Z) : Prop :=
  (value <= alpha -> score <= alpha) /\
  (beta <= value -> beta <= score) /\
  (alpha < value < beta -> score = value).

(** ** Boards used below *)

Definition board_of (n : Z) (rows : list (list ascii)) : board_t :=
  mkBoard n (concat rows).

(** Self is Cross and is to move; whichever of the two empty cells it takes,
    Nought completes a line with the other one, on a full board. *)
Definition board_lost : board_t :=
  board_of 3 [[NOUGHT; NOUGHT; EMPTY ];
              [NOUGHT; CROSS;  CROSS ];
              [EMPTY;  CROSS;  NOUGHT]].

(** Self is Nought and is to move; cell 2 completes the top row at once,
    cell 4 wins two plies later, with the last cell of the board. *)
Definition board_slow : board_t :=
  board_of 3 [[NOUGHT; NOUGHT; EMPTY];
              [CROSS;  EMPTY;  CROSS];
              [NOUGHT; CROSS;  EMPTY]].

(** Nought has just completed the top row. *)
Definition board_won : board_t :=
  board_of 3 [[NOUGHT; NOUGHT; NOUGHT];
              [CROSS;  CROSS;  EMPTY ];
              [EMPTY;  EMPTY;  EMPTY ]].

(** A full board without a line. *)
Definition board_drawn : board_t :=
  board_of 3 [[CROSS;  NOUGHT; CROSS ];
              [NOUGHT; NOUGHT; CROSS ];
              [NOUGHT; CROSS;  NOUGHT]].

(** A full 16 x 16 board without a line: Nought on the first row and the
    first column, except their common cell, and on cell (1,1); Cross
    everywhere else. *)
Definition board16 : board_t :=
  mkBoard 16
    (map (fun k =>
            let r := k / 16 in
            let c := k mod 16 in
            if xorb (r =? 0) (c =? 0) || ((r =? 1) && (c =? 1))
            then NOUGHT else CROSS)
       (indices 256)).

(** ** interface.h / interface.c *)

(** The terminal is outside the program: [raw_key n] is what the n-th
    call of [getch] returns, and [size_ok n] whether, at the n-th time the
    program looks, [COLS] and [LINES] are at least [WIDTH_INTERFACE] and
    [HEIGHT_INTERFACE]. *)
Record terminal : Type := mkTerminal {
  raw_key : nat -> ascii;
  size_ok : nat -> bool
}.

(** What the program has written: calls of [mvaddch], of [mvprintw], of
    [printw] and, after [endwin], of [printf] with the two numbers of
    [MSG_ERROR_SIZE]. *)
Inductive drawn : Type :=
| PutChar (y x : Z) (c : ascii)
| PutText (y x : Z) (text : string)
| PrintLines (text : list string)
| PrintSizeError (width height : Z).

(** The interface as the program has used it so far. *)
Record io_t : Type := mkIO {
  keys_read : nat;
  sizes_read : nat;
  screen : list drawn
}.

Definition BOARD_SIZE : Z := 3.

Definition MSG_ORDER : string := "Do you want to go first (Y or N)?".
Definition MSG_MOVE : string := "What is your move (0 to 8)?".
Definition MSG_WIN : string := "You WON! Play again (Y or N)?".
Definition MSG_LOSE : string := "You LOSE! Play again (Y or N)?".
Definition MSG_DRAW : string := "You DREW! Play again (Y or N)?".
Definition MSG_REPLAY : string := "Play another game (Y or N)?".
Definition MSG_BLANK : string :=
  "                                                               ".

(** The text of [INTERFACE], line by line; each line ends with a newline
    in the C string. *)
Definition INTERFACE : list string :=
  [ "###################################################################";
    "# Minimax Algorithm with Alpha-Beta Pruning (Noughts and Crosses) #";
    "#                                                                 #";
    "# Place your symbols on the left board using the corresponding    #";
    "# cell numbers on the right board                                 #";
    "#                                                                 #";
    "# Press Q in a game to end it early and outside of a game to quit #";
    "# Keep the terminal size larger than 68x19                        #";
    "###################################################################";
    "#               -------------         -------------               #";
    "#               |   |   |   |         | 0 | 1 | 2 |               #";
    "#               -------------         -------------               #";
    "#               |   |   |   |         | 3 | 4 | 5 |               #";
    "#               -------------         -------------               #";
    "#               |   |   |   |         | 6 | 7 | 8 |               #";
    "#               -------------         -------------               #";
    "###################################################################";
    "#                                                                 #";
    "###################################################################"
  ]%string.

Definition WIDTH_INTERFACE : Z := 68.
Definition HEIGHT_INTERFACE : Z := 19.
Definition X_BOARD : Z := 18.
Definition Y_BOARD : Z := 10.
Definition X_MSG : Z := 2.
Definition Y_MSG : Z := 17.
Definition SPACE_ROW : Z := 2.
Definition SPACE_COLUMN : Z := 4.

(** The code of a [char] as an [int]; [char] is signed. *)
Definition char_to_int (c : ascii) : Z :=
  let n := Z.of_N (N_of_ascii c) in
  if n <? 128 then n else n - 256.

(** [tolower] in the C locale, on the byte that [getch] returned. *)
Definition tolower (c : ascii) : ascii :=
  let n := N_of_ascii c in
  if (65 <=? n)%N && (n <=? 90)%N then ascii_of_N (n + 32) else c.

(** [isdigit]: true for the ten decimal digits only. *)
Definition isdigit (c : ascii) : bool :=
  let n := N_of_ascii c in (48 <=? n)%N && (n <=? 57)%N.

Definition getInput (term : terminal) (io : io_t) : ascii * io_t :=
  (tolower (raw_key term (keys_read io)),
   mkIO (S (keys_read io)) (sizes_read io) (screen io)).

Definition updateBoard (cell : Z) (symbol : ascii) (io : io_t) : io_t :=
  let x := to_uint8 (X_BOARD + SPACE_COLUMN * (cell mod BOARD_SIZE)) in
  let y := to_uint8 (Y_BOARD + SPACE_ROW * (cell / BOARD_SIZE)) in
  mkIO (keys_read io) (sizes_read io) (screen io ++ [PutChar y x symbol]).

Definition updateMessage (message : string) (io : io_t) : io_t :=
  mkIO (keys_read io) (sizes_read io)
    (screen io ++ [PutText Y_MSG X_MSG MSG_BLANK;
                   PutText Y_MSG X_MSG message]).

Definition isTerminalValidSize (term : terminal) (io : io_t) : bool * io_t :=
  (size_ok term (sizes_read io),
   mkIO (keys_read io) (S (sizes_read io)) (screen io)).

(** [endwin], then the message about the size if the terminal is too
    small now. *)
Definition freeInterface (term : terminal) (io : io_t) : io_t :=
  let '(ok, io) := isTerminalValidSize term io in
  if negb ok then
    mkIO (keys_read io) (sizes_read io)
      (screen io ++ [PrintSizeError WIDTH_INTERFACE HEIGHT_INTERFACE])
  else io.

(** [initscr], then the check of the size; the blank interface is printed
    when the terminal is large enough. *)
Definition initInterface (term : terminal) (io : io_t) : bool * io_t :=
  let '(ok, io) := isTerminalValidSize term io in
  if negb ok then (false, freeInterface term io)
  else (true, mkIO (keys_read io) (sizes_read io)
                (screen io ++ [PrintLines INTERFACE])).

(** ** main.c *)

Definition KEY_QUIT : ascii := "q"%char.
Definition KEY_YES : ascii := "y"%char.
Definition KEY_NO : ascii := "n"%char.

(** The condition that ends the [do ... while] of [getInputLoop]: [||] and
    [&&] evaluate their right operand only when needed, so the board is
    looked at for a digit in number mode only.  [board] is [None] for the
    null pointer. *)
Definition input_accepted (board : option board_t) (symbol : ascii)
    (isYesNo isNumber : bool) (input : ascii) (cell : Z) : outcome bool :=
  if Ascii.eqb input KEY_QUIT then Done true
  else if isYesNo && (Ascii.eqb input KEY_YES || Ascii.eqb input KEY_NO)
  then Done true
  else if isNumber && isdigit input then
    match board with
    | Some b => isValidMove b (to_uint8 cell) symbol
    | None => Undefined
    end
  else Done false.

(** [gas] bounds the number of keys that [getInputLoop] reads. *)
Fixpoint getInputLoop (gas : nat) (term : terminal) (board : option board_t)
    (symbol : ascii) (isYesNo isNumber : bool) (io : io_t)
    : outcome (ascii * io_t) :=
  match gas with
  | O => OutOfFuel
  | S g =>
      let '(ok, io) := isTerminalValidSize term io in
      if negb ok then Done (KEY_QUIT, io)
      else
        let '(input, io) := getInput term io in
        let cell := char_to_int input - char_to_int "0"%char in
        stop <-- input_accepted board symbol isYesNo isNumber input cell ;;
        if stop then Done (input, io)
        else getInputLoop g term board symbol isYesNo isNumber io
  end.

Definition getSymbol (gas : nat) (term : terminal) (io : io_t)
    : outcome (ascii * io_t) :=
  let io := updateMessage MSG_ORDER io in
  r <-- getInputLoop gas term None EMPTY true false io ;;
  let '(input, io) := r in
  if Ascii.eqb input KEY_QUIT then Done (KEY_QUIT, io)
  else if Ascii.eqb input KEY_YES then Done (NOUGHT, io)
  else Done (CROSS, io).

Definition isReplay (gas : nat) (term : terminal) (io : io_t)
    : outcome (bool * io_t) :=
  r <-- getInputLoop gas term None EMPTY true false io ;;
  let '(input, io) := r in
  if Ascii.eqb input KEY_YES then Done (true, io) else Done (false, io).

Definition isEndState (gas : nat) (board : board_t)
    (symbolUser symbolAI : ascii) (io : io_t) : outcome (bool * io_t) :=
  u <-- isWin gas board symbolUser ;;
  if u then Done (true, updateMessage MSG_WIN io)
  else
    a <-- isWin gas board symbolAI ;;
    if a then Done (true, updateMessage MSG_LOSE io)
    else
      d <-- isDraw gas board ;;
      if d then Done (true, updateMessage MSG_DRAW io)
      else Done (false, io).

Definition moveUser (gas : nat) (term : terminal) (board : board_t)
    (symbolUser symbolAI : ascii) (io : io_t)
    : outcome (bool * board_t * io_t) :=
  r <-- getInputLoop gas term (Some board) symbolUser false true io ;;
  let '(input, io) := r in
  if Ascii.eqb input KEY_QUIT then
    Done (false, board, updateMessage MSG_REPLAY io)
  else
    let cell := char_to_int input - char_to_int "0"%char in
    board <-- setCell board (to_uint8 cell) symbolUser ;;
    let io := updateBoard (to_uint8 cell) symbolUser io in
    e <-- isEndState gas board symbolUser symbolAI io ;;
    let '(ended, io) := e in
    Done (negb ended, board, io).

Definition moveAI (fuel gas : nat) (board : board_t)
    (symbolUser symbolAI : ascii) (io : io_t)
    : outcome (bool * board_t * io_t) :=
  r <-- getBestMove fuel gas board symbolAI ;;
  let '(cell, board) := r in
  board <-- setCell board cell symbolAI ;;
  let io := updateBoard cell symbolAI io in
  e <-- isEndState gas board symbolUser symbolAI io ;;
  let '(ended, io) := e in
  Done (negb ended, board, io).

(** [||] calls the second move only when the first one did not end the
    game. *)
Definition turn (fuel gas : nat) (term : terminal) (board : board_t)
    (symbolUser symbolAI : ascii) (io : io_t)
    : outcome (bool * board_t * io_t) :=
  if Ascii.eqb symbolUser NOUGHT then
    r <-- moveUser gas term board symbolUser symbolAI io ;;
    let '(go, board, io) := r in
    if negb go then Done (false, board, io)
    else
      r <-- moveAI fuel gas board symbolUser symbolAI io ;;
      let '(go, board, io) := r in
      if negb go then Done (false, board, io) else Done (true, board, io)
  else
    r <-- moveAI fuel gas board symbolUser symbolAI io ;;
    let '(go, board, io) := r in
    if negb go then Done (false, board, io)
    else
      r <-- moveUser gas term board symbolUser symbolAI io ;;
      let '(go, board, io) := r in
      if negb go then Done (false, board, io) else Done (true, board, io).

(** The type of [turn], as [play] calls it. *)
Definition turn_fn : Type :=
  terminal -> board_t -> ascii -> ascii -> io_t ->
  outcome (bool * board_t * io_t).

(** [while (turn(board, symbolUser, symbolAI));] with the function it calls
    as a parameter; [gas] bounds the number of turns. *)
Fixpoint turns (turn : turn_fn) (gas : nat) (term : terminal)
    (board : board_t) (symbolUser symbolAI : ascii) (io : io_t)
    : outcome (board_t * io_t) :=
  match gas with
  | O => OutOfFuel
  | S g =>
      r <-- turn term board symbolUser symbolAI io ;;
      let '(go, board, io) := r in
      if go then turns turn g term board symbolUser symbolAI io
      else Done (board, io)
  end.

(** The [do ... while] of [play]: one game after the other; [n] bounds the
    number of games, [gas] the iterations of the loops inside a game. *)
Fixpoint games (turn : turn_fn) (n gas : nat) (term : terminal)
    (board : board_t) (symbolUser : ascii) (io : io_t)
    : outcome (board_t * io_t) :=
  match n with
  | O => OutOfFuel
  | S k =>
      board <-- resetBoard gas board ;;
      io <-- after_loop
               (for_uint8 gas (getSize board * getSize board)
                  (fun cell io => Done (Next (updateBoard cell EMPTY io)))
                  0 io)
               (fun io => Done io) ;;
      let symbolAI := if Ascii.eqb symbolUser NOUGHT then CROSS else NOUGHT in
      let io := updateMessage MSG_MOVE io in
      r <-- turns turn gas term board symbolUser symbolAI io ;;
      let '(board, io) := r in
      a <-- isReplay gas term io ;;
      let '(again, io) := a in
      if again then
        s <-- getSymbol gas term io ;;
        let '(symbolUser, io) := s in
        if negb (Ascii.eqb symbolUser KEY_QUIT)
        then games turn k gas term board symbolUser io
        else Done (board, io)
      else Done (board, io)
  end.

(** The body of [play], with [turn] as a parameter. *)
Definition play_body (turn : turn_fn) (gas : nat) (term : terminal)
    (board : board_t) (io : io_t) : outcome (board_t * io_t) :=
  s <-- getSymbol gas term io ;;
  let '(symbolUser, io) := s in
  if Ascii.eqb symbolUser KEY_QUIT then Done (board, io)
  else games turn gas gas term board symbolUser io.

Definition play (fuel gas : nat) (term : terminal) (board : board_t)
    (io : io_t) : outcome (board_t * io_t) :=
  play_body (turn fuel gas) gas term board io.

Definition EXIT_SUCCESS : Z := 0.

(** [main]; [junk] is what the block of the new board holds.  After
    [play], [freeInterface] closes the interface and [freeBoard] releases
    the two blocks. *)
Definition main (fuel gas : nat) (term : terminal) (junk : nat -> ascii)
    : outcome (Z * io_t) :=
  let '(ok, io) := initInterface term (mkIO 0 0 []) in
  if ok then
    board <-- initBoard gas BOARD_SIZE junk ;;
    r <-- play fuel gas term board io ;;
    let '(_, io) := r in
    Done (EXIT_SUCCESS, freeInterface term io)
  else Done (EXIT_SUCCESS, io).

(** A [turn] that stops the program unless it is called with the two
    players' symbols, one for the user and the other for the AI. *)
Definition for_players_only (turn : turn_fn) : turn_fn :=
  fun term board symbolUser symbolAI io =>
    if (Ascii.eqb symbolUser NOUGHT && Ascii.eqb symbolAI CROSS)
       || (Ascii.eqb symbolUser CROSS && Ascii.eqb symbolAI NOUGHT)
    then turn term board symbolUser symbolAI io
    else AssertFailed.

(** The character that [INTERFACE] has in line [y], column [x]. *)
Definition interface_at (y x : Z) : option ascii :=
  if (y <? 0) || (x <? 0) then None
  else match INTERFACE !! Z.to_nat y with
       | Some line => String.get (Z.to_nat x) line
       | None => None
       end.

(** The [mvaddch] that [updateBoard] makes for a cell. *)
Definition updateBoard_at (cell : Z) : Z * Z :=
  match screen (updateBoard cell EMPTY (mkIO 0 0 [])) with
  | [PutChar y x _] => (y, x)
  | _ => (-1, -1)
  end.

(** [board'] is [board], or [board] with [symbol] on a cell that was
    empty. *)
Definition one_move (board : board_t) (symbol : ascii) (board' : board_t)
    : Prop :=
  board' = board \/
  exists cell, 0 <= cell < size board * size board /\
    holds board cell EMPTY /\ board' = place board cell symbol.

(** The marks among what has been drawn: the calls of [mvaddch]. *)
Definition marks (l : list drawn) : list drawn :=
  List.filter (fun d => match d with PutChar _ _ _ => true | _ => false end) l.

(** The mark that [updateBoard] draws for a symbol on a cell. *)
Definition mark (cell : Z) (symbol : ascii) : drawn :=
  let '(y, x) := updateBoard_at cell in PutChar y x symbol.

(** ** Notions used in the proofs *)

(** What the search needs of a board: the data model's shape, and few enough
    cells for a [uint8_t] to count them. *)
Definition small_board (board : board_t) : Prop :=
  wf_board board /\ size board <= 15.

(** [f] returns, with the board restored, on every small board with fewer
    than [n] empty cells. *)
Definition returns_below (f : search_fn) (self other : ascii) (sz : Z)
    (n : nat) : Prop :=
  forall board depth alpha beta,
    small_board board -> size board = sz ->
    (count_empty (cells board) < n)%nat ->
    exists score, f board self other depth alpha beta = Done (score, board).

(** A search function restores the board when the board it hands back is
    the board it was given. *)
Definition restores (f : search_fn) (symbolSelf symbolOther : ascii) : Prop :=
  forall board depth alpha beta score board',
    f board symbolSelf symbolOther depth alpha beta = Done (score, board') ->
    board' = board.

(** [r'] is [r], unless [r] ran out of budget. *)
Definition le_out {A : Type} (r r' : outcome A) : Prop :=
  r = OutOfFuel \/ r' = r.

Definition le_search (f f' : search_fn) : Prop :=
  forall board self other depth alpha beta,
    le_out (f board self other depth alpha beta)
           (f' board self other depth alpha beta).

(** Every answer of [f] fits an [int8_t] when the bounds it is given do. *)
Definition fits_int8 (f : search_fn) : Prop :=
  forall board self other depth alpha beta score board',
    -128 <= alpha <= 127 -> -128 <= beta <= 127 ->
    f board self other depth alpha beta = Done (score, board') ->
    -128 <= score <= 127.

(** A [turn] that keeps the shape of the board: called for a player on a
    board of [sz * sz] cells, with [sz] at most 15, it accesses no memory
    outside a block, and when it returns it hands back such a board. *)
Definition keeps_shape (turn : turn_fn) (sz : Z) : Prop :=
  forall term board symbolUser io,
    small_board board -> size board = sz -> player symbolUser ->
    turn term board symbolUser
      (if Ascii.eqb symbolUser NOUGHT then CROSS else NOUGHT) io
    <> Undefined /\
    forall go board' io',
      turn term board symbolUser
        (if Ascii.eqb symbolUser NOUGHT then CROSS else NOUGHT) io
      = Done (go, board', io') ->
      small_board board' /\ size board' = sz.

(** How [play] may end when [turn] keeps the shape of boards of size [sz]:
    waiting for a key; with a board of that shape and size; or at an
    assertion, and then a call of [turn] has stopped at one. *)
Definition ends_in_turn (turn : turn_fn) (sz : Z) (term : terminal)
    (r : outcome (board_t * io_t)) : Prop :=
  match r with
  | Done (board', _) => small_board board' /\ size board' = sz
  | AssertFailed =>
      exists board symbolUser io,
        small_board board /\ size board = sz /\ player symbolUser /\
        turn term board symbolUser
          (if Ascii.eqb symbolUser NOUGHT then CROSS else NOUGHT) io
        = AssertFailed
  | Undefined => False
  | OutOfFuel => True
  end.

(* ================================================================== *)
(** * Lemmas *)

(** ** Outcomes *)

Lemma bind_Done {A B} (m : outcome A) (k : A -> outcome B) (b : B) :
  bind m k = Done b -> exists a, m = Done a /\ k a = Done b.
Proof. destruct m; simpl; intros H; try discriminate. eauto. Qed.

Lemma assert_Done (c : bool) (u : unit) : assert c = Done u -> c = true.
Proof. destruct c; simpl; [reflexivity | discriminate]. Qed.

(** ** Machine integers *)

Lemma to_uint8_small (z : Z) : 0 <= z < 256 -> to_uint8 z = z.
Proof. intros H. unfold to_uint8. apply Z.mod_small. lia. Qed.

Lemma to_uint8_range (z : Z) : 0 <= to_uint8 z < 256.
Proof. unfold to_uint8. apply Z.mod_pos_bound. lia. Qed.

Lemma to_int8_small (z : Z) : -128 <= z <= 127 -> to_int8 z = z.
Proof. intros H. unfold to_int8. rewrite Z.mod_small; lia. Qed.

(** ** Loops *)

(** A loop whose counter stays below 255 never wraps: with an invariant
    that the body keeps, and a body that returns, the loop returns, and
    either it ran to [bound] or the body left the function. *)
Lemma for_uint8_spec {St R : Type} (I : Z -> St -> Prop) (Q : R -> Prop)
    (bound : Z) (body : Z -> St -> outcome (flow St R)) :
  bound <= 255 ->
  (forall j s, 0 <= j < bound -> I j s ->
     exists x, body j s = Done x /\
       match x with Next s' => I (j + 1) s' | Return r => Q r end) ->
  forall (gas : nat) (i : Z) (s : St),
    0 <= i <= bound -> (Z.to_nat (bound - i) < gas)%nat -> I i s ->
    exists x, for_uint8 gas bound body i s = Done x /\
      match x with Next s' => I bound s' | Return r => Q r end.
Proof.
  intros Hb Hbody gas. induction gas as [|g IH]; intros i s Hi Hg HI.
  - lia.
  - simpl. destruct (Z.ltb_spec i bound) as [Hlt|Hge].
    + destruct (Hbody i s ltac:(lia) HI) as [x [Hx Hpost]]. rewrite Hx.
      destruct x as [s'|r].
      * rewrite to_uint8_small by lia. apply IH; [lia | lia | exact Hpost].
      * exists (Return r). split; [reflexivity | exact Hpost].
    + exists (Next s). split; [reflexivity|].
      replace bound with i by lia. exact HI.
Qed.

(** Whatever the bound and the budget: an invariant that the body keeps
    holds when the loop returns. *)
Lemma for_uint8_inv {St R : Type} (I : St -> Prop) (Q : R -> Prop)
    (bound : Z) (body : Z -> St -> outcome (flow St R)) :
  (forall j s x, I s -> body j s = Done x ->
     match x with Next s' => I s' | Return r => Q r end) ->
  forall (gas : nat) (i : Z) (s : St) x,
    I s -> for_uint8 gas bound body i s = Done x ->
    match x with Next s' => I s' | Return r => Q r end.
Proof.
  intros Hbody gas. induction gas as [|g IH]; intros i s x HI H.
  - discriminate.
  - simpl in H. destruct (i <? bound).
    + destruct (body i s) as [y| | |] eqn:Hy; try discriminate.
      specialize (Hbody i s y HI Hy). destruct y as [s'|r].
      * eapply IH; [exact Hbody | exact H].
      * inversion H; subst. exact Hbody.
    + inversion H; subst. exact HI.
Qed.

(** A [uint8_t] counter never reaches a bound above 255: such a loop can
    only be left from inside its body. *)
Lemma for_uint8_never_ends {St R : Type}
    (bound : Z) (body : Z -> St -> outcome (flow St R)) :
  256 <= bound ->
  forall (gas : nat) (i : Z) (s s' : St),
    0 <= i < 256 -> for_uint8 gas bound body i s <> Done (Next s').
Proof.
  intros Hb gas. induction gas as [|g IH]; intros i s s' Hi; simpl.
  - discriminate.
  - destruct (Z.ltb_spec i bound) as [_|Hge]; [|lia].
    destruct (body i s) as [[s1|r]| | |]; try discriminate.
    apply IH. apply to_uint8_range.
Qed.

(** ** Reading and writing cells *)

Lemma load_Done (board : board_t) (k : Z) (c : ascii) :
  load board k = Done c <-> holds board k c.
Proof.
  unfold load, holds. destruct (Z.ltb_spec k 0) as [Hlt|Hge].
  - split; [discriminate | lia].
  - destruct (cells board !! Z.to_nat k) as [c'|] eqn:Hc.
    + split; [intros [= ->]; auto | intros [_ [= ->]]; reflexivity].
    + split; [discriminate | intros [_ [=]]].
Qed.

Lemma load_in_block (board : board_t) (k : Z) :
  0 <= k < Z.of_nat (length (cells board)) ->
  exists c, load board k = Done c.
Proof.
  intros Hk. unfold load. destruct (Z.ltb_spec k 0); [lia|].
  destruct (lookup_lt_is_Some_2 (cells board) (Z.to_nat k)) as [c Hc]; [lia|].
  rewrite Hc. eauto.
Qed.

Lemma holds_in_block (board : board_t) (k : Z) (c : ascii) :
  holds board k c -> 0 <= k < Z.of_nat (length (cells board)).
Proof.
  intros [H0 Hc]. apply lookup_lt_Some in Hc. lia.
Qed.

Lemma holds_fun (board : board_t) (k : Z) (c c' : ascii) :
  holds board k c -> holds board k c' -> c = c'.
Proof. intros [_ H] [_ H']. congruence. Qed.

Lemma store_Done (board board' : board_t) (k : Z) (c : ascii) :
  store board k c = Done board' ->
  0 <= k < Z.of_nat (length (cells board)) /\
  board' = mkBoard (size board) (<[Z.to_nat k := c]> (cells board)).
Proof.
  unfold store. destruct (Z.leb_spec 0 k), (Z.ltb_spec k (Z.of_nat (length (cells board))));
    simpl; intros [= <-] || discriminate. split; [lia | reflexivity].
Qed.

Lemma store_in_block (board : board_t) (k : Z) (c : ascii) :
  0 <= k < Z.of_nat (length (cells board)) ->
  store board k c =
    Done (mkBoard (size board) (<[Z.to_nat k := c]> (cells board))).
Proof.
  intros Hk. unfold store.
  destruct (Z.leb_spec 0 k), (Z.ltb_spec k (Z.of_nat (length (cells board))));
    try lia. reflexivity.
Qed.

(** ** isValidMove, setCell *)

Lemma isValidMove_total (board : board_t) (cell : Z) (symbol : ascii) :
  wf_board board ->
  exists v, isValidMove board cell symbol = Done v /\
    (v = true <->
       0 <= cell < size board * size board /\
       (symbol = EMPTY \/ holds board cell EMPTY)).
Proof.
  intros [Hs Hlen]. unfold isValidMove.
  destruct (Z.leb_spec 0 cell) as [H0|H0];
    destruct (Z.ltb_spec cell (size board * size board)) as [H1|H1]; simpl;
    try (exists false; split; [reflexivity | split; [discriminate | lia]]).
  destruct (Ascii.eqb_spec symbol EMPTY) as [He|He].
  - exists true. split; [reflexivity | tauto].
  - destruct (load_in_block board cell ltac:(lia)) as [c Hc]. rewrite Hc. simpl.
    exists (Ascii.eqb c EMPTY). split; [reflexivity|].
    apply load_Done in Hc.
    destruct (Ascii.eqb_spec c EMPTY) as [->|Hne].
    + split; [intros _; split; [lia | right; exact Hc] | reflexivity].
    + split; [discriminate|].
      intros [_ [Hs'|Hh]]; [contradiction|].
      elim Hne. eapply holds_fun; eassumption.
Qed.

(** A move found valid for a symbol other than [EMPTY] is a move into an
    empty cell (no assumption on the board). *)
Lemma isValidMove_true (board : board_t) (cell : Z) (symbol : ascii) :
  isValidMove board cell symbol = Done true ->
  0 <= cell < size board * size board /\
  (symbol = EMPTY \/ holds board cell EMPTY).
Proof.
  unfold isValidMove.
  destruct (Z.leb_spec 0 cell) as [H0|H0];
    destruct (Z.ltb_spec cell (size board * size board)) as [H1|H1]; simpl;
    try discriminate.
  destruct (Ascii.eqb_spec symbol EMPTY) as [He|He].
  - intros _. split; [lia | left; exact He].
  - intros H. apply bind_Done in H as [c [Hc H]]. injection H as H.
    apply Ascii.eqb_eq in H. subst c. apply load_Done in Hc.
    split; [lia | right; exact Hc].
Qed.

Lemma setCell_Done (board board' : board_t) (cell : Z) (symbol : ascii) :
  setCell board cell symbol = Done board' ->
  (symbol = NOUGHT \/ symbol = CROSS \/ symbol = EMPTY) /\
  isValidMove board cell symbol = Done true /\
  0 <= cell < Z.of_nat (length (cells board)) /\
  board' = mkBoard (size board) (<[Z.to_nat cell := symbol]> (cells board)).
Proof.
  unfold setCell. intros H.
  apply bind_Done in H as [u [Ha H]]. apply assert_Done in Ha.
  apply bind_Done in H as [v [Hv H]].
  apply bind_Done in H as [u' [Ha' H]]. apply assert_Done in Ha'. subst v.
  apply store_Done in H as [Hk ->].
  repeat split; try lia; try assumption.
  apply orb_prop in Ha as [Ha|Ha]; [apply orb_prop in Ha as [Ha|Ha]|];
    apply Ascii.eqb_eq in Ha; auto.
Qed.

(** Making a move and unmaking it gives the board back. *)
Lemma setCell_undo (board b1 b2 : board_t) (cell : Z) (symbol : ascii) :
  symbol <> EMPTY ->
  setCell board cell symbol = Done b1 ->
  setCell b1 cell EMPTY = Done b2 ->
  b2 = board.
Proof.
  intros Hne H1 H2.
  apply setCell_Done in H1 as (_ & Hv & Hk & ->).
  apply setCell_Done in H2 as (_ & _ & _ & ->). simpl.
  apply isValidMove_true in Hv as [_ [He|[_ Hh]]]; [contradiction|].
  rewrite list_insert_insert_eq, list_insert_id by exact Hh.
  destruct board; reflexivity.
Qed.

(** ** isWin *)

(** The four scans share one loop: cell [f i] is compared with [symbol] for
    [i] from 0 to [size - 1], and the first other cell ends the scan. *)
Lemma line_scan (gas : nat) (board : board_t) (symbol : ascii) (f : Z -> Z) :
  0 <= size board <= 255 ->
  size board < Z.of_nat gas ->
  (forall i, 0 <= i < size board ->
     0 <= f i < Z.of_nat (length (cells board))) ->
  exists v,
    after_loop
      (for_uint8 gas (size board)
         (fun i (_ : unit) =>
            c <-- load board (f i) ;;
            if negb (Ascii.eqb c symbol) then Done (Return false)
            else Done (Next tt))
         0 tt)
      (fun _ => Done true) = Done v /\
    (v = true <-> forall i, 0 <= i < size board -> holds board (f i) symbol).
Proof.
  intros [Hpos Hs] Hgas Hf.
  destruct (for_uint8_spec
              (fun j (_ : unit) => forall i, 0 <= i < j -> holds board (f i) symbol)
              (fun r : bool => r = false /\
                 ~ forall i, 0 <= i < size board -> holds board (f i) symbol)
              (size board)
              (fun i (_ : unit) =>
                 c <-- load board (f i) ;;
                 if negb (Ascii.eqb c symbol) then Done (Return false)
                 else Done (Next tt))
              Hs) with (gas := gas) (i := 0) (s := tt) as [x [Hx Hpost]].
  - intros j [] Hj HI.
    destruct (load_in_block board (f j) (Hf j Hj)) as [c Hc]. rewrite Hc. simpl.
    apply load_Done in Hc.
    destruct (Ascii.eqb_spec c symbol) as [->|Hne]; simpl.
    + exists (Next tt). split; [reflexivity|].
      intros i Hi. destruct (Z.eq_dec i j) as [->|]; [exact Hc | apply HI; lia].
    + exists (Return false). split; [reflexivity|]. split; [reflexivity|].
      intros Hall. apply Hne. eapply holds_fun; [exact Hc | apply Hall; lia].
  - lia.
  - lia.
  - intros i Hi. lia.
  - rewrite Hx. destruct x as [[]|r]; simpl.
    + exists true. split; [reflexivity|]. split; [intros _; exact Hpost | reflexivity].
    + destruct Hpost as [-> Hnot]. exists false. split; [reflexivity|].
      split; [discriminate | intros Hall; contradiction].
Qed.

Section IsWin.
Variables (gas : nat) (board : board_t) (symbol : ascii).
Hypothesis Hwf : wf_board board.
Hypothesis Hgas : size board < Z.of_nat gas.

Lemma isWinRow_spec (row : Z) :
  0 <= row < size board ->
  exists v, isWinRow gas board row symbol = Done v /\
    (v = true <-> full_row board row symbol).
Proof.
  intros Hr. destruct Hwf as [Hs Hlen].
  destruct (line_scan gas board symbol (fun i => size board * row + i))
    as [v [Hv Hiff]]; [lia | lia | intros i Hi; nia |].
  exists v. split; [exact Hv|]. rewrite Hiff. unfold full_row.
  split; intros H i Hi; specialize (H i Hi);
    [replace (row * size board + i) with (size board * row + i) by lia
    |replace (size board * row + i) with (row * size board + i) by lia];
    exact H.
Qed.

Lemma isWinCol_spec (column : Z) :
  0 <= column < size board ->
  exists v, isWinCol gas board column symbol = Done v /\
    (v = true <-> full_col board column symbol).
Proof.
  intros Hc. destruct Hwf as [Hs Hlen].
  destruct (line_scan gas board symbol (fun i => column + size board * i))
    as [v [Hv Hiff]]; [lia | lia | intros i Hi; nia |].
  exists v. split; [exact Hv|]. rewrite Hiff. unfold full_col.
  split; intros H i Hi; specialize (H i Hi);
    [replace (column + i * size board) with (column + size board * i) by lia
    |replace (column + size board * i) with (column + i * size board) by lia];
    exact H.
Qed.

Lemma isWinForwardDiag_spec :
  exists v, isWinForwardDiag gas board symbol = Done v /\
    (v = true <-> full_forward_diag board symbol).
Proof.
  destruct Hwf as [Hs Hlen].
  destruct (line_scan gas board symbol (fun i => size board * i + i))
    as [v [Hv Hiff]]; [lia | lia | intros i Hi; nia |].
  exists v. split; [exact Hv|]. rewrite Hiff. unfold full_forward_diag.
  split; intros H i Hi; specialize (H i Hi);
    [replace (i * size board + i) with (size board * i + i) by lia
    |replace (size board * i + i) with (i * size board + i) by lia];
    exact H.
Qed.

Lemma isWinBackwardDiag_spec :
  exists v, isWinBackwardDiag gas board symbol = Done v /\
    (v = true <-> full_backward_diag board symbol).
Proof.
  destruct Hwf as [Hs Hlen].
  destruct (line_scan gas board symbol
              (fun i => size board * (size board - 1 - i) + i))
    as [v [Hv Hiff]]; [lia | lia | intros i Hi; nia |].
  exists v. split; [exact Hv|]. rewrite Hiff. unfold full_backward_diag.
  split; intros H i Hi; specialize (H i Hi);
    [replace ((size board - 1 - i) * size board + i)
       with (size board * (size board - 1 - i) + i) by lia
    |replace (size board * (size board - 1 - i) + i)
       with ((size board - 1 - i) * size board + i) by lia];
    exact H.
Qed.

Lemma isWin_spec :
  exists v, isWin gas board symbol = Done v /\
    (v = true <-> has_line board symbol).
Proof.
  unfold isWin, has_line.
  destruct isWinForwardDiag_spec as [f [-> Hf]]. simpl.
  destruct f.
  { simpl. exists true. split; [reflexivity|].
    split; [intros _; right; right; left; apply Hf; reflexivity | reflexivity]. }
  destruct isWinBackwardDiag_spec as [d [-> Hd]]. simpl.
  destruct d.
  { exists true. split; [reflexivity|].
    split; [intros _; right; right; right; apply Hd; reflexivity | reflexivity]. }
  assert (Hnf : ~ full_forward_diag board symbol)
    by (intros H; apply Hf in H; discriminate).
  assert (Hnd : ~ full_backward_diag board symbol)
    by (intros H; apply Hd in H; discriminate).
  destruct Hwf as [Hs Hlen].
  destruct (for_uint8_spec
              (fun j (_ : unit) => forall i, 0 <= i < j ->
                 ~ full_row board i symbol /\ ~ full_col board i symbol)
              (fun r : bool => r = true /\
                 exists i, 0 <= i < size board /\
                   (full_row board i symbol \/ full_col board i symbol))
              (size board)
              (fun i (_ : unit) =>
                 r <-- isWinRow gas board i symbol ;;
                 l <-- (if r then Done true
                        else isWinCol gas board i symbol) ;;
                 if l then Done (Return true) else Done (Next tt))
              ltac:(lia)) with (gas := gas) (i := 0) (s := tt)
    as [x [Hx Hpost]].
  - intros j [] Hj HI.
    destruct (isWinRow_spec j Hj) as [r [-> Hr]]. simpl.
    destruct r.
    { simpl. exists (Return true). split; [reflexivity|].
      split; [reflexivity|]. exists j. split; [lia|]. left. apply Hr. reflexivity. }
    destruct (isWinCol_spec j Hj) as [l [-> Hl]]. simpl.
    destruct l.
    { exists (Return true). split; [reflexivity|].
      split; [reflexivity|]. exists j. split; [lia|]. right. apply Hl. reflexivity. }
    exists (Next tt). split; [reflexivity|].
    intros i Hi. destruct (Z.eq_dec i j) as [->|]; [|apply HI; lia].
    split; intros H; [apply Hr in H | apply Hl in H]; discriminate.
  - lia.
  - lia.
  - intros i Hi. lia.
  - rewrite Hx. destruct x as [[]|r]; simpl.
    + exists false. split; [reflexivity|]. split; [discriminate|].
      intros [[r [Hr H]]|[[c [Hc H]]|[H|H]]]; try contradiction.
      * destruct (Hpost r Hr) as [Hnr _]. contradiction.
      * destruct (Hpost c Hc) as [_ Hnc]. contradiction.
    + destruct Hpost as [-> [i [Hi H]]]. exists true. split; [reflexivity|].
      split; [intros _ | reflexivity].
      destruct H as [H|H]; [left | right; left]; exists i; auto.
Qed.
End IsWin.

(** ** isDraw *)

Lemma isDraw_true_no_win (gas : nat) (board : board_t) :
  isDraw gas board = Done true ->
  isWin gas board NOUGHT = Done false /\ isWin gas board CROSS = Done false.
Proof.
  unfold isDraw. intros H.
  apply bind_Done in H as [n [Hn H]].
  apply bind_Done in H as [w [Hw H]].
  destruct w; [discriminate|]. destruct n; [discriminate|]. auto.
Qed.

Lemma isDraw_true_player (gas : nat) (board : board_t) (symbol : ascii) :
  player symbol -> isDraw gas board = Done true ->
  isWin gas board symbol = Done false.
Proof.
  intros Hp H. apply isDraw_true_no_win in H as [Hn Hc].
  destruct Hp as [-> | ->]; assumption.
Qed.

(** On a board of at most 15 x 15 cells the cell counter does not wrap. *)
Lemma isDraw_spec (gas : nat) (board : board_t) :
  wf_board board -> size board <= 15 ->
  size board * size board < Z.of_nat gas ->
  exists v, isDraw gas board = Done v /\
    (v = true <->
       ~ has_line board NOUGHT /\ ~ has_line board CROSS /\
       no_empty_cell board).
Proof.
  intros Hwf Hs Hgas. pose proof Hwf as [Hs0 Hlen].
  assert (Hgas' : size board < Z.of_nat gas) by nia.
  unfold isDraw.
  destruct (isWin_spec gas board NOUGHT Hwf Hgas') as [n [-> Hn]]. simpl.
  destruct n.
  { simpl. exists false. split; [reflexivity|]. split; [discriminate|].
    intros [H _]. elim H. apply Hn. reflexivity. }
  destruct (isWin_spec gas board CROSS Hwf Hgas') as [w [-> Hw]]. simpl.
  destruct w.
  { exists false. split; [reflexivity|]. split; [discriminate|].
    intros [_ [H _]]. elim H. apply Hw. reflexivity. }
  destruct (for_uint8_spec
              (fun j (_ : unit) => forall k, 0 <= k < j -> ~ holds board k EMPTY)
              (fun r : bool => r = false /\ ~ no_empty_cell board)
              (size board * size board)
              (fun cell (_ : unit) =>
                 c <-- load board cell ;;
                 if Ascii.eqb c EMPTY then Done (Return false)
                 else Done (Next tt))
              ltac:(nia)) with (gas := gas) (i := 0) (s := tt)
    as [x [Hx Hpost]].
  - intros j [] Hj HI.
    destruct (load_in_block board j ltac:(lia)) as [c Hc]. rewrite Hc. simpl.
    apply load_Done in Hc.
    destruct (Ascii.eqb_spec c EMPTY) as [->|Hne].
    + exists (Return false). split; [reflexivity|]. split; [reflexivity|].
      intros Hno. exact (Hno j Hc).
    + exists (Next tt). split; [reflexivity|].
      intros k Hk Hh. destruct (Z.eq_dec k j) as [->|]; [|apply (HI k); [lia|exact Hh]].
      apply Hne. eapply holds_fun; eassumption.
  - nia.
  - lia.
  - intros k Hk. lia.
  - rewrite Hx. destruct x as [[]|r]; simpl.
    + exists true. split; [reflexivity|]. split; [intros _ | reflexivity].
      split; [intros H; apply Hn in H; discriminate|].
      split; [intros H; apply Hw in H; discriminate|].
      intros k Hh. apply (Hpost k); [|exact Hh].
      apply holds_in_block in Hh. lia.
    + destruct Hpost as [-> Hnot]. exists false. split; [reflexivity|].
      split; [discriminate | intros (_ & _ & H); contradiction].
Qed.

(** A loop that was left with [return r] was left by its body. *)
Lemma for_uint8_Return {St R : Type} (gas : nat) (bound : Z)
    (body : Z -> St -> outcome (flow St R)) (i : Z) (s : St) (r : R) :
  for_uint8 gas bound body i s = Done (Return r) ->
  exists j s', body j s' = Done (Return r).
Proof.
  intros H.
  apply (for_uint8_inv (fun _ => True)
           (fun r => exists j s', body j s' = Done (Return r))
           bound body) in H; [exact H | | exact I].
  intros j s0 x _ Hx. destruct x; [exact I | eauto].
Qed.

(** From 16 x 16 cells on, [size * size] is above every [uint8_t]: the
    scan for an empty cell is never over, and [isDraw] never answers
    [true]. *)
Lemma isDraw_large (gas : nat) (board : board_t) :
  16 <= size board -> isDraw gas board <> Done true.
Proof.
  intros Hs H. unfold isDraw in H.
  apply bind_Done in H as [n [_ H]].
  apply bind_Done in H as [w [_ H]].
  destruct w; [discriminate|].
  destruct (for_uint8 _ _ _ _ _) as [[[]|r]| | |] eqn:Hloop; simpl in H;
    try discriminate.
  - eapply for_uint8_never_ends; [|split|exact Hloop]; nia || lia.
  - injection H as ->. apply for_uint8_Return in Hloop as (j & s' & Hb).
    apply bind_Done in Hb as [c [_ Hb]].
    destruct (Ascii.eqb c EMPTY); discriminate.
Qed.

(** ** resetBoard, initBoard *)

Lemma resetBoard_spec (gas : nat) (board : board_t) :
  wf_board board -> size board <= 15 ->
  size board * size board < Z.of_nat gas ->
  exists board', resetBoard gas board = Done board' /\
    size board' = size board /\
    length (cells board') = length (cells board) /\
    forall k, 0 <= k < size board * size board -> holds board' k EMPTY.
Proof.
  intros [Hs0 Hlen] Hs Hgas. unfold resetBoard.
  destruct (for_uint8_spec
              (fun j (b : board_t) =>
                 size b = size board /\
                 length (cells b) = length (cells board) /\
                 forall k, 0 <= k < j -> holds b k EMPTY)
              (fun _ : board_t => False)
              (size board * size board)
              (fun cell b => b' <-- store b cell EMPTY ;; Done (Next b'))
              ltac:(nia)) with (gas := gas) (i := 0) (s := board)
    as [x [Hx Hpost]].
  - intros j b Hj (Hsz & Hl & HI).
    rewrite store_in_block by lia. simpl.
    eexists. split; [reflexivity|]. simpl.
    split; [exact Hsz|]. split; [rewrite length_insert; exact Hl|].
    intros k Hk. split; [lia|]. simpl.
    destruct (Z.eq_dec k j) as [->|Hne].
    + apply list_lookup_insert_eq. lia.
    + rewrite list_lookup_insert_ne by lia. apply HI. lia.
  - nia.
  - lia.
  - split; [reflexivity | split; [reflexivity | intros k Hk; lia]].
  - rewrite Hx. destruct x as [b'|r]; simpl; [|contradiction].
    exists b'. split; [reflexivity | exact Hpost].
Qed.

Lemma resetBoard_large (gas : nat) (board board' : board_t) :
  16 <= size board -> resetBoard gas board <> Done board'.
Proof.
  intros Hs H. unfold resetBoard in H.
  destruct (for_uint8 _ _ _ _ _) as [[b|r]| | |] eqn:Hloop; simpl in H;
    try discriminate.
  - eapply for_uint8_never_ends; [|split|exact Hloop]; nia || lia.
  - apply for_uint8_Return in Hloop as (j & s' & Hb).
    apply bind_Done in Hb as [c [_ Hb]]. discriminate.
Qed.

(** The board operations keep the block and the size field as they are. *)
Lemma setCell_shape (board board' : board_t) (cell : Z) (symbol : ascii) :
  setCell board cell symbol = Done board' ->
  size board' = size board /\ length (cells board') = length (cells board).
Proof.
  intros H. apply setCell_Done in H as (_ & _ & _ & ->). simpl.
  split; [reflexivity | apply length_insert].
Qed.

Lemma resetBoard_shape (gas : nat) (board board' : board_t) :
  resetBoard gas board = Done board' ->
  size board' = size board /\ length (cells board') = length (cells board).
Proof.
  unfold resetBoard. intros H.
  destruct (for_uint8 _ _ _ _ _) as [[b|r]| | |] eqn:Hloop; simpl in H;
    try discriminate.
  - injection H as ->.
    apply (for_uint8_inv
             (fun b => size b = size board /\
                       length (cells b) = length (cells board))
             (fun _ => False)) in Hloop; [exact Hloop | | auto].
    intros j s x [Hsz Hl] Hx.
    apply bind_Done in Hx as [b1 [Hst Hx]]. injection Hx as <-.
    apply store_Done in Hst as [_ ->]. simpl.
    split; [exact Hsz | rewrite length_insert; exact Hl].
  - apply for_uint8_Return in Hloop as (j & s' & Hb).
    apply bind_Done in Hb as [c [_ Hb]]. discriminate.
Qed.

(** ** The search leaves the board as it found it *)

(** One candidate move of any of the three loops: make the move, score it
    with [callee], unmake it. *)
Lemma try_move_frame (callee : search_fn) (self other mover : ascii)
    (board : board_t) (cell depth alpha beta : Z) {A : Type}
    (k : Z -> board_t -> outcome A) (a : A) :
  restores callee self other -> mover <> EMPTY ->
  (board1 <-- setCell board cell mover ;;
   r <-- callee board1 self other depth alpha beta ;;
   let '(score, board2) := r in
   board3 <-- setCell board2 cell EMPTY ;;
   k score board3) = Done a ->
  exists score, k score board = Done a.
Proof.
  intros Hc Hm H.
  apply bind_Done in H as [b1 [H1 H]].
  apply bind_Done in H as [[score b2] [H2 H]].
  apply bind_Done in H as [b3 [H3 H]].
  apply Hc in H2. subst b2.
  rewrite (setCell_undo _ _ _ _ _ Hm H1 H3) in H. eauto.
Qed.

Lemma minimise_body_frame (callee : search_fn) (gas : nat)
    (self other : ascii) :
  restores callee self other -> other <> EMPTY ->
  restores (minimise_body callee gas) self other.
Proof.
  intros Hc Ho board depth alpha beta score board' H.
  unfold minimise_body in H.
  apply bind_Done in H as [w [_ H]].
  destruct w; [injection H as _ <-; reflexivity|].
  apply bind_Done in H as [d [_ H]].
  destruct d; [injection H as _ <-; reflexivity|].
  destruct (for_uint8 _ _ _ _ _) as [x| | |] eqn:Hloop; try discriminate.
  apply (for_uint8_inv (fun st : board_t * Z => fst st = board)
           (fun r : Z * board_t => snd r = board)) in Hloop.
  - destruct x as [[b be]|[sc b]]; simpl in *; injection H as _ <-; exact Hloop.
  - intros j [b be] y Hb Hx. simpl in Hb. subst b.
    apply bind_Done in Hx as [v [_ Hx]].
    destruct v; [|injection Hx as <-; reflexivity].
    apply try_move_frame in Hx as [sc Hx]; [|assumption..].
    destruct (min be sc <=? alpha); injection Hx as <-; reflexivity.
  - reflexivity.
Qed.

Lemma maximise_body_frame (callee : search_fn) (gas : nat)
    (self other : ascii) :
  restores callee self other -> self <> EMPTY ->
  restores (maximise_body callee gas) self other.
Proof.
  intros Hc Ho board depth alpha beta score board' H.
  unfold maximise_body in H.
  apply bind_Done in H as [w [_ H]].
  destruct w; [injection H as _ <-; reflexivity|].
  apply bind_Done in H as [d [_ H]].
  destruct d; [injection H as _ <-; reflexivity|].
  destruct (for_uint8 _ _ _ _ _) as [x| | |] eqn:Hloop; try discriminate.
  apply (for_uint8_inv (fun st : board_t * Z => fst st = board)
           (fun r : Z * board_t => snd r = board)) in Hloop.
  - destruct x as [[b al]|[sc b]]; simpl in *; injection H as _ <-; exact Hloop.
  - intros j [b al] y Hb Hx. simpl in Hb. subst b.
    apply bind_Done in Hx as [v [_ Hx]].
    destruct v; [|injection Hx as <-; reflexivity].
    apply try_move_frame in Hx as [sc Hx]; [|assumption..].
    destruct (max al sc >=? beta); injection Hx as <-; reflexivity.
  - reflexivity.
Qed.

Lemma search_frame (gas : nat) (self other : ascii) :
  self <> EMPTY -> other <> EMPTY ->
  forall fuel : nat,
    restores (minimise fuel gas) self other /\
    restores (maximise fuel gas) self other.
Proof.
  intros Hs Ho fuel. induction fuel as [|f [IHmin IHmax]].
  - split; intros board depth alpha beta score board' H; discriminate.
  - split; simpl.
    + apply minimise_body_frame; assumption.
    + apply maximise_body_frame; assumption.
Qed.

Lemma player_not_EMPTY (symbol : ascii) : player symbol -> symbol <> EMPTY.
Proof. intros [-> | ->]; discriminate. Qed.

Lemma other_player (symbol : ascii) :
  player (if Ascii.eqb symbol NOUGHT then CROSS else NOUGHT).
Proof. destruct (Ascii.eqb symbol NOUGHT); [right | left]; reflexivity. Qed.

Lemma getBestMove_frame (fuel gas : nat) (board board' : board_t)
    (symbolSelf : ascii) (cell : Z) :
  player symbolSelf ->
  getBestMove fuel gas board symbolSelf = Done (cell, board') ->
  board' = board.
Proof.
  intros Hp H. unfold getBestMove, getBestMove_body in H.
  set (other := if Ascii.eqb symbolSelf NOUGHT then CROSS else NOUGHT) in *.
  assert (Hs : symbolSelf <> EMPTY) by (apply player_not_EMPTY; exact Hp).
  assert (Ho : other <> EMPTY) by (apply player_not_EMPTY, other_player).
  destruct (for_uint8 _ _ _ _ _) as [x| | |] eqn:Hloop; try discriminate.
  apply (for_uint8_inv (fun st : board_t * Z * option Z => fst (fst st) = board)
           (fun r : Z * board_t => snd r = board)) in Hloop.
  - destruct x as [[[b al] bm]|[c b]]; simpl in *.
    + apply bind_Done in H as [_ [_ H]].
      destruct bm; [|discriminate]. injection H as _ <-. exact Hloop.
    + injection H as _ <-. exact Hloop.
  - intros j [[b al] bm] y Hb Hx. simpl in Hb. subst b.
    apply bind_Done in Hx as [v [_ Hx]].
    destruct v; [|injection Hx as <-; reflexivity].
    apply (try_move_frame (minimise fuel gas)) in Hx as [sc Hx];
      [| apply search_frame; assumption | assumption].
    destruct (sc >? al); injection Hx as <-; reflexivity.
  - reflexivity.
Qed.

(** ** The search returns *)

Lemma count_empty_insert (l : list ascii) (i : nat) (c : ascii) :
  l !! i = Some EMPTY -> c <> EMPTY ->
  S (count_empty (<[i := c]> l)) = count_empty l.
Proof.
  revert i. induction l as [|a l IH]; intros i Hi Hc; [discriminate|].
  destruct i as [|i]; simpl in *.
  - injection Hi as ->. apply Ascii.eqb_neq in Hc. rewrite Hc. reflexivity.
  - rewrite <- (IH i Hi Hc). destruct (Ascii.eqb a EMPTY); reflexivity.
Qed.

Lemma setCell_move (board : board_t) (cell : Z) (symbol : ascii) :
  wf_board board -> player symbol ->
  isValidMove board cell symbol = Done true ->
  exists board1, setCell board cell symbol = Done board1 /\
    wf_board board1 /\ size board1 = size board /\
    S (count_empty (cells board1)) = count_empty (cells board) /\
    setCell board1 cell EMPTY = Done board.
Proof.
  intros [Hs Hlen] Hp Hv.
  pose proof (player_not_EMPTY _ Hp) as Hne.
  pose proof (isValidMove_true _ _ _ Hv) as [Hc [He|Hh]]; [contradiction|].
  set (board1 := mkBoard (size board) (<[Z.to_nat cell := symbol]> (cells board))).
  assert (H1 : setCell board cell symbol = Done board1).
  { unfold setCell. replace (_ || _ || _) with true
      by (destruct Hp as [-> | ->]; reflexivity).
    simpl. rewrite Hv. simpl. apply store_in_block. lia. }
  exists board1. split; [exact H1|].
  split; [split; simpl; [exact Hs | rewrite length_insert; exact Hlen]|].
  split; [reflexivity|].
  split; [apply count_empty_insert; [apply Hh | exact Hne]|].
  assert (H2 : exists b2, setCell board1 cell EMPTY = Done b2).
  { unfold setCell. simpl. unfold isValidMove. simpl.
    destruct (Z.leb_spec 0 cell); [|lia].
    destruct (Z.ltb_spec cell (size board * size board)); [|lia]. simpl.
    rewrite store_in_block by (simpl; rewrite length_insert; lia). eauto. }
  destruct H2 as [b2 H2]. rewrite H2. f_equal.
  eapply setCell_undo; eassumption.
Qed.

(** One candidate move, when [callee] returns on the board after it. *)
Lemma try_move_total (callee : search_fn) (self other mover : ascii)
    (n : nat) (board : board_t) (cell depth alpha beta : Z) {A : Type}
    (k : Z -> board_t -> outcome A) :
  returns_below callee self other (size board) n ->
  small_board board -> (count_empty (cells board) < S n)%nat ->
  player mover ->
  isValidMove board cell mover = Done true ->
  exists score,
    (board1 <-- setCell board cell mover ;;
     r <-- callee board1 self other depth alpha beta ;;
     let '(score, board2) := r in
     board3 <-- setCell board2 cell EMPTY ;;
     k score board3) = k score board.
Proof.
  intros Hc [Hwf Hs] Hn Hp Hv.
  destruct (setCell_move board cell mover Hwf Hp Hv)
    as (b1 & H1 & Hwf1 & Hs1 & Hcnt & H2).
  destruct (Hc b1 depth alpha beta) as [score Hscore].
  - split; [exact Hwf1 | lia].
  - exact Hs1.
  - lia.
  - exists score. rewrite H1. simpl. rewrite Hscore. simpl. rewrite H2.
    reflexivity.
Qed.

Lemma minimise_body_total (callee : search_fn) (gas : nat)
    (self other : ascii) (n : nat) (board : board_t) (depth alpha beta : Z) :
  returns_below callee self other (size board) n -> player other ->
  small_board board -> size board * size board < Z.of_nat gas ->
  (count_empty (cells board) < S n)%nat ->
  exists score,
    minimise_body callee gas board self other depth alpha beta
    = Done (score, board).
Proof.
  intros Hc Hp Hsmall Hgas Hn. pose proof Hsmall as [Hwf Hs].
  pose proof Hwf as [Hs0 Hlen].
  unfold minimise_body.
  destruct (isWin_spec gas board other Hwf ltac:(nia)) as [w [-> _]]. simpl.
  destruct w; [eauto|].
  destruct (isDraw_spec gas board Hwf Hs Hgas) as [d [-> _]]. simpl.
  destruct d; [eauto|].
  match goal with |- context [for_uint8 gas ?bd ?body 0 ?s0] =>
    destruct (for_uint8_spec
                (fun (_ : Z) (st : board_t * Z) => fst st = board)
                (fun r : Z * board_t => snd r = board)
                bd body ltac:(unfold getSize; nia))
      with (gas := gas) (i := 0) (s := s0) as [x [Hx Hpost]]
  end.
  - intros j [b be] Hj Hb. simpl in Hb. subst b.
    destruct (isValidMove_total board j other Hwf) as [v [Hv _]]. rewrite Hv. simpl.
    destruct v; [|eexists; split; reflexivity].
    destruct (try_move_total callee self other other n board j
                (to_uint8 (depth + 1)) alpha be
                (fun score b =>
                   let beta := min be score in
                   if beta <=? alpha then Done (Return (alpha, b))
                   else Done (Next (b, beta)))
                Hc Hsmall Hn Hp Hv) as [score Heq].
    cbv beta zeta in Heq.
    destruct (min be score <=? alpha) eqn:Hcmp;
      eexists; (split; [rewrite Heq; reflexivity | reflexivity]).
  - unfold getSize. nia.
  - unfold getSize. lia.
  - reflexivity.
  - rewrite Hx. destruct x as [[b be]|[sc b]]; simpl in *; subst b; eauto.
Qed.

Lemma maximise_body_total (callee : search_fn) (gas : nat)
    (self other : ascii) (n : nat) (board : board_t) (depth alpha beta : Z) :
  returns_below callee self other (size board) n -> player self ->
  small_board board -> size board * size board < Z.of_nat gas ->
  (count_empty (cells board) < S n)%nat ->
  exists score,
    maximise_body callee gas board self other depth alpha beta
    = Done (score, board).
Proof.
  intros Hc Hp Hsmall Hgas Hn. pose proof Hsmall as [Hwf Hs].
  pose proof Hwf as [Hs0 Hlen].
  unfold maximise_body.
  destruct (isWin_spec gas board self Hwf ltac:(nia)) as [w [-> _]]. simpl.
  destruct w; [eauto|].
  destruct (isDraw_spec gas board Hwf Hs Hgas) as [d [-> _]]. simpl.
  destruct d; [eauto|].
  match goal with |- context [for_uint8 gas ?bd ?body 0 ?s0] =>
    destruct (for_uint8_spec
                (fun (_ : Z) (st : board_t * Z) => fst st = board)
                (fun r : Z * board_t => snd r = board)
                bd body ltac:(unfold getSize; nia))
      with (gas := gas) (i := 0) (s := s0) as [x [Hx Hpost]]
  end.
  - intros j [b al] Hj Hb. simpl in Hb. subst b.
    destruct (isValidMove_total board j self Hwf) as [v [Hv _]]. rewrite Hv. simpl.
    destruct v; [|eexists; split; reflexivity].
    destruct (try_move_total callee self other self n board j
                (to_uint8 (depth + 1)) al beta
                (fun score b =>
                   let alpha := max al score in
                   if alpha >=? beta then Done (Return (beta, b))
                   else Done (Next (b, alpha)))
                Hc Hsmall Hn Hp Hv) as [score Heq].
    cbv beta zeta in Heq.
    destruct (max al score >=? beta) eqn:Hcmp;
      eexists; (split; [rewrite Heq; reflexivity | reflexivity]).
  - unfold getSize. nia.
  - unfold getSize. lia.
  - reflexivity.
  - rewrite Hx. destruct x as [[b al]|[sc b]]; simpl in *; subst b; eauto.
Qed.

Lemma search_total (gas : nat) (self other : ascii) (sz : Z) :
  player self -> player other -> sz * sz < Z.of_nat gas ->
  forall fuel : nat,
    returns_below (minimise fuel gas) self other sz fuel /\
    returns_below (maximise fuel gas) self other sz fuel.
Proof.
  intros Hs Ho Hgas fuel. induction fuel as [|f [IHmin IHmax]].
  - split; intros board depth alpha beta _ _ Hn; lia.
  - split; intros board depth alpha beta Hsmall Hsz Hn; simpl; subst sz.
    + apply (minimise_body_total _ gas self other f); assumption.
    + apply (maximise_body_total _ gas self other f); assumption.
Qed.

(** On a small board [getBestMove] comes to its last line: either the
    assertion fails there, or a cell is returned; the cell was a valid move
    and the board is as before. *)
Lemma getBestMove_total (fuel gas : nat) (board : board_t) (symbolSelf : ascii) :
  small_board board -> player symbolSelf ->
  size board * size board < Z.of_nat gas ->
  (count_empty (cells board) <= fuel)%nat ->
  getBestMove fuel gas board symbolSelf = AssertFailed \/
  exists cell,
    getBestMove fuel gas board symbolSelf = Done (cell, board) /\
    isValidMove board cell symbolSelf = Done true.
Proof.
  intros Hsmall Hp Hgas Hn. pose proof Hsmall as [Hwf Hs].
  pose proof Hwf as [Hs0 Hlen].
  unfold getBestMove, getBestMove_body.
  set (other := if Ascii.eqb symbolSelf NOUGHT then CROSS else NOUGHT).
  assert (Ho : player other) by apply other_player.
  assert (Hc : returns_below (minimise fuel gas) symbolSelf other
                 (size board) fuel)
    by (apply search_total; assumption).
  match goal with |- context [for_uint8 gas ?bd ?body 0 ?s0] =>
    destruct (for_uint8_spec
                (fun (_ : Z) (st : board_t * Z * option Z) =>
                   fst (fst st) = board /\
                   match snd st with
                   | Some c => isValidMove board c symbolSelf = Done true
                   | None => snd (fst st) = SCORE_LOSE
                   end)
                (fun _ : Z * board_t => False)
                bd body ltac:(unfold getSize; nia))
      with (gas := gas) (i := 0) (s := s0) as [x [Hx Hpost]]
  end.
  - intros j [[b al] bm] Hj [Hb Hbm]. simpl in Hb, Hbm. subst b.
    destruct (isValidMove_total board j symbolSelf Hwf) as [v [Hv _]].
    rewrite Hv. simpl.
    destruct v; [|eexists; split; [reflexivity | split; [reflexivity | exact Hbm]]].
    destruct (try_move_total (minimise fuel gas) symbolSelf other symbolSelf
                fuel board j 1 al (to_int8 SCORE_WIN)
                (fun score b =>
                   if score >? al
                   then Done (@Next _ (Z * board_t) (b, score, Some j))
                   else Done (Next (b, al, bm)))
                Hc Hsmall ltac:(lia) Hp Hv) as [score Heq].
    cbv beta zeta in Heq.
    destruct (score >? al) eqn:Hcmp;
      eexists; (split; [rewrite Heq; reflexivity | split; [reflexivity|]]);
      simpl; assumption.
  - unfold getSize. nia.
  - unfold getSize. lia.
  - split; reflexivity.
  - rewrite Hx. destruct x as [[[b al] bm]|r]; simpl in *; [|contradiction].
    destruct Hpost as [-> Hbm].
    destruct bm as [c|].
    + destruct (negb (al =? SCORE_LOSE)); simpl; [right | left; reflexivity].
      exists c. split; [reflexivity | exact Hbm].
    + subst al. left. reflexivity.
Qed.

(** ** A larger budget does not change an outcome *)

Lemma le_out_refl {A : Type} (r : outcome A) : le_out r r.
Proof. right. reflexivity. Qed.

Lemma le_out_eq {A : Type} (r r' : outcome A) :
  le_out r r' -> r <> OutOfFuel -> r' = r.
Proof. intros [H|H] Hne; [contradiction | exact H]. Qed.

Lemma le_out_bind {A B : Type} (m m' : outcome A) (k k' : A -> outcome B) :
  le_out m m' -> (forall a, le_out (k a) (k' a)) ->
  le_out (bind m k) (bind m' k').
Proof.
  intros [-> | ->] Hk; [left; reflexivity|].
  destruct m; simpl; [apply Hk | apply le_out_refl ..].
Qed.

Lemma le_out_after_loop {St R : Type} (l l' : outcome (flow St R))
    (k k' : St -> outcome R) :
  le_out l l' -> (forall s, le_out (k s) (k' s)) ->
  le_out (after_loop l k) (after_loop l' k').
Proof.
  intros [-> | ->] Hk; [left; reflexivity|].
  destruct l as [[s|r]| | |]; simpl; [apply Hk | apply le_out_refl ..].
Qed.

Lemma le_out_for {St R : Type} (bound : Z)
    (body body' : Z -> St -> outcome (flow St R)) :
  (forall i s, le_out (body i s) (body' i s)) ->
  forall (gas gas' : nat) (i : Z) (s : St),
    (gas <= gas')%nat ->
    le_out (for_uint8 gas bound body i s) (for_uint8 gas' bound body' i s).
Proof.
  intros Hb gas. induction gas as [|g IH]; intros gas' i s Hg.
  - left. reflexivity.
  - destruct gas' as [|g']; [lia|]. simpl.
    destruct (i <? bound); [|apply le_out_refl].
    destruct (Hb i s) as [-> | ->]; [left; reflexivity|].
    destruct (body i s) as [[s'|r]| | |]; try apply le_out_refl.
    apply IH. lia.
Qed.

(** Goals [le_out e e'] where [e'] is [e] with larger budgets. *)
Ltac budget :=
  repeat first
    [ apply le_out_refl
    | assumption
    | apply le_out_bind; [|intros ?]
    | apply le_out_after_loop; [|intros ?]
    | apply le_out_for; [intros ? ?| lia]
    | match goal with
      | |- le_out (if ?c then _ else _) (if ?c then _ else _) => destruct c
      | |- le_out (let '(_, _) := ?x in _) (let '(_, _) := ?x in _) =>
          destruct x
      | |- le_out (match ?x with Some _ => _ | None => _ end) _ => destruct x
      end ].

Section Budget.
Variables gas gas' : nat.
Hypothesis Hgas : (gas <= gas')%nat.
Variable board : board_t.

Lemma isWinRow_budget (row : Z) (symbol : ascii) :
  le_out (isWinRow gas board row symbol) (isWinRow gas' board row symbol).
Proof. unfold isWinRow. budget. Qed.

Lemma isWinCol_budget (column : Z) (symbol : ascii) :
  le_out (isWinCol gas board column symbol)
         (isWinCol gas' board column symbol).
Proof. unfold isWinCol. budget. Qed.

Lemma isWinForwardDiag_budget (symbol : ascii) :
  le_out (isWinForwardDiag gas board symbol)
         (isWinForwardDiag gas' board symbol).
Proof. unfold isWinForwardDiag. budget. Qed.

Lemma isWinBackwardDiag_budget (symbol : ascii) :
  le_out (isWinBackwardDiag gas board symbol)
         (isWinBackwardDiag gas' board symbol).
Proof. unfold isWinBackwardDiag. budget. Qed.

Lemma isWin_budget (symbol : ascii) :
  le_out (isWin gas board symbol) (isWin gas' board symbol).
Proof.
  unfold isWin.
  budget; auto using isWinRow_budget, isWinCol_budget,
    isWinForwardDiag_budget, isWinBackwardDiag_budget.
Qed.

Lemma isDraw_budget : le_out (isDraw gas board) (isDraw gas' board).
Proof. unfold isDraw. budget; auto using isWin_budget. Qed.

Lemma resetBoard_budget :
  le_out (resetBoard gas board) (resetBoard gas' board).
Proof. unfold resetBoard. budget. Qed.
End Budget.

Lemma minimise_body_budget (callee callee' : search_fn) (gas gas' : nat) :
  le_search callee callee' -> (gas <= gas')%nat ->
  le_search (minimise_body callee gas) (minimise_body callee' gas').
Proof.
  intros Hc Hg board self other depth alpha beta. unfold minimise_body.
  budget; auto using isWin_budget, isDraw_budget.
Qed.

Lemma maximise_body_budget (callee callee' : search_fn) (gas gas' : nat) :
  le_search callee callee' -> (gas <= gas')%nat ->
  le_search (maximise_body callee gas) (maximise_body callee' gas').
Proof.
  intros Hc Hg board self other depth alpha beta. unfold maximise_body.
  budget; auto using isWin_budget, isDraw_budget.
Qed.

Lemma search_budget (gas gas' : nat) :
  (gas <= gas')%nat ->
  forall fuel fuel' : nat, (fuel <= fuel')%nat ->
    le_search (minimise fuel gas) (minimise fuel' gas') /\
    le_search (maximise fuel gas) (maximise fuel' gas').
Proof.
  intros Hg fuel. induction fuel as [|f IH]; intros fuel' Hf.
  - split; intros board self other depth alpha beta; left; reflexivity.
  - destruct fuel' as [|f']; [lia|].
    destruct (IH f' ltac:(lia)) as [IHmin IHmax].
    split; simpl.
    + apply minimise_body_budget; assumption.
    + apply maximise_body_budget; assumption.
Qed.

Lemma getBestMove_budget (fuel fuel' gas gas' : nat) (board : board_t)
    (symbolSelf : ascii) :
  (fuel <= fuel')%nat -> (gas <= gas')%nat ->
  le_out (getBestMove fuel gas board symbolSelf)
         (getBestMove fuel' gas' board symbolSelf).
Proof.
  intros Hf Hg. unfold getBestMove, getBestMove_body.
  destruct (search_budget gas gas' Hg fuel fuel' Hf) as [Hmin _].
  budget; auto.
Qed.

(** ** More on loops *)

(** A loop that ran to its end went through every index on its way. *)
Lemma for_uint8_reaches {St R : Type} (I : St -> Prop) (bound : Z)
    (body : Z -> St -> outcome (flow St R)) :
  (forall j s s', I s -> body j s = Done (Next s') -> I s') ->
  forall (gas : nat) (i j : Z) (s s' : St),
    0 <= i <= j -> j < bound -> j < 256 -> I s ->
    for_uint8 gas bound body i s = Done (Next s') ->
    exists sj sj', I sj /\ body j sj = Done (Next sj').
Proof.
  intros Hbody gas. induction gas as [|g IH]; intros i j s s' Hi Hj Hj' HI H.
  - discriminate.
  - simpl in H. destruct (Z.ltb_spec i bound) as [_|Hge]; [|lia].
    destruct (body i s) as [[s1|r]| | |] eqn:Hb; try discriminate.
    destruct (Z.eq_dec i j) as [->|Hne]; [eauto|].
    rewrite to_uint8_small in H by lia.
    apply (IH (i + 1) j s1 s'); try lia; [|exact H].
    eapply Hbody; eassumption.
Qed.

(** Above 255 a loop whose body always goes on to the next iteration uses
    up any budget. *)
Lemma for_uint8_spins {St R : Type} (I : St -> Prop) (bound : Z)
    (body : Z -> St -> outcome (flow St R)) :
  256 <= bound ->
  (forall j s, 0 <= j < 256 -> I s ->
     exists s', body j s = Done (Next s') /\ I s') ->
  forall (gas : nat) (i : Z) (s : St),
    0 <= i < 256 -> I s -> for_uint8 gas bound body i s = OutOfFuel.
Proof.
  intros Hb Hbody gas. induction gas as [|g IH]; intros i s Hi HI.
  - reflexivity.
  - simpl. destruct (Z.ltb_spec i bound) as [_|Hge]; [|lia].
    destruct (Hbody i s Hi HI) as [s' [-> HI']].
    apply IH; [apply to_uint8_range | exact HI'].
Qed.

(** ** initBoard *)

Lemma length_malloc_chars (n : Z) (junk : nat -> ascii) :
  0 <= n -> Z.of_nat (length (malloc_chars n junk)) = n.
Proof.
  intros Hn. unfold malloc_chars. rewrite length_map, length_seq. lia.
Qed.

(** The block has [size] cells, and [resetBoard] writes [size * size] of
    them: from size 2 on, cell number [size] is outside the block. *)
Lemma initBoard_overrun (gas : nat) (n : Z) (junk : nat -> ascii)
    (board : board_t) :
  2 <= n <= 255 -> initBoard gas n junk <> Done board.
Proof.
  intros Hn H. unfold initBoard, resetBoard in H. simpl in H.
  destruct (for_uint8 _ _ _ _ _) as [[b|r]| | |] eqn:Hloop; simpl in H;
    try discriminate.
  - apply (for_uint8_reaches
             (fun b : board_t => Z.of_nat (length (cells b)) = n))
      with (j := n) in Hloop.
    + destruct Hloop as (sj & sj' & Hlen & Hb).
      apply bind_Done in Hb as [b1 [Hst _]].
      apply store_Done in Hst as [Hk _]. lia.
    + intros j s s' Hlen Hb.
      apply bind_Done in Hb as [b1 [Hst Hb]]. injection Hb as <-.
      apply store_Done in Hst as [_ ->]. simpl.
      rewrite length_insert. exact Hlen.
    + lia.
    + nia.
    + lia.
    + simpl. apply length_malloc_chars. lia.
  - apply for_uint8_Return in Hloop as (j & s' & Hb).
    apply bind_Done in Hb as [c [_ Hb]]. discriminate.
Qed.

Lemma initBoard_3 (gas : nat) (junk : nat -> ascii) :
  initBoard (4 + gas) 3 junk = Undefined.
Proof. reflexivity. Qed.

(** ** Boards of 16 x 16 cells and more *)

Lemma resetBoard_spins (gas : nat) (board : board_t) :
  wf_board board -> 16 <= size board -> resetBoard gas board = OutOfFuel.
Proof.
  intros [Hs Hlen] H16. unfold resetBoard.
  rewrite (for_uint8_spins
             (fun b : board_t => length (cells b) = length (cells board)));
    [reflexivity | nia | | lia | reflexivity].
  intros j s Hj Hl. rewrite store_in_block by (rewrite Hl; nia). simpl.
  eexists. split; [reflexivity|]. simpl. rewrite length_insert. exact Hl.
Qed.

Lemma getBestMove_large (fuel gas : nat) (board : board_t)
    (symbolSelf : ascii) (r : Z * board_t) :
  16 <= size board -> getBestMove fuel gas board symbolSelf <> Done r.
Proof.
  intros H16 H. unfold getBestMove, getBestMove_body in H.
  destruct (for_uint8 _ _ _ _ _) as [[st|r']| | |] eqn:Hloop; simpl in H;
    try discriminate.
  - eapply for_uint8_never_ends; [|split|exact Hloop];
      unfold getSize; nia || lia.
  - apply for_uint8_Return in Hloop as (j & [[b al] bm] & Hb).
    apply bind_Done in Hb as [v [_ Hb]].
    destruct v; [|discriminate].
    apply bind_Done in Hb as [b1 [_ Hb]].
    apply bind_Done in Hb as [[sc b2] [_ Hb]].
    apply bind_Done in Hb as [b3 [_ Hb]].
    destruct (sc >? al); discriminate.
Qed.

Lemma In_indices (n k : Z) : In k (indices n) <-> 0 <= k < n.
Proof.
  unfold indices. rewrite <- list_elem_of_In, elem_of_seqZ. lia.
Qed.

Lemma board16_wf : wf_board board16.
Proof. split; [simpl; lia | vm_compute; reflexivity]. Qed.

Lemma board16_cells (k : Z) :
  0 <= k < 256 -> exists c, load board16 k = Done c /\ c <> EMPTY.
Proof.
  intros Hk.
  assert (Hall : forallb
                   (fun k => match load board16 k with
                             | Done c => negb (Ascii.eqb c EMPTY)
                             | _ => false
                             end) (indices 256) = true)
    by (vm_compute; reflexivity).
  rewrite forallb_forall in Hall. specialize (Hall k).
  rewrite In_indices in Hall. specialize (Hall Hk).
  destruct (load board16 k) as [c| | |]; try discriminate.
  exists c. split; [reflexivity|].
  apply negb_true_iff, Ascii.eqb_neq in Hall. exact Hall.
Qed.

Lemma board16_no_win (gas : nat) (symbol : ascii) :
  player symbol ->
  isWin gas board16 symbol = OutOfFuel \/
  isWin gas board16 symbol = Done false.
Proof.
  intros Hp.
  assert (H17 : isWin 17 board16 symbol = Done false)
    by (destruct Hp as [-> | ->]; vm_compute; reflexivity).
  destruct (isWin_budget 17 (gas + 17) ltac:(lia) board16 symbol) as [H|H];
    [congruence|].
  destruct (isWin_budget gas (gas + 17) ltac:(lia) board16 symbol) as [H'|H'];
    [left; exact H' | right; congruence].
Qed.

Lemma isDraw_board16 (gas : nat) : isDraw gas board16 = OutOfFuel.
Proof.
  unfold isDraw.
  destruct (board16_no_win gas NOUGHT) as [-> | ->];
    [left; reflexivity | reflexivity |]. simpl.
  destruct (board16_no_win gas CROSS) as [-> | ->];
    [right; reflexivity | reflexivity |]. simpl.
  rewrite (for_uint8_spins (fun _ : unit => True));
    [reflexivity | simpl; lia | | lia | exact I].
  intros j [] Hj _. destruct (board16_cells j Hj) as [c [-> Hc]]. simpl.
  apply Ascii.eqb_neq in Hc. rewrite Hc. eauto.
Qed.

Lemma board16_full : no_empty_cell board16.
Proof.
  intros k Hh. pose proof (holds_in_block _ _ _ Hh) as Hk.
  replace (Z.of_nat (length (cells board16))) with 256 in Hk
    by (vm_compute; reflexivity).
  destruct (board16_cells k Hk) as [c [Hc Hne]].
  apply load_Done in Hc. apply Hne. eapply holds_fun; eassumption.
Qed.

Lemma board16_no_line (symbol : ascii) :
  player symbol -> ~ has_line board16 symbol.
Proof.
  intros Hp Hl.
  destruct (isWin_spec 17 board16 symbol board16_wf ltac:(simpl; lia))
    as [v [Hv Hiff]].
  apply Hiff in Hl. subst v.
  destruct Hp as [-> | ->]; vm_compute in Hv; discriminate.
Qed.

(** ** A win made with the last empty cell *)

Lemma isValidMove_full (board : board_t) (cell : Z) (symbol : ascii) :
  wf_board board -> no_empty_cell board -> symbol <> EMPTY ->
  isValidMove board cell symbol = Done false.
Proof.
  intros Hwf Hfull Hne.
  destruct (isValidMove_total board cell symbol Hwf) as [v [-> Hiff]].
  destruct v; [|reflexivity].
  destruct Hiff as [Hiff _].
  destruct (Hiff eq_refl) as [_ [He|Hh]]; [contradiction|].
  elim (Hfull cell Hh).
Qed.

(** A loop whose body changes nothing leaves with the state it entered
    with. *)
Lemma for_uint8_idle {St R : Type} (gas : nat) (bound : Z)
    (body : Z -> St -> outcome (flow St R)) (s : St) :
  0 <= bound <= 255 -> bound < Z.of_nat gas ->
  (forall j, 0 <= j < bound -> body j s = Done (Next s)) ->
  for_uint8 gas bound body 0 s = Done (Next s).
Proof.
  intros Hb Hgas Hbody.
  destruct (for_uint8_spec (fun (_ : Z) (st : St) => st = s)
              (fun _ : R => False) bound body ltac:(lia))
    with (gas := gas) (i := 0) (s := s) as [x [Hx Hpost]].
  - intros j st Hj ->. rewrite (Hbody j Hj). eexists. split; reflexivity.
  - lia.
  - lia.
  - reflexivity.
  - rewrite Hx. destruct x as [st|r]; [subst st; reflexivity | contradiction].
Qed.

Lemma isDraw_false_of_win (gas : nat) (board : board_t) (symbol : ascii) :
  wf_board board -> size board < Z.of_nat gas -> player symbol ->
  isWin gas board symbol = Done true -> isDraw gas board = Done false.
Proof.
  intros Hwf Hgas Hp Hw. unfold isDraw.
  destruct Hp as [-> | ->].
  - rewrite Hw. reflexivity.
  - destruct (isWin_spec gas board NOUGHT Hwf Hgas) as [n [-> _]]. simpl.
    destruct n; [reflexivity|]. rewrite Hw. reflexivity.
Qed.

(** The opponent has completed a line with the last empty cell: the
    maximise step checks neither that win nor finds a move, and answers
    with the alpha it was given. *)
Lemma maximise_full_board_lost (callee : search_fn) (gas : nat)
    (board : board_t) (self other : ascii) (depth alpha beta : Z) :
  small_board board -> size board * size board < Z.of_nat gas ->
  player self -> player other -> no_empty_cell board ->
  isWin gas board self = Done false -> isWin gas board other = Done true ->
  maximise_body callee gas board self other depth alpha beta
  = Done (alpha, board).
Proof.
  intros Hsmall Hgas Hs Ho Hfull Hself Hother. pose proof Hsmall as [Hwf H15].
  pose proof Hwf as [Hs0 Hlen].
  unfold maximise_body. rewrite Hself. simpl.
  rewrite (isDraw_false_of_win gas board other Hwf ltac:(nia) Ho Hother). simpl.
  rewrite for_uint8_idle; [reflexivity | unfold getSize; nia | unfold getSize; lia |].
  intros j Hj.
  rewrite (isValidMove_full board j self Hwf Hfull (player_not_EMPTY _ Hs)).
  reflexivity.
Qed.

(** Self has completed a line with the last empty cell: the minimise step
    answers with the beta it was given. *)
Lemma minimise_full_board_won (callee : search_fn) (gas : nat)
    (board : board_t) (self other : ascii) (depth alpha beta : Z) :
  small_board board -> size board * size board < Z.of_nat gas ->
  player self -> player other -> no_empty_cell board ->
  isWin gas board other = Done false -> isWin gas board self = Done true ->
  minimise_body callee gas board self other depth alpha beta
  = Done (beta, board).
Proof.
  intros Hsmall Hgas Hs Ho Hfull Hother Hself. pose proof Hsmall as [Hwf H15].
  pose proof Hwf as [Hs0 Hlen].
  unfold minimise_body. rewrite Hother. simpl.
  rewrite (isDraw_false_of_win gas board self Hwf ltac:(nia) Hs Hself). simpl.
  rewrite for_uint8_idle; [reflexivity | unfold getSize; nia | unfold getSize; lia |].
  intros j Hj.
  rewrite (isValidMove_full board j other Hwf Hfull (player_not_EMPTY _ Ho)).
  reflexivity.
Qed.

(** ** From the data model to the answers of the code *)

Lemma has_line_isWin (gas : nat) (board : board_t) (symbol : ascii) :
  wf_board board -> size board < Z.of_nat gas ->
  has_line board symbol -> isWin gas board symbol = Done true.
Proof.
  intros Hwf Hgas Hl.
  destruct (isWin_spec gas board symbol Hwf Hgas) as [v [Hv Hiff]].
  rewrite Hv. f_equal. apply Hiff. exact Hl.
Qed.

Lemma drawn_isDraw (gas : nat) (board : board_t) :
  wf_board board -> size board <= 15 ->
  size board * size board < Z.of_nat gas ->
  ~ has_line board NOUGHT -> ~ has_line board CROSS ->
  no_empty_cell board -> isDraw gas board = Done true.
Proof.
  intros Hwf H15 Hgas Hn Hc Hfull.
  destruct (isDraw_spec gas board Hwf H15 Hgas) as [v [Hv Hiff]].
  rewrite Hv. f_equal. apply Hiff. auto.
Qed.

(** ** The scenarios of the specification, on the 3 x 3 board *)

Example getBestMove_opening :
  let board := board_of 3 [[EMPTY; EMPTY; EMPTY];
                           [EMPTY; EMPTY; EMPTY];
                           [EMPTY; EMPTY; EMPTY]] in
  getBestMove 9 10 board CROSS = Done (0, board) /\
  getBestMove 9 10 board NOUGHT = Done (0, board).
Proof. split; vm_compute; reflexivity. Qed.

Example getBestMove_blocks_diagonal :
  let board := board_of 3 [[NOUGHT; CROSS;  EMPTY];
                           [EMPTY;  NOUGHT; EMPTY];
                           [EMPTY;  EMPTY;  EMPTY]] in
  getBestMove 9 10 board CROSS = Done (8, board).
Proof. vm_compute. reflexivity. Qed.

Example getBestMove_completes_row :
  let board := board_of 3 [[CROSS; CROSS; EMPTY];
                           [EMPTY; EMPTY; EMPTY];
                           [EMPTY; EMPTY; EMPTY]] in
  getBestMove 9 10 board CROSS = Done (2, board).
Proof. vm_compute. reflexivity. Qed.

Example isWin_column_of_4 :
  let board := board_of 4 [[EMPTY; CROSS; EMPTY; EMPTY];
                           [EMPTY; CROSS; EMPTY; EMPTY];
                           [EMPTY; CROSS; EMPTY; EMPTY];
                           [EMPTY; CROSS; EMPTY; EMPTY]] in
  isWin 5 board CROSS = Done true /\ isWin 5 board NOUGHT = Done false.
Proof. split; vm_compute; reflexivity. Qed.

(* ================================================================== *)
(** * The claims *)

(** ** C1: the block behind a new board *)

(** C1.  [initBoard] does not return a board of [size * size] empty cells:
    it allocates [size] chars only, and for every size from 2 to 255 the
    reset of the new board writes outside that block before it can return.
    For the 3 x 3 board of the game this is the write to cell 3, undefined
    behaviour whatever the block held and whatever the budget. *)
Theorem initBoard_block_too_short :
  (forall (gas : nat) (n : Z) (junk : nat -> ascii) (board : board_t),
     2 <= n <= 255 -> initBoard gas n junk <> Done board) /\
  (forall (gas : nat) (junk : nat -> ascii),
     length (malloc_chars 3 junk) = 3%nat /\
     initBoard (4 + gas) 3 junk = Undefined).
Proof.
  split.
  - intros gas n junk board Hn. apply initBoard_overrun. exact Hn.
  - intros gas junk. split; [reflexivity | apply initBoard_3].
Qed.

Lemma initBoard_block_too_short_witness :
  2 <= 3 <= 255 /\
  initBoard 10 3 (fun _ => EMPTY) <> Done (mkBoard 3 (replicate 9 EMPTY)).
Proof.
  split; [lia|].
  apply (proj1 initBoard_block_too_short 10%nat 3 (fun _ => EMPTY)). lia.
Defined.

(** ** C6: isWin *)

(** C6.  On every board, for every symbol, [isWin] returns, and it returns
    true exactly when some row, some column, the forward diagonal or the
    backward diagonal holds that symbol in all its cells. *)
Theorem isWin_iff_full_line (gas : nat) (board : board_t) (symbol : ascii) :
  wf_board board -> size board < Z.of_nat gas ->
  exists v, isWin gas board symbol = Done v /\
    (v = true <->
       (exists r, 0 <= r < size board /\
          forall i, 0 <= i < size board ->
            holds board (r * size board + i) symbol) \/
       (exists c, 0 <= c < size board /\
          forall i, 0 <= i < size board ->
            holds board (c + i * size board) symbol) \/
       (forall i, 0 <= i < size board ->
          holds board (i * size board + i) symbol) \/
       (forall i, 0 <= i < size board ->
          holds board ((size board - 1 - i) * size board + i) symbol)).
Proof.
  intros Hwf Hgas. exact (isWin_spec gas board symbol Hwf Hgas).
Qed.

Lemma isWin_iff_full_line_witness :
  wf_board board_won /\ size board_won < Z.of_nat 4 /\
  exists v, isWin 4 board_won NOUGHT = Done v /\
    (v = true <->
       (exists r, 0 <= r < size board_won /\
          forall i, 0 <= i < size board_won ->
            holds board_won (r * size board_won + i) NOUGHT) \/
       (exists c, 0 <= c < size board_won /\
          forall i, 0 <= i < size board_won ->
            holds board_won (c + i * size board_won) NOUGHT) \/
       (forall i, 0 <= i < size board_won ->
          holds board_won (i * size board_won + i) NOUGHT) \/
       (forall i, 0 <= i < size board_won ->
          holds board_won ((size board_won - 1 - i) * size board_won + i)
            NOUGHT)).
Proof.
  assert (Hwf : wf_board board_won) by (repeat split; simpl; lia).
  assert (Hgas : size board_won < Z.of_nat 4) by (simpl; lia).
  split; [exact Hwf|]. split; [exact Hgas|].
  exact (isWin_iff_full_line 4 board_won NOUGHT Hwf Hgas).
Defined.

(** ** C8: isValidMove *)

(** C8.  On every board, for every cell index and symbol, [isValidMove]
    returns true exactly when the index is at least 0 and below
    [size * size] and the symbol is [EMPTY] or the cell holds [EMPTY]. *)
Theorem isValidMove_iff (board : board_t) (cell : Z) (symbol : ascii) :
  wf_board board ->
  exists v, isValidMove board cell symbol = Done v /\
    (v = true <->
       0 <= cell < size board * size board /\
       (symbol = EMPTY \/ holds board cell EMPTY)).
Proof. intros Hwf. exact (isValidMove_total board cell symbol Hwf). Qed.

Lemma isValidMove_iff_witness :
  wf_board board_won /\
  exists v, isValidMove board_won 5 NOUGHT = Done v /\
    (v = true <->
       0 <= 5 < size board_won * size board_won /\
       (NOUGHT = EMPTY \/ holds board_won 5 EMPTY)).
Proof.
  assert (Hwf : wf_board board_won) by (repeat split; simpl; lia).
  split; [exact Hwf|].
  exact (isValidMove_iff board_won 5 NOUGHT Hwf).
Defined.

(** ** C7: isDraw *)

(** C7.  On every board that the module hands out, [isDraw] returns, and it
    returns true if and only if [isWin] is false for both symbols and no
    cell is empty; so a full board with a win is not a draw.  The boards
    that the module hands out have at most 15 x 15 cells: [initBoard] is
    the only function that makes one, and from size 16 on the reset of the
    new board never ends (C9). *)
Theorem isDraw_iff_no_win_and_full (gas : nat) (board : board_t) :
  small_board board -> size board * size board < Z.of_nat gas ->
  exists draw wonO wonX,
    isDraw gas board = Done draw /\
    isWin gas board NOUGHT = Done wonO /\
    isWin gas board CROSS = Done wonX /\
    (draw = true <->
     wonO = false /\ wonX = false /\ no_empty_cell board) /\
    (no_empty_cell board -> wonO = true \/ wonX = true -> draw = false).
Proof.
  intros [Hwf H15] Hgas. pose proof Hwf as [Hs Hlen].
  destruct (isDraw_spec gas board Hwf H15 Hgas) as [draw [Hd Hdraw]].
  destruct (isWin_spec gas board NOUGHT Hwf ltac:(nia)) as [wonO [HO HwonO]].
  destruct (isWin_spec gas board CROSS Hwf ltac:(nia)) as [wonX [HX HwonX]].
  exists draw, wonO, wonX.
  split; [exact Hd|]. split; [exact HO|]. split; [exact HX|].
  assert (Hiff : draw = true <->
                 wonO = false /\ wonX = false /\ no_empty_cell board).
  { rewrite Hdraw, <- HwonO, <- HwonX.
    rewrite !not_true_iff_false. tauto. }
  split; [exact Hiff|].
  intros Hfull Hwon. apply not_true_iff_false. intros Ht.
  apply Hiff in Ht as (H1 & H2 & _).
  destruct Hwon as [Hw | Hw]; congruence.
Qed.

Lemma isDraw_iff_no_win_and_full_witness :
  small_board board_drawn /\
  size board_drawn * size board_drawn < Z.of_nat 10 /\
  exists draw wonO wonX,
    isDraw 10 board_drawn = Done draw /\
    isWin 10 board_drawn NOUGHT = Done wonO /\
    isWin 10 board_drawn CROSS = Done wonX /\
    (draw = true <->
     wonO = false /\ wonX = false /\ no_empty_cell board_drawn) /\
    (no_empty_cell board_drawn -> wonO = true \/ wonX = true ->
     draw = false).
Proof.
  assert (Hs : small_board board_drawn) by (repeat split; simpl; lia).
  assert (Hg : size board_drawn * size board_drawn < Z.of_nat 10)
    by (simpl; lia).
  split; [exact Hs|]. split; [exact Hg|].
  exact (isDraw_iff_no_win_and_full 10 board_drawn Hs Hg).
Defined.

(** ** C9: boards of 16 x 16 cells and more *)

(** A block of 16 x 16 cells, which [initBoard] cannot make: on the full
    board [board16] neither symbol has a line and no cell is empty, and the
    cell counter of [isDraw] wraps from 255 to 0 and never reaches 256, so
    the call uses up every budget. *)
Lemma isDraw_board16_never_answers :
  wf_board board16 /\
  ~ has_line board16 NOUGHT /\ ~ has_line board16 CROSS /\
  no_empty_cell board16 /\
  forall gas : nat, isDraw gas board16 = OutOfFuel.
Proof.
  split; [exact board16_wf|].
  split; [apply board16_no_line; left; reflexivity|].
  split; [apply board16_no_line; right; reflexivity|].
  split; [exact board16_full | exact isDraw_board16].
Qed.

(** C9.  From size 16 on the loops over the cells do not terminate: on
    every such board [resetBoard] uses up every budget, [isDraw] never
    answers true and [getBestMove] never returns. *)
Theorem cell_loops_do_not_terminate (board : board_t) :
  wf_board board -> 16 <= size board ->
  (forall gas : nat, resetBoard gas board = OutOfFuel) /\
  (forall gas : nat, isDraw gas board <> Done true) /\
  (forall (fuel gas : nat) (symbolSelf : ascii) (r : Z * board_t),
     getBestMove fuel gas board symbolSelf <> Done r).
Proof.
  intros Hwf H16. split; [|split].
  - intros gas. apply resetBoard_spins; assumption.
  - intros gas. apply isDraw_large. exact H16.
  - intros fuel gas symbolSelf r. apply getBestMove_large. exact H16.
Qed.

Lemma cell_loops_do_not_terminate_witness :
  wf_board board16 /\ 16 <= size board16 /\
  resetBoard 1000 board16 = OutOfFuel.
Proof.
  assert (Hwf : wf_board board16)
    by (split; [simpl; lia | vm_compute; reflexivity]).
  assert (H16 : 16 <= size board16) by (simpl; lia).
  split; [exact Hwf|]. split; [exact H16|].
  exact (proj1 (cell_loops_do_not_terminate board16 Hwf H16) 1000%nat).
Defined.

(** ** C3: the board after the search *)

(** C3.  For either player's symbol, whenever [getBestMove] returns, the
    board it leaves is the board it was given, cell for cell; and on every
    board of at most 15 x 15 cells the call does come to its end: from
    some budget on it returns a cell and leaves the board as it was, or
    stops at its final assertion. *)
Theorem getBestMove_restores_board (board : board_t) (symbolSelf : ascii) :
  player symbolSelf ->
  (forall (fuel gas : nat) (cell : Z) (board' : board_t),
     getBestMove fuel gas board symbolSelf = Done (cell, board') ->
     board' = board) /\
  (small_board board ->
   exists fuel gas : nat,
     forall fuel' gas' : nat,
       (fuel <= fuel')%nat -> (gas <= gas')%nat ->
       getBestMove fuel' gas' board symbolSelf = AssertFailed \/
       exists cell,
         getBestMove fuel' gas' board symbolSelf = Done (cell, board)).
Proof.
  intros Hp. split.
  - intros fuel gas cell board' H. eapply getBestMove_frame; eassumption.
  - intros Hsmall.
    exists (count_empty (cells board)),
           (S (Z.to_nat (size board * size board))).
    intros fuel' gas' Hf Hg.
    destruct (getBestMove_total fuel' gas' board symbolSelf Hsmall Hp)
      as [H | [cell [H _]]]; [lia | exact Hf | left; exact H | right; eauto].
Qed.

Lemma getBestMove_restores_board_witness :
  player NOUGHT /\ small_board board_slow /\
  exists fuel gas : nat,
    forall fuel' gas' : nat,
      (fuel <= fuel')%nat -> (gas <= gas')%nat ->
      getBestMove fuel' gas' board_slow NOUGHT = AssertFailed \/
      exists cell,
        getBestMove fuel' gas' board_slow NOUGHT = Done (cell, board_slow).
Proof.
  assert (Hp : player NOUGHT) by (left; reflexivity).
  assert (Hs : small_board board_slow) by (repeat split; simpl; lia).
  split; [exact Hp|]. split; [exact Hs|].
  exact (proj2 (getBestMove_restores_board board_slow NOUGHT Hp) Hs).
Defined.

(** ** The terminal positions that each step tests *)

(** Nought has completed the top row of [board_won] with the candidate
    move, depth 1, and the call that scores the move answers
    [SCORE_WIN - 2], not [SCORE_WIN - 1]. *)
Example minimise_scores_win_one_ply_late :
  isWin 10 board_won NOUGHT = Done true /\ isDraw 10 board_won = Done false /\
  minimise 10 10 board_won NOUGHT CROSS 1 SCORE_LOSE SCORE_WIN
  = Done (SCORE_WIN - 2, board_won) /\
  minimise 10 10 board_won NOUGHT CROSS 1 SCORE_LOSE SCORE_WIN
  <> Done (SCORE_WIN - 1, board_won).
Proof.
  split; [vm_compute; reflexivity|].
  split; [vm_compute; reflexivity|].
  split; [vm_compute; reflexivity|].
  vm_compute. discriminate.
Qed.

(** What the two steps do score.  The maximise step scores a position
    that symbolSelf has won [SCORE_WIN - depth], the minimise step scores a
    position that the opponent has won [SCORE_LOSE + depth], and both score
    a drawn full position 0.  The depth is the one the caller hands over:
    [getBestMove] calls with depth 1 and each step calls the next with
    [depth + 1], so the callee's answers for other depths do not matter. *)
Lemma terminal_scores (callee : search_fn) (fuel gas : nat)
    (board : board_t) (self other : ascii) (depth alpha beta : Z) :
  wf_board board -> size board < Z.of_nat gas ->
  player self -> player other -> 0 <= depth <= 255 ->
  (has_line board self ->
   maximise (S fuel) gas board self other depth alpha beta
   = Done (SCORE_WIN - depth, board)) /\
  (has_line board other ->
   minimise (S fuel) gas board self other depth alpha beta
   = Done (SCORE_LOSE + depth, board)) /\
  (size board <= 15 -> size board * size board < Z.of_nat gas ->
   ~ has_line board NOUGHT -> ~ has_line board CROSS ->
   no_empty_cell board ->
   maximise (S fuel) gas board self other depth alpha beta
   = Done (SCORE_DRAW, board) /\
   minimise (S fuel) gas board self other depth alpha beta
   = Done (SCORE_DRAW, board)) /\
  getBestMove_body callee gas board self
  = getBestMove_body (fun b s o _ a be => callee b s o 1 a be)
      gas board self /\
  minimise_body callee gas board self other depth alpha beta
  = minimise_body (fun b s o _ a be => callee b s o (to_uint8 (depth + 1)) a be)
      gas board self other depth alpha beta /\
  maximise_body callee gas board self other depth alpha beta
  = maximise_body (fun b s o _ a be => callee b s o (to_uint8 (depth + 1)) a be)
      gas board self other depth alpha beta.
Proof.
  intros Hwf Hgas Hs Ho Hd.
  split; [|split; [|split; [|split; [|split]]]]; try reflexivity.
  - intros Hl. apply (has_line_isWin gas) in Hl; [|assumption..].
    simpl. unfold maximise_body. rewrite Hl. simpl.
    rewrite to_int8_small; [reflexivity | unfold SCORE_WIN, INT8_MAX; lia].
  - intros Hl. apply (has_line_isWin gas) in Hl; [|assumption..].
    simpl. unfold minimise_body. rewrite Hl. simpl.
    rewrite to_int8_small; [reflexivity | unfold SCORE_LOSE, INT8_MIN; lia].
  - intros H15 Hgas2 Hn Hc Hfull.
    assert (Hdraw : isDraw gas board = Done true)
      by (apply drawn_isDraw; assumption).
    simpl. unfold maximise_body, minimise_body.
    rewrite (isDraw_true_player gas board self Hs Hdraw),
            (isDraw_true_player gas board other Ho Hdraw), Hdraw.
    split; reflexivity.
Qed.

(** Nought, the searching side, has won on [board_won], and the minimise
    step still tries the opponent's moves on it: its answer is the answer
    of the step it calls for them. *)
Example minimise_expands_won_position :
  isWin 10 board_won NOUGHT = Done true /\
  minimise_body (fun b _ _ _ _ _ => Done (1, b)) 10
    board_won NOUGHT CROSS 1 SCORE_LOSE SCORE_WIN = Done (1, board_won) /\
  minimise_body (fun b _ _ _ _ _ => Done (2, b)) 10
    board_won NOUGHT CROSS 1 SCORE_LOSE SCORE_WIN = Done (2, board_won).
Proof. repeat split; vm_compute; reflexivity. Qed.

(** What the two steps do test before a move is tried.  On a position won
    by the opponent or drawn, the minimise step returns its score whatever
    the step it would call for a move does, so no move is tried, and so
    does the maximise step on a position won by symbolSelf or drawn. *)
Lemma checked_positions_not_expanded (gas : nat) (board : board_t)
    (self other : ascii) (depth alpha beta : Z) :
  wf_board board -> size board < Z.of_nat gas ->
  player self -> player other ->
  (has_line board other \/
   (size board <= 15 /\ size board * size board < Z.of_nat gas /\
    ~ has_line board NOUGHT /\ ~ has_line board CROSS /\
    no_empty_cell board) ->
   exists score, forall callee : search_fn,
     minimise_body callee gas board self other depth alpha beta
     = Done (score, board)) /\
  (has_line board self \/
   (size board <= 15 /\ size board * size board < Z.of_nat gas /\
    ~ has_line board NOUGHT /\ ~ has_line board CROSS /\
    no_empty_cell board) ->
   exists score, forall callee : search_fn,
     maximise_body callee gas board self other depth alpha beta
     = Done (score, board)).
Proof.
  intros Hwf Hgas Hs Ho.
  split; (intros [Hl | (H15 & Hgas2 & Hn & Hc & Hfull)];
          [apply (has_line_isWin gas) in Hl; [|assumption..]
          |assert (Hd : isDraw gas board = Done true)
             by (apply drawn_isDraw; assumption)]).
  - eexists. intros callee. unfold minimise_body. rewrite Hl. reflexivity.
  - eexists. intros callee. unfold minimise_body.
    rewrite (isDraw_true_player gas board other Ho Hd), Hd. reflexivity.
  - eexists. intros callee. unfold maximise_body. rewrite Hl. reflexivity.
  - eexists. intros callee. unfold maximise_body.
    rewrite (isDraw_true_player gas board self Hs Hd), Hd. reflexivity.
Qed.

(** ** C2, C10: a win made with the last empty cell *)

(** C2.  On [board_slow] the exhaustive minimax of the specification
    chooses cell 2, the immediate win (score 126 against 124 for cell 4),
    and [getBestMove] returns cell 4: the win that cell 4 leads to is made
    with the last empty cell, no step scores it, and the bound 127 comes
    back in its place, above the 125 that the code gives cell 2. *)
Theorem getBestMove_differs_from_minimax (fuel gas : nat) :
  spec_getBestMove board_slow NOUGHT = Some 2 /\
  getBestMove (3 + fuel) (10 + gas) board_slow NOUGHT = Done (4, board_slow) /\
  minimise (3 + fuel) (10 + gas) (place board_slow 2 NOUGHT)
    NOUGHT CROSS 1 SCORE_LOSE SCORE_WIN
  = Done (125, place board_slow 2 NOUGHT) /\
  minimise (3 + fuel) (10 + gas) (place board_slow 4 NOUGHT)
    NOUGHT CROSS 1 125 SCORE_WIN
  = Done (127, place board_slow 4 NOUGHT).
Proof.
  split; [vm_compute; reflexivity|].
  split; [|split].
  - apply (le_out_eq (getBestMove 3 10 board_slow NOUGHT));
      [apply getBestMove_budget; lia | vm_compute; discriminate].
  - apply (le_out_eq (minimise 3 10 (place board_slow 2 NOUGHT)
                        NOUGHT CROSS 1 SCORE_LOSE SCORE_WIN));
      [apply search_budget; lia | vm_compute; discriminate].
  - apply (le_out_eq (minimise 3 10 (place board_slow 4 NOUGHT)
                        NOUGHT CROSS 1 125 SCORE_WIN));
      [apply search_budget; lia | vm_compute; discriminate].
Qed.

(** C10.  [board_lost] has two empty cells and Cross is to move; both
    candidate moves are scored [SCORE_LOSE] itself, alpha never moves, and
    [getBestMove] stops at its assertion, whatever the budget from 2 and 10
    on. *)
Theorem getBestMove_assertion_fails (fuel gas : nat) :
  holds board_lost 2 EMPTY /\ holds board_lost 6 EMPTY /\
  minimise (2 + fuel) (10 + gas) (place board_lost 2 CROSS)
    CROSS NOUGHT 1 SCORE_LOSE SCORE_WIN
  = Done (SCORE_LOSE, place board_lost 2 CROSS) /\
  minimise (2 + fuel) (10 + gas) (place board_lost 6 CROSS)
    CROSS NOUGHT 1 SCORE_LOSE SCORE_WIN
  = Done (SCORE_LOSE, place board_lost 6 CROSS) /\
  getBestMove (2 + fuel) (10 + gas) board_lost CROSS = AssertFailed.
Proof.
  split; [split; [lia | reflexivity]|].
  split; [split; [lia | reflexivity]|].
  split; [|split].
  - apply (le_out_eq (minimise 2 10 (place board_lost 2 CROSS)
                        CROSS NOUGHT 1 SCORE_LOSE SCORE_WIN));
      [apply search_budget; lia | vm_compute; discriminate].
  - apply (le_out_eq (minimise 2 10 (place board_lost 6 CROSS)
                        CROSS NOUGHT 1 SCORE_LOSE SCORE_WIN));
      [apply search_budget; lia | vm_compute; discriminate].
  - apply (le_out_eq (getBestMove 2 10 board_lost CROSS));
      [apply getBestMove_budget; lia | vm_compute; discriminate].
Qed.

(* ================================================================== *)
(** * Further properties of the code *)

(** ** board.c: reading and writing cells *)

Lemma isValidMove_EMPTY (board : board_t) (cell : Z) :
  isValidMove board cell EMPTY
  = Done ((0 <=? cell) && (cell <? size board * size board)).
Proof.
  unfold isValidMove.
  destruct ((0 <=? cell) && (cell <? size board * size board)); reflexivity.
Qed.

(** X1.  After a [setCell] that returned, [getCell] reads the symbol back
    from the cell, and every other cell reads as before. *)
Theorem setCell_getCell (board board' : board_t) (cell : Z) (symbol : ascii) :
  setCell board cell symbol = Done board' ->
  getCell board' cell = Done symbol /\
  forall k, k <> cell -> getCell board' k = getCell board k.
Proof.
  intros H. pose proof (setCell_Done _ _ _ _ H) as (_ & Hv & Hk & ->).
  apply isValidMove_true in Hv as [Hr _].
  unfold getCell. rewrite !isValidMove_EMPTY. simpl. split.
  - destruct (Z.leb_spec 0 cell); [|lia].
    destruct (Z.ltb_spec cell (size board * size board)); [|lia]. simpl.
    unfold load. simpl. destruct (Z.ltb_spec cell 0); [lia|].
    rewrite list_lookup_insert_eq by lia. reflexivity.
  - intros k Hne. rewrite !isValidMove_EMPTY. simpl.
    destruct ((0 <=? k) && (k <? size board * size board)) eqn:Hin;
      [|reflexivity].
    simpl. apply andb_prop in Hin as [H0 _]. apply Z.leb_le in H0.
    unfold load. simpl. destruct (Z.ltb_spec k 0); [lia|].
    rewrite list_lookup_insert_ne by lia. reflexivity.
Qed.

Lemma setCell_getCell_witness :
  setCell board_won 5 NOUGHT = Done (place board_won 5 NOUGHT) /\
  getCell (place board_won 5 NOUGHT) 5 = Done NOUGHT.
Proof.
  assert (H : setCell board_won 5 NOUGHT = Done (place board_won 5 NOUGHT))
    by reflexivity.
  split; [exact H|].
  exact (proj1 (setCell_getCell board_won (place board_won 5 NOUGHT) 5 NOUGHT H)).
Defined.

(** X2.  On a board of [size * size] cells [setCell] writes the cell when
    the symbol is one of the three and the move is valid, and fails an
    assertion in every other case: it never overwrites an occupied cell
    with a player's symbol and never accesses memory outside the block. *)
Theorem setCell_outcome (board : board_t) (cell : Z) (symbol : ascii) :
  wf_board board ->
  ((symbol = NOUGHT \/ symbol = CROSS \/ symbol = EMPTY) /\
   0 <= cell < size board * size board /\
   (symbol = EMPTY \/ holds board cell EMPTY) ->
   setCell board cell symbol = Done (place board cell symbol)) /\
  (~ ((symbol = NOUGHT \/ symbol = CROSS \/ symbol = EMPTY) /\
      0 <= cell < size board * size board /\
      (symbol = EMPTY \/ holds board cell EMPTY)) ->
   setCell board cell symbol = AssertFailed).
Proof.
  intros Hwf. pose proof Hwf as [Hs Hlen].
  destruct (isValidMove_total board cell symbol Hwf) as [v [Hv Hiff]].
  unfold setCell.
  destruct (Ascii.eqb symbol NOUGHT || Ascii.eqb symbol CROSS
            || Ascii.eqb symbol EMPTY) eqn:Hsym; simpl.
  - rewrite Hv. simpl. destruct v; simpl.
    + split; [|intros Hnot; elim Hnot].
      * intros (_ & Hr & _). apply store_in_block. lia.
      * destruct Hiff as [Hiff _]. specialize (Hiff eq_refl).
        split; [|exact Hiff].
        apply orb_prop in Hsym as [Hsym|Hsym];
          [apply orb_prop in Hsym as [Hsym|Hsym]|];
          apply Ascii.eqb_eq in Hsym; auto.
    + split; [|reflexivity].
      intros (_ & Hr & Hc). destruct Hiff as [_ Hiff].
      discriminate (Hiff (conj Hr Hc)).
  - split; [|reflexivity].
    intros ([-> | [-> | ->]] & _); discriminate.
Qed.

Lemma setCell_outcome_witness :
  wf_board board_won /\
  ~ ((CROSS = NOUGHT \/ CROSS = CROSS \/ CROSS = EMPTY) /\
     0 <= 0 < size board_won * size board_won /\
     (CROSS = EMPTY \/ holds board_won 0 EMPTY)) /\
  setCell board_won 0 CROSS = AssertFailed.
Proof.
  assert (Hwf : wf_board board_won) by (repeat split; simpl; lia).
  assert (Hnot : ~ ((CROSS = NOUGHT \/ CROSS = CROSS \/ CROSS = EMPTY) /\
                    0 <= 0 < size board_won * size board_won /\
                    (CROSS = EMPTY \/ holds board_won 0 EMPTY))).
  { intros (_ & _ & [H | [_ H]]); discriminate. }
  split; [exact Hwf|]. split; [exact Hnot|].
  exact (proj2 (setCell_outcome board_won 0 CROSS Hwf) Hnot).
Defined.

(** X3.  On a board of [size * size] cells [getCell] returns the symbol
    of an in-range cell, and fails its assertion for every other index. *)
Theorem getCell_outcome (board : board_t) (cell : Z) :
  wf_board board ->
  (0 <= cell < size board * size board ->
   exists c, getCell board cell = Done c /\ holds board cell c) /\
  (~ 0 <= cell < size board * size board ->
   getCell board cell = AssertFailed).
Proof.
  intros [Hs Hlen]. unfold getCell. rewrite isValidMove_EMPTY. simpl. split.
  - intros Hr. destruct (Z.leb_spec 0 cell); [|lia].
    destruct (Z.ltb_spec cell (size board * size board)); [|lia]. simpl.
    destruct (load_in_block board cell ltac:(lia)) as [c Hc].
    exists c. split; [exact Hc | apply load_Done; exact Hc].
  - intros Hr.
    destruct (Z.leb_spec 0 cell);
      destruct (Z.ltb_spec cell (size board * size board));
      try reflexivity. lia.
Qed.

Lemma getCell_outcome_witness :
  wf_board board_won /\ ~ 0 <= 9 < size board_won * size board_won /\
  getCell board_won 9 = AssertFailed.
Proof.
  assert (Hwf : wf_board board_won) by (repeat split; simpl; lia).
  assert (Hr : ~ 0 <= 9 < size board_won * size board_won) by (simpl; lia).
  split; [exact Hwf|]. split; [exact Hr|].
  exact (proj2 (getCell_outcome board_won 9 Hwf) Hr).
Defined.



(** ** board.c: a new game *)

Lemma all_empty_cells (board : board_t) :
  (forall k, 0 <= k < Z.of_nat (length (cells board)) -> holds board k EMPTY) ->
  cells board = replicate (length (cells board)) EMPTY.
Proof.
  intros H. apply list_eq. intros i.
  destruct (Nat.lt_ge_cases i (length (cells board))) as [Hlt|Hge].
  - destruct (H (Z.of_nat i) ltac:(lia)) as [_ Hi].
    rewrite Nat2Z.id in Hi. rewrite Hi. symmetry.
    apply lookup_replicate_2. exact Hlt.
  - rewrite (lookup_ge_None_2 _ _ Hge). symmetry.
    apply lookup_ge_None_2. rewrite length_replicate. exact Hge.
Qed.

(** X5.  On a board of at most 15 x 15 cells [resetBoard] returns, keeps
    the size and leaves [EMPTY] in every cell, whatever the cells held. *)
Theorem resetBoard_clears (gas : nat) (board : board_t) :
  small_board board -> size board * size board < Z.of_nat gas ->
  resetBoard gas board
  = Done (mkBoard (size board) (replicate (length (cells board)) EMPTY)).
Proof.
  intros [Hwf H15] Hgas. pose proof Hwf as [Hs Hlen].
  destruct (resetBoard_spec gas board Hwf H15 Hgas)
    as (b' & -> & Hsz & Hl & Hall).
  f_equal. destruct b' as [sz cs]. simpl in *. subst sz. f_equal.
  rewrite <- Hl. apply (all_empty_cells (mkBoard (size board) cs)). simpl.
  intros k Hk. apply Hall. lia.
Qed.

Lemma resetBoard_clears_witness :
  small_board board_won /\ size board_won * size board_won < Z.of_nat 10 /\
  resetBoard 10 board_won = Done (mkBoard 3 (replicate 9 EMPTY)).
Proof.
  assert (Hs : small_board board_won) by (repeat split; simpl; lia).
  assert (Hg : size board_won * size board_won < Z.of_nat 10) by (simpl; lia).
  split; [exact Hs|]. split; [exact Hg|].
  exact (resetBoard_clears 10 board_won Hs Hg).
Defined.

(** X6.  A cleared board of size 1 to 15 is a fresh game: every cell is a
    valid move for every symbol, neither player has won and it is not a
    draw.  [isWin] does answer true on it for [EMPTY] itself, whose "line"
    every empty row is. *)
Theorem cleared_board_is_fresh (gas : nat) (n : Z) :
  1 <= n <= 15 -> n * n < Z.of_nat gas ->
  let board := mkBoard n (replicate (Z.to_nat (n * n)) EMPTY) in
  (forall cell symbol, 0 <= cell < n * n ->
     isValidMove board cell symbol = Done true) /\
  isWin gas board NOUGHT = Done false /\
  isWin gas board CROSS = Done false /\
  isDraw gas board = Done false /\
  isWin gas board EMPTY = Done true.
Proof.
  intros Hn Hgas board.
  assert (Hsz : size board = n) by reflexivity.
  assert (Hwf : wf_board board)
    by (split; simpl; [lia | rewrite length_replicate; lia]).
  assert (Hall : forall k, 0 <= k < n * n -> holds board k EMPTY).
  { intros k Hk. split; [lia|]. simpl. apply lookup_replicate_2. lia. }
  assert (Hnone : forall symbol, symbol <> EMPTY -> ~ has_line board symbol).
  { intros symbol Hne Hl. apply Hne.
    assert (Hcell : exists k, 0 <= k < n * n /\ holds board k symbol).
    { destruct Hl as [(r & Hr & Hl) | [(c & Hc & Hl) | [Hl | Hl]]];
        rewrite ?Hsz in *; specialize (Hl 0 ltac:(lia)); eexists;
        (split; [|exact Hl]); nia. }
    destruct Hcell as (k & Hk & Hh).
    eapply holds_fun; [exact Hh | apply Hall; exact Hk]. }
  assert (Hlose : forall symbol, symbol <> EMPTY ->
                    isWin gas board symbol = Done false).
  { intros symbol Hne.
    destruct (isWin_spec gas board symbol Hwf ltac:(rewrite Hsz; nia))
      as [v [-> Hiff]].
    destruct v; [|reflexivity]. elim (Hnone symbol Hne). apply Hiff.
    reflexivity. }
  split; [|split; [|split; [|split]]].
  - intros cell symbol Hc.
    destruct (isValidMove_total board cell symbol Hwf) as [v [-> Hiff]].
    f_equal. apply Hiff. split; [exact Hc | right; apply Hall; exact Hc].
  - apply Hlose. discriminate.
  - apply Hlose. discriminate.
  - destruct (isDraw_spec gas board Hwf ltac:(rewrite Hsz; lia)
                ltac:(rewrite Hsz; exact Hgas))
      as [v [-> Hiff]].
    destruct v; [|reflexivity].
    destruct Hiff as [Hiff _]. destruct (Hiff eq_refl) as (_ & _ & Hfull).
    elim (Hfull 0). apply Hall. nia.
  - apply has_line_isWin; [exact Hwf | rewrite Hsz; nia|].
    right. right. left. intros i Hi. rewrite Hsz in *. apply Hall. nia.
Qed.

Lemma cleared_board_is_fresh_witness :
  1 <= 3 <= 15 /\ 3 * 3 < Z.of_nat 10 /\
  isDraw 10 (mkBoard 3 (replicate (Z.to_nat (3 * 3)) EMPTY)) = Done false.
Proof.
  assert (Hn : 1 <= 3 <= 15) by lia.
  assert (Hg : 3 * 3 < Z.of_nat 10) by (simpl; lia).
  split; [exact Hn|]. split; [exact Hg|].
  exact (proj1 (proj2 (proj2 (proj2 (cleared_board_is_fresh 10 3 Hn Hg))))).
Defined.

(** ** board.c: a completed line stays *)

Lemma has_line_mono (board board' : board_t) (symbol : ascii) :
  size board' = size board ->
  (forall k, holds board k symbol -> holds board' k symbol) ->
  has_line board symbol -> has_line board' symbol.
Proof.
  intros Hsz Hk. unfold has_line, full_row, full_col, full_forward_diag,
    full_backward_diag. rewrite Hsz.
  intros [(r & Hr & Hl) | [(c & Hc & Hl) | [Hl | Hl]]].
  - left. exists r. split; [exact Hr|]. intros i Hi. apply Hk, Hl, Hi.
  - right. left. exists c. split; [exact Hc|]. intros i Hi. apply Hk, Hl, Hi.
  - right. right. left. intros i Hi. apply Hk, Hl, Hi.
  - right. right. right. intros i Hi. apply Hk, Hl, Hi.
Qed.

(** X7.  A win is never undone by a later move: when [isWin] is true for
    a player's symbol, it is still true after any [setCell] of a symbol
    other than [EMPTY] that returns. *)
Theorem win_survives_moves (gas : nat) (board board' : board_t) (cell : Z)
    (symbol winner : ascii) :
  wf_board board -> size board < Z.of_nat gas ->
  winner <> EMPTY -> symbol <> EMPTY ->
  isWin gas board winner = Done true ->
  setCell board cell symbol = Done board' ->
  isWin gas board' winner = Done true.
Proof.
  intros Hwf Hgas Hw Hs Hwin Hset. pose proof Hwf as [Hs0 Hlen].
  pose proof (setCell_Done _ _ _ _ Hset) as (_ & Hv & Hk & ->).
  apply isValidMove_true in Hv as [Hr [He | Hempty]]; [contradiction|].
  destruct (isWin_spec gas board winner Hwf Hgas) as [v [Hv Hiff]].
  rewrite Hv in Hwin. injection Hwin as ->.
  apply has_line_isWin.
  - split; simpl; [exact Hs0 | rewrite length_insert; exact Hlen].
  - exact Hgas.
  - apply (has_line_mono board); [reflexivity | | apply Hiff; reflexivity].
    intros k [Hk0 Hh]. split; [exact Hk0|]. simpl.
    destruct (Z.eq_dec k cell) as [-> | Hne].
    + destruct Hempty as [_ He]. congruence.
    + rewrite list_lookup_insert_ne by lia. exact Hh.
Qed.

Lemma win_survives_moves_witness :
  wf_board board_won /\ size board_won < Z.of_nat 10 /\
  NOUGHT <> EMPTY /\ CROSS <> EMPTY /\
  isWin 10 board_won NOUGHT = Done true /\
  setCell board_won 5 CROSS = Done (place board_won 5 CROSS) /\
  isWin 10 (place board_won 5 CROSS) NOUGHT = Done true.
Proof.
  assert (Hwf : wf_board board_won) by (repeat split; simpl; lia).
  assert (Hg : size board_won < Z.of_nat 10) by (simpl; lia).
  assert (Hw : NOUGHT <> EMPTY) by discriminate.
  assert (Hs : CROSS <> EMPTY) by discriminate.
  assert (Hwin : isWin 10 board_won NOUGHT = Done true)
    by (vm_compute; reflexivity).
  assert (Hset : setCell board_won 5 CROSS = Done (place board_won 5 CROSS))
    by reflexivity.
  split; [exact Hwf|]. split; [exact Hg|]. split; [exact Hw|].
  split; [exact Hs|]. split; [exact Hwin|]. split; [exact Hset|].
  exact (win_survives_moves 10 board_won (place board_won 5 CROSS) 5
           CROSS NOUGHT Hwf Hg Hw Hs Hwin Hset).
Defined.

(** ** board.c: the sizes [initBoard] can make *)



(** ** minimax.c: scores and bounds *)

Lemma min_max_Z (a b : Z) : min a b = Z.min a b /\ max a b = Z.max a b.
Proof.
  unfold min, max. split.
  - destruct (Z.ltb_spec a b); lia.
  - rewrite Z.gtb_ltb. destruct (Z.ltb_spec b a); lia.
Qed.

(** X9.  [min] returns the smaller and [max] the larger of its two
    arguments. *)
Theorem min_max_spec (a b : Z) :
  min a b = Z.min a b /\ max a b = Z.max a b.
Proof. exact (min_max_Z a b). Qed.

Lemma to_int8_range (z : Z) : -128 <= to_int8 z <= 127.
Proof.
  unfold to_int8. pose proof (Z.mod_pos_bound (z + 128) 256 ltac:(lia)). lia.
Qed.

(** The candidate move of a loop, when it came to its end: the answer of
    the called step and the board after the unmove. *)
Lemma try_move_Done (callee : search_fn) (self other mover : ascii)
    (board : board_t) (cell depth alpha beta : Z) {A : Type}
    (k : Z -> board_t -> outcome A) (a : A) :
  (board1 <-- setCell board cell mover ;;
   r <-- callee board1 self other depth alpha beta ;;
   let '(score, board2) := r in
   board3 <-- setCell board2 cell EMPTY ;;
   k score board3) = Done a ->
  exists board1 score board2 board3,
    callee board1 self other depth alpha beta = Done (score, board2) /\
    k score board3 = Done a.
Proof.
  intros H.
  apply bind_Done in H as [b1 [_ H]].
  apply bind_Done in H as [[score b2] [H2 H]].
  apply bind_Done in H as [b3 [_ H]]. eauto 8.
Qed.

(** X10.  Fail-hard pruning: on a position that the step does not score as
    terminal, and for [alpha <= beta], the answer of the minimise step and
    of the maximise step lies between alpha and beta, whatever the step
    called for the moves answers. *)
Theorem answers_within_window (callee : search_fn) (gas : nat)
    (board board' : board_t) (self other : ascii)
    (depth alpha beta score : Z) :
  alpha <= beta ->
  (isWin gas board other = Done false -> isDraw gas board = Done false ->
   minimise_body callee gas board self other depth alpha beta
   = Done (score, board') ->
   alpha <= score <= beta) /\
  (isWin gas board self = Done false -> isDraw gas board = Done false ->
   maximise_body callee gas board self other depth alpha beta
   = Done (score, board') ->
   alpha <= score <= beta).
Proof.
  intros Hab. split; intros Hw Hd H.
  - unfold minimise_body in H. rewrite Hw in H. simpl in H.
    rewrite Hd in H. simpl in H.
    destruct (for_uint8 _ _ _ _ _) as [x| | |] eqn:Hloop; try discriminate.
    apply (for_uint8_inv (fun st : board_t * Z => alpha <= snd st <= beta)
             (fun r : Z * board_t => alpha <= fst r <= beta)) in Hloop.
    + destruct x as [[b be]|[sc b]]; simpl in *; injection H as <- _;
        exact Hloop.
    + intros j [b be] y Hbe Hy. simpl in Hbe.
      apply bind_Done in Hy as [v [_ Hy]].
      destruct v; [|injection Hy as <-; exact Hbe].
      apply try_move_Done in Hy as (b1 & sc & b2 & b3 & _ & Hy).
      pose proof (proj1 (min_max_Z be sc)) as Hm.
      destruct (Z.leb_spec (min be sc) alpha); injection Hy as <-; simpl; lia.
    + simpl. lia.
  - unfold maximise_body in H. rewrite Hw in H. simpl in H.
    rewrite Hd in H. simpl in H.
    destruct (for_uint8 _ _ _ _ _) as [x| | |] eqn:Hloop; try discriminate.
    apply (for_uint8_inv (fun st : board_t * Z => alpha <= snd st <= beta)
             (fun r : Z * board_t => alpha <= fst r <= beta)) in Hloop.
    + destruct x as [[b al]|[sc b]]; simpl in *; injection H as <- _;
        exact Hloop.
    + intros j [b al] y Hal Hy. simpl in Hal.
      apply bind_Done in Hy as [v [_ Hy]].
      destruct v; [|injection Hy as <-; exact Hal].
      apply try_move_Done in Hy as (b1 & sc & b2 & b3 & _ & Hy).
      pose proof (proj2 (min_max_Z al sc)) as Hm.
      rewrite Z.geb_leb in Hy.
      destruct (Z.leb_spec beta (max al sc)); injection Hy as <-; simpl; lia.
    + simpl. lia.
Qed.

Lemma answers_within_window_witness :
  SCORE_LOSE <= SCORE_WIN /\
  isWin 10 board_won CROSS = Done false /\
  isDraw 10 board_won = Done false /\
  minimise_body (maximise 9 10) 10 board_won NOUGHT CROSS 1
    SCORE_LOSE SCORE_WIN = Done (125, board_won) /\
  SCORE_LOSE <= 125 <= SCORE_WIN.
Proof.
  assert (Hab : SCORE_LOSE <= SCORE_WIN) by (vm_compute; discriminate).
  assert (Hw : isWin 10 board_won CROSS = Done false)
    by (vm_compute; reflexivity).
  assert (Hd : isDraw 10 board_won = Done false) by (vm_compute; reflexivity).
  assert (H : minimise_body (maximise 9 10) 10 board_won NOUGHT CROSS 1
                SCORE_LOSE SCORE_WIN = Done (125, board_won))
    by (vm_compute; reflexivity).
  split; [exact Hab|]. split; [exact Hw|]. split; [exact Hd|].
  split; [exact H|].
  exact (proj1 (answers_within_window (maximise 9 10) 10 board_won board_won
                  NOUGHT CROSS 1 SCORE_LOSE SCORE_WIN 125 Hab) Hw Hd H).
Defined.

Lemma minimise_body_fits (callee : search_fn) (gas : nat) :
  fits_int8 callee -> fits_int8 (minimise_body callee gas).
Proof.
  intros Hc board self other depth alpha beta score board' Ha Hb H.
  unfold minimise_body in H.
  apply bind_Done in H as [w [_ H]].
  destruct w; [injection H as <- _; apply to_int8_range|].
  apply bind_Done in H as [d [_ H]].
  destruct d; [injection H as <- _; apply to_int8_range|].
  destruct (for_uint8 _ _ _ _ _) as [x| | |] eqn:Hloop; try discriminate.
  apply (for_uint8_inv (fun st : board_t * Z => -128 <= snd st <= 127)
           (fun r : Z * board_t => -128 <= fst r <= 127)) in Hloop.
  - destruct x as [[b be]|[sc b]]; simpl in *; injection H as <- _;
      exact Hloop.
  - intros j [b be] y Hbe Hy. simpl in Hbe.
    apply bind_Done in Hy as [v [_ Hy]].
    destruct v; [|injection Hy as <-; exact Hbe].
    apply try_move_Done in Hy as (b1 & sc & b2 & b3 & Hsc & Hy).
    apply Hc in Hsc; [|assumption..].
    pose proof (proj1 (min_max_Z be sc)) as Hm.
    destruct (min be sc <=? alpha); injection Hy as <-; simpl; lia.
  - exact Hb.
Qed.

Lemma maximise_body_fits (callee : search_fn) (gas : nat) :
  fits_int8 callee -> fits_int8 (maximise_body callee gas).
Proof.
  intros Hc board self other depth alpha beta score board' Ha Hb H.
  unfold maximise_body in H.
  apply bind_Done in H as [w [_ H]].
  destruct w; [injection H as <- _; apply to_int8_range|].
  apply bind_Done in H as [d [_ H]].
  destruct d; [injection H as <- _; apply to_int8_range|].
  destruct (for_uint8 _ _ _ _ _) as [x| | |] eqn:Hloop; try discriminate.
  apply (for_uint8_inv (fun st : board_t * Z => -128 <= snd st <= 127)
           (fun r : Z * board_t => -128 <= fst r <= 127)) in Hloop.
  - destruct x as [[b al]|[sc b]]; simpl in *; injection H as <- _;
      exact Hloop.
  - intros j [b al] y Hal Hy. simpl in Hal.
    apply bind_Done in Hy as [v [_ Hy]].
    destruct v; [|injection Hy as <-; exact Hal].
    apply try_move_Done in Hy as (b1 & sc & b2 & b3 & Hsc & Hy).
    apply Hc in Hsc; [|assumption..].
    pose proof (proj2 (min_max_Z al sc)) as Hm.
    destruct (max al sc >=? beta); injection Hy as <-; simpl; lia.
  - exact Ha.
Qed.

Lemma search_fits (gas fuel : nat) :
  fits_int8 (minimise fuel gas) /\ fits_int8 (maximise fuel gas).
Proof.
  induction fuel as [|f [IHmin IHmax]].
  - split; intros board self other depth alpha beta score board' _ _ H;
      discriminate.
  - split; simpl.
    + apply minimise_body_fits. exact IHmax.
    + apply maximise_body_fits. exact IHmin.
Qed.

Lemma no_empty_cell_check (board : board_t) :
  forallb (fun c => negb (Ascii.eqb c EMPTY)) (cells board) = true ->
  no_empty_cell board.
Proof.
  intros H k [_ Hk]. rewrite forallb_forall in H.
  apply list_elem_of_lookup_2, list_elem_of_In, H in Hk. discriminate.
Qed.

(** ** minimax.c: what [getBestMove] returns *)

(** X12.  Whenever [getBestMove] returns, for a player's symbol, the cell
    it returns is a valid move on the board: in range and empty. *)
Theorem getBestMove_returns_valid_move (fuel gas : nat)
    (board board' : board_t) (symbolSelf : ascii) (cell : Z) :
  player symbolSelf ->
  getBestMove fuel gas board symbolSelf = Done (cell, board') ->
  isValidMove board cell symbolSelf = Done true /\
  0 <= cell < size board * size board /\ holds board cell EMPTY.
Proof.
  intros Hp H.
  assert (Hv : isValidMove board cell symbolSelf = Done true).
  { unfold getBestMove, getBestMove_body in H.
    set (other := if Ascii.eqb symbolSelf NOUGHT then CROSS else NOUGHT) in *.
    assert (Hs : symbolSelf <> EMPTY) by (apply player_not_EMPTY; exact Hp).
    assert (Ho : other <> EMPTY) by (apply player_not_EMPTY, other_player).
    destruct (for_uint8 _ _ _ _ _) as [x| | |] eqn:Hloop; try discriminate.
    apply (for_uint8_inv
             (fun st : board_t * Z * option Z =>
                fst (fst st) = board /\
                forall c, snd st = Some c ->
                  isValidMove board c symbolSelf = Done true)
             (fun _ : Z * board_t => False)) in Hloop.
    - destruct x as [[[b al] bm]|r]; simpl in *; [|contradiction].
      apply bind_Done in H as [_ [_ H]].
      destruct bm as [c|]; [|discriminate]. injection H as <- _.
      apply Hloop. reflexivity.
    - intros j [[b al] bm] y [Hb Hbm] Hy. simpl in Hb, Hbm. subst b.
      apply bind_Done in Hy as [v [Hvj Hy]].
      destruct v; [|injection Hy as <-; split; [reflexivity | exact Hbm]].
      apply (try_move_frame (minimise fuel gas)) in Hy as [sc Hy];
        [| apply search_frame; assumption | assumption].
      destruct (sc >? al); injection Hy as <-;
        (split; [reflexivity|]); simpl; [|exact Hbm].
      intros c [= <-]. exact Hvj.
    - split; [reflexivity | intros c Hc; discriminate]. }
  split; [exact Hv|].
  destruct (isValidMove_true _ _ _ Hv) as [Hr [He|Hh]]; [|tauto].
  elim (player_not_EMPTY _ Hp He).
Qed.

Lemma getBestMove_returns_valid_move_witness :
  player NOUGHT /\
  getBestMove 3 10 board_slow NOUGHT = Done (4, board_slow) /\
  isValidMove board_slow 4 NOUGHT = Done true.
Proof.
  assert (Hp : player NOUGHT) by (left; reflexivity).
  assert (H : getBestMove 3 10 board_slow NOUGHT = Done (4, board_slow))
    by (vm_compute; reflexivity).
  split; [exact Hp|]. split; [exact H|].
  exact (proj1 (getBestMove_returns_valid_move 3 10 board_slow board_slow
                  NOUGHT 4 Hp H)).
Defined.

(** X13.  On a full board of at most 15 x 15 cells [getBestMove] finds no
    candidate and stops at its assertion, whatever the budget for the
    recursion. *)
Theorem getBestMove_full_board (fuel gas : nat) (board : board_t)
    (symbolSelf : ascii) :
  small_board board -> no_empty_cell board -> player symbolSelf ->
  size board * size board < Z.of_nat gas ->
  getBestMove fuel gas board symbolSelf = AssertFailed.
Proof.
  intros [Hwf H15] Hfull Hp Hgas. pose proof Hwf as [Hs Hlen].
  unfold getBestMove, getBestMove_body.
  rewrite for_uint8_idle;
    [reflexivity | unfold getSize; nia | unfold getSize; lia |].
  intros j Hj.
  rewrite (isValidMove_full board j symbolSelf Hwf Hfull
             (player_not_EMPTY _ Hp)).
  reflexivity.
Qed.

Lemma getBestMove_full_board_witness :
  small_board board_drawn /\ no_empty_cell board_drawn /\ player CROSS /\
  size board_drawn * size board_drawn < Z.of_nat 10 /\
  getBestMove 0 10 board_drawn CROSS = AssertFailed.
Proof.
  assert (Hs : small_board board_drawn) by (repeat split; simpl; lia).
  assert (Hf : no_empty_cell board_drawn)
    by (apply no_empty_cell_check; vm_compute; reflexivity).
  assert (Hp : player CROSS) by (right; reflexivity).
  assert (Hg : size board_drawn * size board_drawn < Z.of_nat 10)
    by (simpl; lia).
  split; [exact Hs|]. split; [exact Hf|]. split; [exact Hp|].
  split; [exact Hg|].
  exact (getBestMove_full_board 0 10 board_drawn CROSS Hs Hf Hp Hg).
Defined.

(** On a full board the minimise step called for a candidate move answers
    above [SCORE_LOSE]: a loss is [SCORE_LOSE + 1], a draw 0, and otherwise
    beta comes back. *)
Lemma minimise_after_last_move (fuel gas : nat) (board : board_t)
    (self other : ascii) :
  small_board board -> no_empty_cell board -> player other ->
  size board * size board < Z.of_nat gas -> (1 <= fuel)%nat ->
  exists score,
    minimise fuel gas board self other 1 (-128) 127 = Done (score, board) /\
    -128 < score.
Proof.
  intros Hsmall Hfull Ho Hgas Hfuel. pose proof Hsmall as [Hwf H15].
  pose proof Hwf as [Hs Hlen].
  destruct fuel as [|f]; [lia|]. simpl. unfold minimise_body.
  destruct (isWin_spec gas board other Hwf ltac:(nia)) as [w [-> _]]. simpl.
  destruct w; [eexists; split; [reflexivity | vm_compute; reflexivity]|].
  destruct (isDraw_spec gas board Hwf H15 Hgas) as [d [-> _]]. simpl.
  destruct d; [eexists; split; [reflexivity | vm_compute; reflexivity]|].
  rewrite for_uint8_idle; [| unfold getSize; nia | unfold getSize; lia |].
  - eexists. split; [reflexivity | lia].
  - intros j Hj.
    rewrite (isValidMove_full board j other Hwf Hfull (player_not_EMPTY _ Ho)).
    reflexivity.
Qed.

(** X14.  With exactly one empty cell on a board of at most 15 x 15 cells,
    [getBestMove] returns that cell, for either player. *)
Theorem getBestMove_last_cell (fuel gas : nat) (board : board_t)
    (symbolSelf : ascii) (cell : Z) :
  small_board board -> player symbolSelf ->
  size board * size board < Z.of_nat gas -> (1 <= fuel)%nat ->
  holds board cell EMPTY ->
  (forall k, holds board k EMPTY -> k = cell) ->
  getBestMove fuel gas board symbolSelf = Done (cell, board).
Proof.
  intros Hsmall Hp Hgas Hfuel Hc Honly. pose proof Hsmall as [Hwf H15].
  pose proof Hwf as [Hs Hlen].
  pose proof (holds_in_block _ _ _ Hc) as Hcr.
  pose proof (player_not_EMPTY _ Hp) as Hne.
  unfold getBestMove, getBestMove_body.
  set (other := if Ascii.eqb symbolSelf NOUGHT then CROSS else NOUGHT).
  assert (Ho : player other) by apply other_player.
  change (to_int8 SCORE_LOSE) with (-128).
  change (to_int8 SCORE_WIN) with 127.
  (* the board after the candidate move *)
  assert (Hvc : isValidMove board cell symbolSelf = Done true).
  { destruct (isValidMove_total board cell symbolSelf Hwf) as [v [-> Hiff]].
    f_equal. apply Hiff. split; [lia | right; exact Hc]. }
  destruct (setCell_move board cell symbolSelf Hwf Hp Hvc)
    as (b1 & H1 & Hwf1 & Hsz1 & _ & H2).
  assert (Hfull1 : no_empty_cell b1).
  { pose proof (setCell_Done _ _ _ _ H1) as (_ & _ & _ & ->).
    intros k [Hk0 Hk]. simpl in Hk.
    destruct (Z.eq_dec k cell) as [-> | Hkc].
    - rewrite list_lookup_insert_eq in Hk by lia. congruence.
    - rewrite list_lookup_insert_ne in Hk by lia.
      apply Hkc, Honly. split; assumption. }
  destruct (minimise_after_last_move fuel gas b1 symbolSelf other)
    as (r & Hmin & Hr); try assumption;
    [split; [exact Hwf1 | lia] | rewrite Hsz1; exact Hgas |].
  assert (Hother : forall j, j <> cell ->
            isValidMove board j symbolSelf = Done false).
  { intros j Hj.
    destruct (isValidMove_total board j symbolSelf Hwf) as [v [-> Hiff]].
    destruct v; [|reflexivity]. destruct Hiff as [Hiff _].
    destruct (Hiff eq_refl) as [_ [He | Hh]]; [contradiction|].
    elim Hj. apply Honly, Hh. }
  match goal with |- context [for_uint8 gas ?bd ?body 0 ?s0] =>
    destruct (for_uint8_spec
                (fun (j : Z) (st : board_t * Z * option Z) =>
                   (j <= cell /\ st = (board, -128, None)) \/
                   (cell < j /\ st = (board, r, Some cell)))
                (fun _ : Z * board_t => False)
                bd body ltac:(unfold getSize; nia))
      with (gas := gas) (i := 0) (s := s0) as [x [Hx Hpost]]
  end.
  - intros j st Hj [[Hle ->] | [Hlt ->]].
    + destruct (Z.eq_dec j cell) as [-> | Hjc].
      * rewrite Hvc. simpl. rewrite H1. simpl. rewrite Hmin. simpl.
        rewrite H2. simpl.
        destruct (Z.gtb_spec r (-128)) as [_|Hbad]; [|lia].
        eexists. split; [reflexivity|]. right. split; [lia | reflexivity].
      * rewrite (Hother j Hjc). simpl.
        eexists. split; [reflexivity|]. left. split; [lia | reflexivity].
    + rewrite (Hother j ltac:(lia)). simpl.
      eexists. split; [reflexivity|]. right. split; [lia | reflexivity].
  - unfold getSize. nia.
  - unfold getSize. lia.
  - left. split; [lia | reflexivity].
  - rewrite Hx. destruct x as [st|[]]; simpl in Hpost; [|contradiction].
    destruct Hpost as [[Hle _] | [_ ->]]; [unfold getSize in Hle; lia|].
    simpl. destruct (Z.eqb_spec r SCORE_LOSE) as [Heq|_];
      [unfold SCORE_LOSE, INT8_MIN in Heq; lia | reflexivity].
Qed.

Lemma getBestMove_last_cell_witness :
  small_board (place board_lost 2 CROSS) /\ player NOUGHT /\
  size (place board_lost 2 CROSS) * size (place board_lost 2 CROSS)
  < Z.of_nat 10 /\ (1 <= 1)%nat /\
  holds (place board_lost 2 CROSS) 6 EMPTY /\
  (forall k, holds (place board_lost 2 CROSS) k EMPTY -> k = 6) /\
  getBestMove 1 10 (place board_lost 2 CROSS) NOUGHT
  = Done (6, place board_lost 2 CROSS).
Proof.
  assert (Hs : small_board (place board_lost 2 CROSS))
    by (repeat split; simpl; lia).
  assert (Hp : player NOUGHT) by (left; reflexivity).
  assert (Hg : size (place board_lost 2 CROSS)
               * size (place board_lost 2 CROSS) < Z.of_nat 10)
    by (simpl; lia).
  assert (Hf : (1 <= 1)%nat) by lia.
  assert (Hc : holds (place board_lost 2 CROSS) 6 EMPTY)
    by (split; [lia | reflexivity]).
  assert (Honly : forall k, holds (place board_lost 2 CROSS) k EMPTY -> k = 6).
  { intros k Hk. pose proof (holds_in_block _ _ _ Hk) as Hr. simpl in Hr.
    destruct Hk as [_ Hk].
    assert (Hcase : k = 0 \/ k = 1 \/ k = 2 \/ k = 3 \/ k = 4 \/ k = 5 \/
                    k = 6 \/ k = 7 \/ k = 8) by lia.
    destruct Hcase as [-> | [-> | [-> | [-> | [-> | [-> | [-> | [-> | ->]]]]]]]];
      try reflexivity; discriminate Hk. }
  split; [exact Hs|]. split; [exact Hp|]. split; [exact Hg|].
  split; [exact Hf|]. split; [exact Hc|]. split; [exact Honly|].
  exact (getBestMove_last_cell 1 10 (place board_lost 2 CROSS) NOUGHT 6
           Hs Hp Hg Hf Hc Honly).
Defined.

(** ** minimax.c: the two steps return *)

(** X15.  On a board of at most 15 x 15 cells, for the two players' symbols
    and whatever the depth and the bounds, [minimise] and [maximise]
    return a score once the budget for the recursion exceeds the number of
    empty cells: no assertion fails, no access leaves the block, and the
    board comes back as it was given. *)
Theorem search_returns_and_restores (fuel gas : nat) (board : board_t)
    (self other : ascii) (depth alpha beta : Z) :
  small_board board -> player self -> player other ->
  size board * size board < Z.of_nat gas ->
  (count_empty (cells board) < fuel)%nat ->
  (exists score,
     minimise fuel gas board self other depth alpha beta
     = Done (score, board)) /\
  (exists score,
     maximise fuel gas board self other depth alpha beta
     = Done (score, board)).
Proof.
  intros Hsmall Hs Ho Hgas Hfuel.
  destruct (search_total gas self other (size board) Hs Ho Hgas fuel)
    as [Hmin Hmax].
  split; [apply Hmin | apply Hmax]; auto.
Qed.

Lemma search_returns_and_restores_witness :
  small_board board_slow /\ player NOUGHT /\ player CROSS /\
  size board_slow * size board_slow < Z.of_nat 10 /\
  (count_empty (cells board_slow) < 4)%nat /\
  exists score,
    maximise 4 10 board_slow NOUGHT CROSS 0 SCORE_LOSE SCORE_WIN
    = Done (score, board_slow).
Proof.
  assert (Hb : small_board board_slow) by (repeat split; simpl; lia).
  assert (Hs : player NOUGHT) by (left; reflexivity).
  assert (Ho : player CROSS) by (right; reflexivity).
  assert (Hg : size board_slow * size board_slow < Z.of_nat 10)
    by (simpl; lia).
  assert (Hf : (count_empty (cells board_slow) < 4)%nat) by (simpl; lia).
  split; [exact Hb|]. split; [exact Hs|]. split; [exact Ho|].
  split; [exact Hg|]. split; [exact Hf|].
  exact (proj2 (search_returns_and_restores 4 10 board_slow NOUGHT CROSS 0
                  SCORE_LOSE SCORE_WIN Hb Hs Ho Hg Hf)).
Defined.

(** ** main.c: the keys that [getInputLoop] lets through *)

Lemma isdigit_cell (input : ascii) :
  isdigit input = true ->
  0 <= char_to_int input - char_to_int "0"%char <= 9.
Proof.
  intros H. unfold isdigit in H. cbv zeta in H.
  apply andb_prop in H as [H1 H2].
  apply N.leb_le in H1. apply N.leb_le in H2.
  replace (char_to_int "0"%char) with 48 by reflexivity.
  unfold char_to_int. cbv zeta.
  destruct (Z.ltb_spec (Z.of_N (N_of_ascii input)) 128); lia.
Qed.

Lemma getInputLoop_Done (gas : nat) (term : terminal)
    (board : option board_t) (symbol : ascii) (isYesNo isNumber : bool)
    (io io' : io_t) (input : ascii) :
  getInputLoop gas term board symbol isYesNo isNumber io = Done (input, io') ->
  screen io' = screen io /\
  (input = KEY_QUIT \/
   (isYesNo = true /\ (input = KEY_YES \/ input = KEY_NO)) \/
   (isNumber = true /\ isdigit input = true /\
    exists b, board = Some b /\
      0 <= char_to_int input - char_to_int "0"%char <= 9 /\
      isValidMove b (char_to_int input - char_to_int "0"%char) symbol
      = Done true)).
Proof.
  revert io. induction gas as [|g IH]; intros io H; [discriminate|].
  simpl in H. destruct (size_ok term (sizes_read io)); simpl in H.
  2:{ injection H as <- <-. split; [reflexivity | left; reflexivity]. }
  apply bind_Done in H as [stop [Hstop H]].
  destruct stop.
  - injection H as <- <-. split; [reflexivity|].
    set (input := tolower (raw_key term (keys_read io))) in *.
    unfold input_accepted in Hstop.
    destruct (Ascii.eqb_spec input KEY_QUIT) as [Hq|_]; [left; exact Hq|].
    destruct isYesNo; simpl in Hstop.
    + destruct (Ascii.eqb_spec input KEY_YES) as [Hy|_];
        [right; left; auto|].
      destruct (Ascii.eqb_spec input KEY_NO) as [Hn|_];
        [right; left; auto|]. simpl in Hstop.
      destruct isNumber; [|discriminate]. simpl in Hstop.
      destruct (isdigit input) eqn:Hd; [|discriminate].
      destruct board as [b|]; [|discriminate].
      pose proof (isdigit_cell input Hd) as Hc.
      rewrite to_uint8_small in Hstop by lia.
      right. right. eauto 8.
    + destruct isNumber; [|discriminate]. simpl in Hstop.
      destruct (isdigit input) eqn:Hd; [|discriminate].
      destruct board as [b|]; [|discriminate].
      pose proof (isdigit_cell input Hd) as Hc.
      rewrite to_uint8_small in Hstop by lia.
      right. right. eauto 8.
  - apply IH in H. simpl in H. exact H.
Qed.

(** X16.  Whatever the user types, a key that [getInputLoop] returns is
    the quit key, or in a yes/no question one of [y] and [n], or in number
    mode a digit that names a valid move on the board; and the loop draws
    nothing. *)
Theorem getInputLoop_returns_accepted_key (gas : nat) (term : terminal)
    (board : option board_t) (symbol : ascii) (isYesNo isNumber : bool)
    (io io' : io_t) (input : ascii) :
  getInputLoop gas term board symbol isYesNo isNumber io = Done (input, io') ->
  screen io' = screen io /\
  (input = KEY_QUIT \/
   (isYesNo = true /\ (input = KEY_YES \/ input = KEY_NO)) \/
   (isNumber = true /\ isdigit input = true /\
    exists b, board = Some b /\
      0 <= char_to_int input - char_to_int "0"%char <= 9 /\
      isValidMove b (char_to_int input - char_to_int "0"%char) symbol
      = Done true)).
Proof.
  apply getInputLoop_Done.
Qed.

Lemma getInputLoop_returns_accepted_key_witness :
  let term := mkTerminal (fun n => if Nat.eqb n 0 then "x" else "5")%char
                (fun _ => true) in
  getInputLoop 3 term (Some board_won) CROSS false true (mkIO 0 0 [])
  = Done ("5"%char, mkIO 2 2 []) /\
  isValidMove board_won 5 CROSS = Done true.
Proof.
  intros term.
  assert (H : getInputLoop 3 term (Some board_won) CROSS false true
                (mkIO 0 0 []) = Done ("5"%char, mkIO 2 2 []))
    by reflexivity.
  split; [exact H|].
  destruct (getInputLoop_returns_accepted_key 3 term (Some board_won) CROSS
              false true (mkIO 0 0 []) (mkIO 2 2 []) "5"%char H)
    as [_ [Hq | [[Hy _] | (_ & _ & b & Hb & _ & Hv)]]].
  - discriminate Hq.
  - discriminate Hy.
  - injection Hb as <-. exact Hv.
Defined.

Lemma getInputLoop_first (n gas : nat) (term : terminal)
    (board : option board_t) (symbol : ascii) (isYesNo isNumber : bool)
    (io : io_t) :
  (n < gas)%nat ->
  (forall i, (i < n)%nat ->
     size_ok term (sizes_read io + i) = true /\
     input_accepted board symbol isYesNo isNumber
       (tolower (raw_key term (keys_read io + i)))
       (char_to_int (tolower (raw_key term (keys_read io + i)))
        - char_to_int "0"%char) = Done false) ->
  (size_ok term (sizes_read io + n) = false ->
   getInputLoop gas term board symbol isYesNo isNumber io
   = Done (KEY_QUIT,
           mkIO (keys_read io + n) (S (sizes_read io + n)) (screen io))) /\
  (size_ok term (sizes_read io + n) = true ->
   input_accepted board symbol isYesNo isNumber
     (tolower (raw_key term (keys_read io + n)))
     (char_to_int (tolower (raw_key term (keys_read io + n)))
      - char_to_int "0"%char) = Done true ->
   getInputLoop gas term board symbol isYesNo isNumber io
   = Done (tolower (raw_key term (keys_read io + n)),
           mkIO (S (keys_read io + n)) (S (sizes_read io + n)) (screen io))).
Proof.
  revert gas io. induction n as [|n IH]; intros gas io Hgas Hbefore.
  - destruct gas as [|g]; [lia|]. rewrite !Nat.add_0_r. simpl.
    split; intros Hok.
    + rewrite Hok. reflexivity.
    + intros Hacc. rewrite Hok. simpl. rewrite Hacc. reflexivity.
  - destruct gas as [|g]; [lia|].
    destruct (Hbefore 0%nat ltac:(lia)) as [Hok0 Hacc0].
    rewrite !Nat.add_0_r in Hok0, Hacc0.
    specialize (IH g (mkIO (S (keys_read io)) (S (sizes_read io)) (screen io))
                  ltac:(lia)).
    simpl in IH. rewrite !Nat.add_succ_r.
    simpl. rewrite Hok0. simpl. rewrite Hacc0. simpl.
    apply IH. intros i Hi.
    specialize (Hbefore (S i) ltac:(lia)).
    rewrite !Nat.add_succ_r in Hbefore. exact Hbefore.
Qed.

(** As long as the terminal is large enough and no key is accepted, the
    loop goes on reading. *)
Lemma getInputLoop_waits (gas : nat) (term : terminal)
    (board : option board_t) (symbol : ascii) (isYesNo isNumber : bool)
    (io : io_t) :
  (forall i, (i < gas)%nat ->
     size_ok term (sizes_read io + i) = true /\
     input_accepted board symbol isYesNo isNumber
       (tolower (raw_key term (keys_read io + i)))
       (char_to_int (tolower (raw_key term (keys_read io + i)))
        - char_to_int "0"%char) = Done false) ->
  getInputLoop gas term board symbol isYesNo isNumber io = OutOfFuel.
Proof.
  revert io. induction gas as [|g IH]; intros io Hbefore; [reflexivity|].
  destruct (Hbefore 0%nat ltac:(lia)) as [Hok0 Hacc0].
  rewrite !Nat.add_0_r in Hok0, Hacc0.
  simpl. rewrite Hok0. simpl. rewrite Hacc0. simpl.
  apply IH. intros i Hi. simpl.
  specialize (Hbefore (S i) ltac:(lia)).
  rewrite !Nat.add_succ_r in Hbefore. exact Hbefore.
Qed.

(** X17.  [getInputLoop] returns the first key that it accepts, and reads
    no key after it; every key before it is dropped.  If the terminal is
    found too small before such a key comes, it returns the quit key
    instead, and does not read the next key. *)
Theorem getInputLoop_first_accepted_key (n gas : nat) (term : terminal)
    (board : option board_t) (symbol : ascii) (isYesNo isNumber : bool)
    (io : io_t) :
  (n < gas)%nat ->
  (forall i, (i < n)%nat ->
     size_ok term (sizes_read io + i) = true /\
     input_accepted board symbol isYesNo isNumber
       (tolower (raw_key term (keys_read io + i)))
       (char_to_int (tolower (raw_key term (keys_read io + i)))
        - char_to_int "0"%char) = Done false) ->
  (size_ok term (sizes_read io + n) = false ->
   getInputLoop gas term board symbol isYesNo isNumber io
   = Done (KEY_QUIT,
           mkIO (keys_read io + n) (S (sizes_read io + n)) (screen io))) /\
  (size_ok term (sizes_read io + n) = true ->
   input_accepted board symbol isYesNo isNumber
     (tolower (raw_key term (keys_read io + n)))
     (char_to_int (tolower (raw_key term (keys_read io + n)))
      - char_to_int "0"%char) = Done true ->
   getInputLoop gas term board symbol isYesNo isNumber io
   = Done (tolower (raw_key term (keys_read io + n)),
           mkIO (S (keys_read io + n)) (S (sizes_read io + n)) (screen io))).
Proof.
  apply getInputLoop_first.
Qed.

Lemma getInputLoop_first_accepted_key_witness :
  let term := mkTerminal (fun n => if Nat.eqb n 0 then "0" else "Q")%char
                (fun _ => true) in
  (1 < 2)%nat /\
  getInputLoop 2 term (Some board_won) CROSS false true (mkIO 0 0 [])
  = Done (KEY_QUIT, mkIO 2 2 []).
Proof.
  intros term.
  assert (Hn : (1 < 2)%nat) by lia.
  assert (Hb : forall i, (i < 1)%nat ->
            size_ok term (sizes_read (mkIO 0 0 []) + i) = true /\
            input_accepted (Some board_won) CROSS false true
              (tolower (raw_key term (keys_read (mkIO 0 0 []) + i)))
              (char_to_int
                 (tolower (raw_key term (keys_read (mkIO 0 0 []) + i)))
               - char_to_int "0"%char) = Done false).
  { intros i Hi. assert (Hi0 : i = 0%nat) by lia. subst i.
    split; reflexivity. }
  split; [exact Hn|].
  exact (proj2 (getInputLoop_first_accepted_key 1 2 term (Some board_won)
                  CROSS false true (mkIO 0 0 []) Hn Hb)
           eq_refl eq_refl).
Defined.

(** ** main.c: the questions the program asks *)

Lemma input_accepted_no_board (symbol : ascii) (isYesNo : bool)
    (input : ascii) (cell : Z) :
  exists v, input_accepted None symbol isYesNo false input cell = Done v.
Proof.
  unfold input_accepted. rewrite andb_false_l.
  destruct (Ascii.eqb input KEY_QUIT); [eauto|].
  destruct (isYesNo && _); eauto.
Qed.

Lemma input_accepted_wf (board : board_t) (symbol : ascii)
    (isYesNo isNumber : bool) (input : ascii) (cell : Z) :
  wf_board board ->
  exists v,
    input_accepted (Some board) symbol isYesNo isNumber input cell = Done v.
Proof.
  intros Hwf. unfold input_accepted.
  destruct (Ascii.eqb input KEY_QUIT); [eauto|].
  destruct (isYesNo && _); [eauto|].
  destruct (isNumber && isdigit input); [|eauto].
  destruct (isValidMove_total board (to_uint8 cell) symbol Hwf) as [v [-> _]].
  eauto.
Qed.

(** When the loop condition can always be evaluated, [getInputLoop] either
    returns or is still waiting for an acceptable key. *)
Lemma getInputLoop_safe (gas : nat) (term : terminal)
    (board : option board_t) (symbol : ascii) (isYesNo isNumber : bool)
    (io : io_t) :
  (forall input cell, exists v,
     input_accepted board symbol isYesNo isNumber input cell = Done v) ->
  getInputLoop gas term board symbol isYesNo isNumber io = OutOfFuel \/
  exists r, getInputLoop gas term board symbol isYesNo isNumber io = Done r.
Proof.
  intros Hacc. revert io. induction gas as [|g IH]; intros io.
  - left. reflexivity.
  - simpl. destruct (size_ok term (sizes_read io)); simpl; [|eauto].
    match goal with |- context [input_accepted _ _ _ _ ?i ?c] =>
      destruct (Hacc i c) as [v ->] end.
    simpl. destruct v; [eauto | apply IH].
Qed.

(** X18.  [getSymbol] never fails.  When it returns, it returns the quit
    key, [NOUGHT] or [CROSS], and [NOUGHT] stands for the answer [y] and
    [CROSS] for the answer [n]: no other key chooses a symbol. *)
Theorem getSymbol_outcome (gas : nat) (term : terminal) (io : io_t) :
  (getSymbol gas term io = OutOfFuel \/
   exists r, getSymbol gas term io = Done r) /\
  (forall symbol io', getSymbol gas term io = Done (symbol, io') ->
     exists input,
       getInputLoop gas term None EMPTY true false
         (updateMessage MSG_ORDER io) = Done (input, io') /\
       ((input = KEY_QUIT /\ symbol = KEY_QUIT) \/
        (input = KEY_YES /\ symbol = NOUGHT) \/
        (input = KEY_NO /\ symbol = CROSS))).
Proof.
  split.
  - unfold getSymbol.
    destruct (getInputLoop_safe gas term None EMPTY true false
                (updateMessage MSG_ORDER io)
                (input_accepted_no_board EMPTY true))
      as [-> | [[input io1] ->]]; [left; reflexivity | right]. simpl.
    destruct (Ascii.eqb input KEY_QUIT); [eauto|].
    destruct (Ascii.eqb input KEY_YES); eauto.
  - intros symbol io' H. unfold getSymbol in H.
    apply bind_Done in H as [[input io1] [Hloop H]].
    pose proof (getInputLoop_Done _ _ _ _ _ _ _ _ _ Hloop)
      as [_ Hkey].
    exists input.
    destruct (Ascii.eqb_spec input KEY_QUIT) as [Hq|Hnq].
    { injection H as <- <-. split; [exact Hloop | left; auto]. }
    destruct (Ascii.eqb_spec input KEY_YES) as [Hy|Hny].
    { injection H as <- <-. split; [exact Hloop | right; left; auto]. }
    injection H as <- <-. split; [exact Hloop | right; right].
    destruct Hkey as [Hq | [[_ [Hy | Hn]] | [Hnum _]]];
      try contradiction; [auto | discriminate].
Qed.

Lemma getSymbol_outcome_witness :
  let term := mkTerminal (fun _ => "Y"%char) (fun _ => true) in
  let io' := mkIO 1 1 [PutText Y_MSG X_MSG MSG_BLANK;
                       PutText Y_MSG X_MSG MSG_ORDER] in
  getSymbol 1 term (mkIO 0 0 []) = Done (NOUGHT, io') /\
  exists input,
    getInputLoop 1 term None EMPTY true false
      (updateMessage MSG_ORDER (mkIO 0 0 [])) = Done (input, io') /\
    ((input = KEY_QUIT /\ NOUGHT = KEY_QUIT) \/
     (input = KEY_YES /\ NOUGHT = NOUGHT) \/
     (input = KEY_NO /\ NOUGHT = CROSS)).
Proof.
  intros term io'.
  assert (H : getSymbol 1 term (mkIO 0 0 []) = Done (NOUGHT, io'))
    by reflexivity.
  split; [exact H|].
  exact (proj2 (getSymbol_outcome 1 term (mkIO 0 0 [])) NOUGHT io' H).
Defined.

(** ** main.c: the end of a game *)

Lemma isWin_false (gas : nat) (board : board_t) (symbol : ascii) :
  wf_board board -> size board < Z.of_nat gas ->
  ~ has_line board symbol -> isWin gas board symbol = Done false.
Proof.
  intros Hwf Hgas Hno.
  destruct (isWin_spec gas board symbol Hwf Hgas) as [v [-> Hiff]].
  destruct v; [|reflexivity]. elim Hno. apply Hiff. reflexivity.
Qed.

(** X19.  On a board of at most 15 x 15 cells, with the two players'
    symbols, [isEndState] returns, and what it shows follows the order of
    its tests: "You WON" when the user has a line (even if the AI has one
    too), else "You LOSE" when the AI has a line, else "You DREW" when no
    cell is empty; otherwise it answers false and shows nothing. *)
Theorem isEndState_outcome (gas : nat) (board : board_t)
    (symbolUser symbolAI : ascii) (io : io_t) :
  small_board board -> size board * size board < Z.of_nat gas ->
  (symbolUser = NOUGHT /\ symbolAI = CROSS) \/
  (symbolUser = CROSS /\ symbolAI = NOUGHT) ->
  (has_line board symbolUser ->
   isEndState gas board symbolUser symbolAI io
   = Done (true, updateMessage MSG_WIN io)) /\
  (~ has_line board symbolUser -> has_line board symbolAI ->
   isEndState gas board symbolUser symbolAI io
   = Done (true, updateMessage MSG_LOSE io)) /\
  (~ has_line board symbolUser -> ~ has_line board symbolAI ->
   no_empty_cell board ->
   isEndState gas board symbolUser symbolAI io
   = Done (true, updateMessage MSG_DRAW io)) /\
  (~ has_line board symbolUser -> ~ has_line board symbolAI ->
   ~ no_empty_cell board ->
   isEndState gas board symbolUser symbolAI io = Done (false, io)).
Proof.
  intros [Hwf H15] Hgas Hsym. pose proof Hwf as [Hs Hlen].
  assert (Hgas' : size board < Z.of_nat gas) by nia.
  assert (Hboth : ~ has_line board symbolUser -> ~ has_line board symbolAI ->
                  ~ has_line board NOUGHT /\ ~ has_line board CROSS)
    by (destruct Hsym as [[-> ->] | [-> ->]]; tauto).
  unfold isEndState. split; [|split; [|split]].
  - intros Hu. rewrite (has_line_isWin gas board symbolUser Hwf Hgas' Hu).
    reflexivity.
  - intros Hu Ha. rewrite (isWin_false gas board symbolUser Hwf Hgas' Hu).
    simpl. rewrite (has_line_isWin gas board symbolAI Hwf Hgas' Ha).
    reflexivity.
  - intros Hu Ha Hfull. destruct (Hboth Hu Ha) as [Hn Hc].
    rewrite (isWin_false gas board symbolUser Hwf Hgas' Hu). simpl.
    rewrite (isWin_false gas board symbolAI Hwf Hgas' Ha). simpl.
    rewrite (drawn_isDraw gas board Hwf H15 Hgas Hn Hc Hfull). reflexivity.
  - intros Hu Ha Hnfull.
    rewrite (isWin_false gas board symbolUser Hwf Hgas' Hu). simpl.
    rewrite (isWin_false gas board symbolAI Hwf Hgas' Ha). simpl.
    destruct (isDraw_spec gas board Hwf H15 Hgas) as [d [-> Hiff]]. simpl.
    destruct d; [|reflexivity].
    elim Hnfull. apply Hiff. reflexivity.
Qed.

Lemma isEndState_outcome_witness :
  small_board board_won /\
  size board_won * size board_won < Z.of_nat 10 /\
  ((CROSS = NOUGHT /\ NOUGHT = CROSS) \/ (CROSS = CROSS /\ NOUGHT = NOUGHT)) /\
  ~ has_line board_won CROSS /\ has_line board_won NOUGHT /\
  isEndState 10 board_won CROSS NOUGHT (mkIO 0 0 [])
  = Done (true, updateMessage MSG_LOSE (mkIO 0 0 [])).
Proof.
  assert (Hs : small_board board_won) by (repeat split; simpl; lia).
  assert (Hg : size board_won * size board_won < Z.of_nat 10) by (simpl; lia).
  assert (Hsym : (CROSS = NOUGHT /\ NOUGHT = CROSS) \/
                 (CROSS = CROSS /\ NOUGHT = NOUGHT)) by (right; split; reflexivity).
  assert (Hu : ~ has_line board_won CROSS).
  { intros Hl.
    apply (has_line_isWin 10) in Hl;
      [vm_compute in Hl; discriminate | exact (proj1 Hs) | simpl; lia]. }
  assert (Ha : has_line board_won NOUGHT).
  { left. exists 0. split; [simpl; lia|]. intros i Hi. simpl in Hi.
    assert (Hi' : i = 0 \/ i = 1 \/ i = 2) by lia.
    destruct Hi' as [-> | [-> | ->]]; (split; [simpl; lia | reflexivity]). }
  split; [exact Hs|]. split; [exact Hg|]. split; [exact Hsym|].
  split; [exact Hu|]. split; [exact Ha|].
  exact (proj1 (proj2 (isEndState_outcome 10 board_won CROSS NOUGHT
                         (mkIO 0 0 []) Hs Hg Hsym)) Hu Ha).
Defined.

Lemma isEndState_total (gas : nat) (board : board_t)
    (symbolUser symbolAI : ascii) (io : io_t) :
  small_board board -> size board * size board < Z.of_nat gas ->
  exists r, isEndState gas board symbolUser symbolAI io = Done r.
Proof.
  intros [Hwf H15] Hgas. pose proof Hwf as [Hs Hlen].
  unfold isEndState.
  destruct (isWin_spec gas board symbolUser Hwf ltac:(nia)) as [u [-> _]].
  simpl. destruct u; [eauto|].
  destruct (isWin_spec gas board symbolAI Hwf ltac:(nia)) as [a [-> _]].
  simpl. destruct a; [eauto|].
  destruct (isDraw_spec gas board Hwf H15 Hgas) as [d [-> _]].
  simpl. destruct d; eauto.
Qed.

(** ** main.c: the moves of a turn *)

Lemma setCell_placed (board board' : board_t) (cell : Z) (symbol : ascii) :
  symbol <> EMPTY -> setCell board cell symbol = Done board' ->
  0 <= cell < size board * size board /\ holds board cell EMPTY /\
  board' = place board cell symbol.
Proof.
  intros Hne H. apply setCell_Done in H as (_ & Hv & _ & ->).
  apply isValidMove_true in Hv as [Hr [He | Hh]]; [contradiction|].
  split; [exact Hr|]. split; [exact Hh | reflexivity].
Qed.

Lemma place_small (board : board_t) (cell : Z) (symbol : ascii) :
  small_board board -> small_board (place board cell symbol).
Proof.
  intros [[Hs Hlen] H15]. split; [split|]; simpl; try assumption.
  rewrite length_insert. exact Hlen.
Qed.

Lemma place_changes (board : board_t) (cell : Z) (symbol : ascii) :
  holds board cell EMPTY -> symbol <> EMPTY -> place board cell symbol <> board.
Proof.
  intros Hh Hne Heq. pose proof (holds_in_block _ _ _ Hh) as Hr.
  destruct Hh as [_ Hh]. rewrite <- Heq in Hh. simpl in Hh.
  rewrite list_lookup_insert_eq in Hh by lia. congruence.
Qed.

Lemma moveUser_Done (gas : nat) (term : terminal) (board board' : board_t)
    (symbolUser symbolAI : ascii) (io io' : io_t) (go : bool) :
  player symbolUser ->
  moveUser gas term board symbolUser symbolAI io = Done (go, board', io') ->
  (go = false /\ board' = board) \/
  exists cell, 0 <= cell < size board * size board /\
    holds board cell EMPTY /\ board' = place board cell symbolUser.
Proof.
  intros Hp H. unfold moveUser in H.
  apply bind_Done in H as [[input io1] [_ H]].
  destruct (Ascii.eqb input KEY_QUIT).
  - injection H as <- <- _. left. auto.
  - apply bind_Done in H as [b1 [Hset H]].
    apply bind_Done in H as [[ended io2] [_ H]]. injection H as _ <- _.
    right. eexists. apply setCell_placed; [|exact Hset].
    apply player_not_EMPTY. exact Hp.
Qed.

Lemma moveAI_Done (fuel gas : nat) (board board' : board_t)
    (symbolUser symbolAI : ascii) (io io' : io_t) (go : bool) :
  player symbolAI ->
  moveAI fuel gas board symbolUser symbolAI io = Done (go, board', io') ->
  exists cell, 0 <= cell < size board * size board /\
    holds board cell EMPTY /\ board' = place board cell symbolAI.
Proof.
  intros Hp H. unfold moveAI in H.
  apply bind_Done in H as [[cell b] [Hbest H]].
  apply getBestMove_frame in Hbest; [|exact Hp]. subst b.
  apply bind_Done in H as [b1 [Hset H]].
  apply bind_Done in H as [[ended io2] [_ H]]. injection H as _ <- _.
  eexists. apply setCell_placed; [|exact Hset].
  apply player_not_EMPTY. exact Hp.
Qed.

Lemma moveUser_returns (gas : nat) (term : terminal) (board : board_t)
    (symbolUser symbolAI : ascii) (io : io_t) :
  small_board board -> player symbolUser ->
  size board * size board < Z.of_nat gas ->
  moveUser gas term board symbolUser symbolAI io = OutOfFuel \/
  exists r, moveUser gas term board symbolUser symbolAI io = Done r.
Proof.
  intros Hsmall Hp Hgas. pose proof Hsmall as [Hwf H15].
  unfold moveUser.
  destruct (getInputLoop_safe gas term (Some board) symbolUser false true io
              (fun input cell =>
                 input_accepted_wf board symbolUser false true input cell Hwf))
    as [-> | [[input io1] Hloop]]; [left; reflexivity | right].
  rewrite Hloop. simpl.
  destruct (Ascii.eqb_spec input KEY_QUIT) as [Hq|Hnq]; [eauto|].
  pose proof (getInputLoop_Done _ _ _ _ _ _ _ _ _ Hloop)
    as [_ [Hq | [[Hyn _] | (_ & _ & b & Hb & Hc & Hv)]]];
    [contradiction | discriminate |].
  injection Hb as <-. rewrite to_uint8_small by lia.
  destruct (setCell_move board _ symbolUser Hwf Hp Hv)
    as (b1 & -> & Hwf1 & Hsz1 & _ & _). simpl.
  destruct (isEndState_total gas b1 symbolUser symbolAI
              (updateBoard (char_to_int input - char_to_int "0"%char)
                 symbolUser io1))
    as [[ended io2] ->];
    [split; [exact Hwf1 | lia] | rewrite Hsz1; exact Hgas |].
  simpl. eauto.
Qed.

(** A key that is accepted in number mode without being the quit key is a
    digit that names an empty cell. *)
Lemma accepted_digit (board : board_t) (symbol input : ascii) :
  wf_board board -> player symbol -> input <> KEY_QUIT ->
  input_accepted (Some board) symbol false true input
    (char_to_int input - char_to_int "0"%char) = Done true ->
  0 <= char_to_int input - char_to_int "0"%char <= 9 /\
  isValidMove board (char_to_int input - char_to_int "0"%char) symbol
  = Done true /\
  holds board (char_to_int input - char_to_int "0"%char) EMPTY.
Proof.
  intros Hwf Hp Hnq Hacc. unfold input_accepted in Hacc.
  destruct (Ascii.eqb_spec input KEY_QUIT) as [Hq|_]; [contradiction|].
  simpl in Hacc.
  destruct (isdigit input) eqn:Hd; [|discriminate].
  pose proof (isdigit_cell input Hd) as Hc.
  rewrite to_uint8_small in Hacc by lia.
  split; [exact Hc|]. split; [exact Hacc|].
  apply isValidMove_true in Hacc as [_ [He | Hh]]; [|exact Hh].
  elim (player_not_EMPTY _ Hp He).
Qed.

(** X20.  [moveUser] waits for the first key that [getInputLoop] accepts:
    while the terminal is large enough and the keys are rejected it goes
    on reading.  If the terminal is then found too small, or the key is
    the quit key, it returns false with the board untouched and asks about
    another game; if the key is a digit that names an empty cell, it
    returns with the user's symbol on exactly that cell, drawn at that
    cell, and answers whether the game goes on by [isEndState]. *)
Theorem moveUser_outcome (n gas : nat) (term : terminal) (board : board_t)
    (symbolUser symbolAI : ascii) (io : io_t) :
  small_board board -> player symbolUser ->
  size board * size board < Z.of_nat gas -> (n <= gas)%nat ->
  (forall i, (i < n)%nat ->
     size_ok term (sizes_read io + i) = true /\
     input_accepted (Some board) symbolUser false true
       (tolower (raw_key term (keys_read io + i)))
       (char_to_int (tolower (raw_key term (keys_read io + i)))
        - char_to_int "0"%char) = Done false) ->
  let input := tolower (raw_key term (keys_read io + n)) in
  let cell := char_to_int input - char_to_int "0"%char in
  let io_n := mkIO (S (keys_read io + n)) (S (sizes_read io + n))
                (screen io) in
  (n = gas ->
   moveUser gas term board symbolUser symbolAI io = OutOfFuel) /\
  ((n < gas)%nat -> size_ok term (sizes_read io + n) = false ->
   moveUser gas term board symbolUser symbolAI io
   = Done (false, board,
           updateMessage MSG_REPLAY
             (mkIO (keys_read io + n) (S (sizes_read io + n)) (screen io)))) /\
  ((n < gas)%nat -> size_ok term (sizes_read io + n) = true ->
   input = KEY_QUIT ->
   moveUser gas term board symbolUser symbolAI io
   = Done (false, board, updateMessage MSG_REPLAY io_n)) /\
  ((n < gas)%nat -> size_ok term (sizes_read io + n) = true ->
   input <> KEY_QUIT ->
   input_accepted (Some board) symbolUser false true input cell
   = Done true ->
   0 <= cell <= 9 /\ holds board cell EMPTY /\
   exists ended io',
     isEndState gas (place board cell symbolUser) symbolUser symbolAI
       (updateBoard cell symbolUser io_n) = Done (ended, io') /\
     moveUser gas term board symbolUser symbolAI io
     = Done (negb ended, place board cell symbolUser, io')).
Proof.
  intros Hsmall Hp Hgas Hn Hbefore input cell io_n.
  pose proof Hsmall as [Hwf H15].
  split; [|split; [|split]].
  - intros ->. unfold moveUser.
    rewrite (getInputLoop_waits gas term (Some board) symbolUser false true
               io Hbefore). reflexivity.
  - intros Hlt Hok. unfold moveUser.
    rewrite (proj1 (getInputLoop_first n gas term (Some board) symbolUser
                      false true io Hlt Hbefore) Hok). reflexivity.
  - intros Hlt Hok Hq. unfold moveUser.
    assert (Hacc : input_accepted (Some board) symbolUser false true input
                     cell = Done true)
      by (unfold input_accepted; rewrite Hq; reflexivity).
    rewrite (proj2 (getInputLoop_first n gas term (Some board) symbolUser
                      false true io Hlt Hbefore) Hok Hacc).
    fold input. rewrite Hq. reflexivity.
  - intros Hlt Hok Hnq Hacc.
    destruct (accepted_digit board symbolUser input Hwf Hp Hnq Hacc)
      as (Hc & Hv & Hh). fold cell in Hc, Hv, Hh.
    split; [exact Hc|]. split; [exact Hh|].
    destruct (setCell_move board cell symbolUser Hwf Hp Hv)
      as (b1 & H1 & Hwf1 & Hsz1 & _ & _).
    assert (Hb1 : b1 = place board cell symbolUser).
    { pose proof (setCell_Done _ _ _ _ H1) as (_ & _ & _ & ->).
      reflexivity. }
    subst b1.
    destruct (isEndState_total gas (place board cell symbolUser)
                symbolUser symbolAI (updateBoard cell symbolUser io_n))
      as [[ended io'] Hend];
      [split; [exact Hwf1 | exact H15] | exact Hgas |].
    exists ended, io'. split; [exact Hend|].
    unfold moveUser.
    rewrite (proj2 (getInputLoop_first n gas term (Some board) symbolUser
                      false true io Hlt Hbefore) Hok Hacc).
    fold input. cbn [bind].
    destruct (Ascii.eqb_spec input KEY_QUIT) as [Hq|_]; [contradiction|].
    fold cell. rewrite to_uint8_small by lia.
    rewrite H1. cbn [bind]. fold io_n. rewrite Hend. reflexivity.
Qed.

Lemma moveUser_outcome_witness :
  let term := mkTerminal (fun n => if Nat.eqb n 0 then "5" else "4")%char
                (fun _ => true) in
  small_board board_slow /\ player NOUGHT /\
  size board_slow * size board_slow < Z.of_nat 10 /\ (1 <= 10)%nat /\
  input_accepted (Some board_slow) NOUGHT false true "5"%char 5
  = Done false /\
  input_accepted (Some board_slow) NOUGHT false true "4"%char 4
  = Done true /\
  holds board_slow 4 EMPTY /\
  exists ended io',
    isEndState 10 (place board_slow 4 NOUGHT) NOUGHT CROSS
      (updateBoard 4 NOUGHT (mkIO 2 2 [])) = Done (ended, io') /\
    moveUser 10 term board_slow NOUGHT CROSS (mkIO 0 0 [])
    = Done (negb ended, place board_slow 4 NOUGHT, io').
Proof.
  intros term.
  assert (Hs : small_board board_slow) by (repeat split; simpl; lia).
  assert (Hp : player NOUGHT) by (left; reflexivity).
  assert (Hg : size board_slow * size board_slow < Z.of_nat 10)
    by (simpl; lia).
  assert (Hn : (1 <= 10)%nat) by lia.
  assert (H5 : input_accepted (Some board_slow) NOUGHT false true "5"%char 5
               = Done false) by reflexivity.
  assert (H4 : input_accepted (Some board_slow) NOUGHT false true "4"%char 4
               = Done true) by reflexivity.
  assert (Hb : forall i, (i < 1)%nat ->
            size_ok term (sizes_read (mkIO 0 0 []) + i) = true /\
            input_accepted (Some board_slow) NOUGHT false true
              (tolower (raw_key term (keys_read (mkIO 0 0 []) + i)))
              (char_to_int
                 (tolower (raw_key term (keys_read (mkIO 0 0 []) + i)))
               - char_to_int "0"%char) = Done false).
  { intros i Hi. assert (Hi0 : i = 0%nat) by lia. subst i.
    split; [reflexivity | exact H5]. }
  split; [exact Hs|]. split; [exact Hp|]. split; [exact Hg|].
  split; [exact Hn|]. split; [exact H5|]. split; [exact H4|].
  destruct (proj2 (proj2 (proj2
              (moveUser_outcome 1 10 term board_slow NOUGHT CROSS
                 (mkIO 0 0 []) Hs Hp Hg Hn Hb)))
              ltac:(lia) eq_refl ltac:(discriminate) H4)
    as (_ & Hh & Hex).
  split; [exact Hh | exact Hex].
Defined.

(** X21.  [moveAI] fails only where [getBestMove] fails: on a board of at
    most 15 x 15 cells either [getBestMove] stops at its assertion, and so
    does [moveAI], or [moveAI] returns; and when it returns, exactly one
    cell, empty before, now holds the AI's symbol. *)
Theorem moveAI_outcome (fuel gas : nat) (board : board_t)
    (symbolUser symbolAI : ascii) (io : io_t) :
  small_board board -> player symbolAI ->
  size board * size board < Z.of_nat gas ->
  (count_empty (cells board) <= fuel)%nat ->
  ((getBestMove fuel gas board symbolAI = AssertFailed /\
    moveAI fuel gas board symbolUser symbolAI io = AssertFailed) \/
   exists r, moveAI fuel gas board symbolUser symbolAI io = Done r) /\
  (forall go board' io',
     moveAI fuel gas board symbolUser symbolAI io = Done (go, board', io') ->
     exists cell, 0 <= cell < size board * size board /\
       holds board cell EMPTY /\ board' = place board cell symbolAI).
Proof.
  intros Hsmall Hp Hgas Hfuel. pose proof Hsmall as [Hwf H15].
  split; [|intros go board' io' H; eapply moveAI_Done; eassumption].
  unfold moveAI.
  destruct (getBestMove_total fuel gas board symbolAI Hsmall Hp Hgas Hfuel)
    as [Hfail | [cell [Hbest Hv]]].
  - left. rewrite Hfail. split; reflexivity.
  - right. rewrite Hbest. simpl.
    destruct (setCell_move board cell symbolAI Hwf Hp Hv)
      as (b1 & -> & Hwf1 & Hsz1 & _ & _). simpl.
    destruct (isEndState_total gas b1 symbolUser symbolAI
                (updateBoard cell symbolAI io))
      as [[ended io2] ->];
      [split; [exact Hwf1 | lia] | rewrite Hsz1; exact Hgas |].
    simpl. eauto.
Qed.

Lemma moveAI_outcome_witness :
  small_board board_slow /\ player NOUGHT /\
  size board_slow * size board_slow < Z.of_nat 10 /\
  (count_empty (cells board_slow) <= 3)%nat /\
  ((getBestMove 3 10 board_slow NOUGHT = AssertFailed /\
    moveAI 3 10 board_slow CROSS NOUGHT (mkIO 0 0 []) = AssertFailed) \/
   exists r, moveAI 3 10 board_slow CROSS NOUGHT (mkIO 0 0 []) = Done r).
Proof.
  assert (Hs : small_board board_slow) by (repeat split; simpl; lia).
  assert (Hp : player NOUGHT) by (left; reflexivity).
  assert (Hg : size board_slow * size board_slow < Z.of_nat 10)
    by (simpl; lia).
  assert (Hf : (count_empty (cells board_slow) <= 3)%nat) by (simpl; lia).
  split; [exact Hs|]. split; [exact Hp|]. split; [exact Hg|].
  split; [exact Hf|].
  exact (proj1 (moveAI_outcome 3 10 board_slow CROSS NOUGHT (mkIO 0 0 [])
                  Hs Hp Hg Hf)).
Defined.

(** What a move draws: [isEndState] adds messages only, [moveUser] and
    [moveAI] the mark of the cell they take. *)
Lemma marks_app (l l' : list drawn) : marks (l ++ l') = marks l ++ marks l'.
Proof. apply List.filter_app. Qed.

Lemma isEndState_screen (gas : nat) (board : board_t)
    (symbolUser symbolAI : ascii) (io io' : io_t) (ended : bool) :
  isEndState gas board symbolUser symbolAI io = Done (ended, io') ->
  exists texts, screen io' = screen io ++ texts /\ marks texts = [].
Proof.
  unfold isEndState. intros H.
  apply bind_Done in H as [u [_ H]]. destruct u.
  { injection H as _ <-. eexists. split; reflexivity. }
  apply bind_Done in H as [a [_ H]]. destruct a.
  { injection H as _ <-. eexists. split; reflexivity. }
  apply bind_Done in H as [d [_ H]]. destruct d.
  { injection H as _ <-. eexists. split; reflexivity. }
  injection H as _ <-. exists []. split; [symmetry; apply app_nil_r|].
  reflexivity.
Qed.

Lemma moveUser_trace (gas : nat) (term : terminal) (board board' : board_t)
    (symbolUser symbolAI : ascii) (io io' : io_t) (go : bool) :
  player symbolUser ->
  moveUser gas term board symbolUser symbolAI io = Done (go, board', io') ->
  exists added, screen io' = screen io ++ added /\
    ((go = false /\ board' = board /\ marks added = []) \/
     exists cell, holds board cell EMPTY /\
       board' = place board cell symbolUser /\
       marks added = [mark cell symbolUser]).
Proof.
  intros Hp H. unfold moveUser in H.
  apply bind_Done in H as [[input io1] [Hloop H]].
  apply getInputLoop_Done in Hloop as [Hscr _].
  destruct (Ascii.eqb input KEY_QUIT).
  - injection H as <- <- <-. eexists. split; [simpl; rewrite Hscr; reflexivity|].
    left. auto.
  - apply bind_Done in H as [b1 [Hset H]].
    apply bind_Done in H as [[ended io2] [Hend H]]. injection H as _ <- <-.
    apply setCell_placed in Hset as (_ & Hh & ->);
      [|apply player_not_EMPTY; exact Hp].
    apply isEndState_screen in Hend as (texts & Hscr2 & Hm).
    eexists. split.
    + rewrite Hscr2. simpl. rewrite Hscr, <- app_assoc. reflexivity.
    + right. eexists. split; [exact Hh|]. split; [reflexivity|].
      rewrite marks_app, Hm. reflexivity.
Qed.

Lemma moveAI_trace (fuel gas : nat) (board board' : board_t)
    (symbolUser symbolAI : ascii) (io io' : io_t) (go : bool) :
  player symbolAI ->
  moveAI fuel gas board symbolUser symbolAI io = Done (go, board', io') ->
  exists added cell, screen io' = screen io ++ added /\
    holds board cell EMPTY /\ board' = place board cell symbolAI /\
    marks added = [mark cell symbolAI].
Proof.
  intros Hp H. unfold moveAI in H.
  apply bind_Done in H as [[cell b] [Hbest H]].
  apply getBestMove_frame in Hbest; [|exact Hp]. subst b.
  apply bind_Done in H as [b1 [Hset H]].
  apply bind_Done in H as [[ended io2] [Hend H]]. injection H as _ <- <-.
  apply setCell_placed in Hset as (_ & Hh & ->);
    [|apply player_not_EMPTY; exact Hp].
  apply isEndState_screen in Hend as (texts & Hscr2 & Hm).
  eexists. exists cell. split.
  - rewrite Hscr2. simpl. rewrite <- app_assoc. reflexivity.
  - split; [exact Hh|]. split; [reflexivity|].
    rewrite marks_app, Hm. reflexivity.
Qed.

(** X22.  In every turn Nought moves before Cross, whoever the user is:
    of what a turn that returns has drawn, the marks are none, or the mark
    of Nought on a cell that was empty, or that mark followed by the mark
    of Cross on a cell that was empty after Nought's move, and the board
    handed back is the board with these moves made in that order.  A turn
    that answers that the game goes on has made both moves. *)
Theorem turn_moves (fuel gas : nat) (term : terminal)
    (board board' : board_t) (symbolUser symbolAI : ascii)
    (io io' : io_t) (go : bool) :
  (symbolUser = NOUGHT /\ symbolAI = CROSS) \/
  (symbolUser = CROSS /\ symbolAI = NOUGHT) ->
  turn fuel gas term board symbolUser symbolAI io = Done (go, board', io') ->
  exists added, screen io' = screen io ++ added /\
    ((go = false /\ board' = board /\ marks added = []) \/
     (exists c1, go = false /\ holds board c1 EMPTY /\
        board' = place board c1 NOUGHT /\
        marks added = [mark c1 NOUGHT]) \/
     (exists c1 c2, holds board c1 EMPTY /\
        holds (place board c1 NOUGHT) c2 EMPTY /\
        board' = place (place board c1 NOUGHT) c2 CROSS /\
        marks added = [mark c1 NOUGHT; mark c2 CROSS])).
Proof.
  assert (HO : player NOUGHT) by (left; reflexivity).
  assert (HX : player CROSS) by (right; reflexivity).
  intros [[-> ->] | [-> ->]] H; unfold turn in H; simpl in H.
  - apply bind_Done in H as [[[go1 b1] io1] [H1 H]].
    apply moveUser_trace in H1 as (add1 & Hs1 & Hm1); [|exact HO].
    destruct go1; simpl in H.
    + destruct Hm1 as [[Hgo _] | (c1 & Hh1 & -> & Hm1)]; [discriminate|].
      apply bind_Done in H as [[[go2 b2] io2] [H2 H]].
      apply moveAI_trace in H2 as (add2 & c2 & Hs2 & Hh2 & -> & Hm2);
        [|exact HX].
      exists (add1 ++ add2). split.
      * destruct go2; injection H as _ _ <-;
          rewrite Hs2, Hs1, <- app_assoc; reflexivity.
      * right. right. exists c1, c2.
        split; [exact Hh1|]. split; [exact Hh2|].
        split; [destruct go2; injection H as _ <- _; reflexivity|].
        rewrite marks_app, Hm1, Hm2. reflexivity.
    + injection H as <- <- <-. exists add1. split; [exact Hs1|].
      destruct Hm1 as [(_ & -> & Hm1) | (c1 & Hh1 & -> & Hm1)].
      * left. auto.
      * right. left. exists c1. auto.
  - apply bind_Done in H as [[[go1 b1] io1] [H1 H]].
    apply moveAI_trace in H1 as (add1 & c1 & Hs1 & Hh1 & -> & Hm1);
      [|exact HO].
    destruct go1; simpl in H.
    + apply bind_Done in H as [[[go2 b2] io2] [H2 H]].
      apply moveUser_trace in H2 as (add2 & Hs2 & Hm2); [|exact HX].
      exists (add1 ++ add2). split.
      * destruct go2; injection H as _ _ <-;
          rewrite Hs2, Hs1, <- app_assoc; reflexivity.
      * destruct Hm2 as [(Hgo & -> & Hm2) | (c2 & Hh2 & -> & Hm2)].
        -- right. left. exists c1. subst go2. injection H as <- <- _.
           split; [reflexivity|]. split; [exact Hh1|].
           split; [reflexivity|].
           rewrite marks_app, Hm1, Hm2. reflexivity.
        -- right. right. exists c1, c2.
           split; [exact Hh1|]. split; [exact Hh2|].
           split; [destruct go2; injection H as _ <- _; reflexivity|].
           rewrite marks_app, Hm1, Hm2. reflexivity.
    + injection H as <- <- <-. exists add1. split; [exact Hs1|].
      right. left. exists c1. auto.
Qed.

Lemma turn_moves_witness :
  let term := mkTerminal (fun _ => "4"%char) (fun _ => true) in
  let board := mkBoard 3 (replicate 9 EMPTY) in
  let io' := mkIO 1 1 [PutChar 10 18 NOUGHT; PutChar 12 22 CROSS] in
  ((CROSS = NOUGHT /\ NOUGHT = CROSS) \/ (CROSS = CROSS /\ NOUGHT = NOUGHT)) /\
  turn 9 10 term board CROSS NOUGHT (mkIO 0 0 [])
  = Done (true, place (place board 0 NOUGHT) 4 CROSS, io') /\
  exists added, screen io' = screen (mkIO 0 0 []) ++ added /\
    ((true = false /\
      place (place board 0 NOUGHT) 4 CROSS = board /\
      marks added = []) \/
     (exists c1, true = false /\ holds board c1 EMPTY /\
        place (place board 0 NOUGHT) 4 CROSS = place board c1 NOUGHT /\
        marks added = [mark c1 NOUGHT]) \/
     (exists c1 c2, holds board c1 EMPTY /\
        holds (place board c1 NOUGHT) c2 EMPTY /\
        place (place board 0 NOUGHT) 4 CROSS
        = place (place board c1 NOUGHT) c2 CROSS /\
        marks added = [mark c1 NOUGHT; mark c2 CROSS])).
Proof.
  intros term board io'.
  assert (Hsym : (CROSS = NOUGHT /\ NOUGHT = CROSS) \/
                 (CROSS = CROSS /\ NOUGHT = NOUGHT))
    by (right; split; reflexivity).
  assert (H : turn 9 10 term board CROSS NOUGHT (mkIO 0 0 [])
              = Done (true, place (place board 0 NOUGHT) 4 CROSS, io'))
    by (vm_compute; reflexivity).
  split; [exact Hsym|]. split; [exact H|].
  exact (turn_moves 9 10 term board (place (place board 0 NOUGHT) 4 CROSS)
           CROSS NOUGHT (mkIO 0 0 []) io' true Hsym H).
Defined.

Lemma count_empty_le_length (l : list ascii) :
  (count_empty l <= length l)%nat.
Proof.
  induction l as [|c l IH]; simpl; [lia|].
  destruct (Ascii.eqb c EMPTY); lia.
Qed.

(** What [play] keeps of a board: the data model's shape, the size, and
    few enough cells for the budget of the search. *)
Lemma one_move_shape (board board' : board_t) (symbol : ascii) (sz : Z)
    (fuel : nat) :
  one_move board symbol board' ->
  small_board board /\ size board = sz /\ (length (cells board) <= fuel)%nat ->
  small_board board' /\ size board' = sz /\ (length (cells board') <= fuel)%nat.
Proof.
  intros [-> | (cell & _ & _ & ->)] (Hs & Hsz & Hl); [auto|].
  split; [apply place_small; exact Hs|]. split; [exact Hsz|].
  simpl. rewrite length_insert. exact Hl.
Qed.

Lemma moveAI_returns (fuel gas : nat) (board : board_t)
    (symbolUser symbolAI : ascii) (io : io_t) :
  small_board board -> player symbolAI ->
  size board * size board < Z.of_nat gas ->
  (count_empty (cells board) <= fuel)%nat ->
  (getBestMove fuel gas board symbolAI = AssertFailed /\
   moveAI fuel gas board symbolUser symbolAI io = AssertFailed) \/
  exists r, moveAI fuel gas board symbolUser symbolAI io = Done r.
Proof.
  intros Hsmall Hp Hgas Hfuel. pose proof Hsmall as [Hwf H15].
  unfold moveAI.
  destruct (getBestMove_total fuel gas board symbolAI Hsmall Hp Hgas Hfuel)
    as [Hfail | [cell [Hbest Hv]]].
  - left. rewrite Hfail. split; reflexivity.
  - right. rewrite Hbest. simpl.
    destruct (setCell_move board cell symbolAI Hwf Hp Hv)
      as (b1 & -> & Hwf1 & Hsz1 & _ & _). simpl.
    destruct (isEndState_total gas b1 symbolUser symbolAI
                (updateBoard cell symbolAI io))
      as [[ended io2] ->];
      [split; [exact Hwf1 | lia] | rewrite Hsz1; exact Hgas |].
    simpl. eauto.
Qed.





(** ** interface.c: where a cell is drawn *)

(** X23.  For each of the nine cells, [updateBoard] draws at a blank slot
    of the left grid of [INTERFACE], between two bars, and the slot at the
    same place of the right grid shows the number of that cell; no two
    cells are drawn at the same place. *)
Theorem updateBoard_layout (cell : Z) :
  0 <= cell < 9 ->
  let '(y, x) := updateBoard_at cell in
  interface_at y x = Some " "%char /\
  interface_at y (x - 2) = Some "|"%char /\
  interface_at y (x + 2) = Some "|"%char /\
  interface_at y (x + 22) = Some (ascii_of_N (48 + Z.to_N cell)) /\
  forall cell', 0 <= cell' < 9 ->
    updateBoard_at cell' = updateBoard_at cell -> cell' = cell.
Proof.
  intros Hc.
  assert (Hcase : cell = 0 \/ cell = 1 \/ cell = 2 \/ cell = 3 \/ cell = 4 \/
                  cell = 5 \/ cell = 6 \/ cell = 7 \/ cell = 8) by lia.
  destruct Hcase as [-> | [-> | [-> | [-> | [-> | [-> | [-> | [-> | ->]]]]]]]];
    (split; [reflexivity|]); (split; [reflexivity|]);
    (split; [reflexivity|]); (split; [reflexivity|]);
    intros cell' Hc' Heq;
    assert (Hcase : cell' = 0 \/ cell' = 1 \/ cell' = 2 \/ cell' = 3 \/
                    cell' = 4 \/ cell' = 5 \/ cell' = 6 \/ cell' = 7 \/
                    cell' = 8) by lia;
    destruct Hcase as [-> | [-> | [-> | [-> | [-> | [-> | [-> | [-> | ->]]]]]]]];
    try reflexivity; discriminate Heq.
Qed.

Lemma updateBoard_layout_witness :
  0 <= 4 < 9 /\
  interface_at 12 22 = Some " "%char /\
  interface_at 12 (22 + 22) = Some "4"%char.
Proof.
  assert (Hc : 0 <= 4 < 9) by lia.
  split; [exact Hc|].
  pose proof (updateBoard_layout 4 Hc) as H.
  change (updateBoard_at 4) with (12, 22) in H.
  destruct H as (H1 & _ & _ & H4 & _).
  split; [exact H1 | exact H4].
Defined.

(** ** main.c: the games of [play] *)

Lemma bind_ext {A B : Type} (m : outcome A) (k k' : A -> outcome B) :
  (forall a, m = Done a -> k a = k' a) -> bind m k = bind m k'.
Proof. intros H. destruct m; simpl; auto. Qed.

Lemma getSymbol_symbol (gas : nat) (term : terminal) (io io' : io_t)
    (symbol : ascii) :
  getSymbol gas term io = Done (symbol, io') ->
  symbol = KEY_QUIT \/ player symbol.
Proof.
  unfold getSymbol. intros H.
  apply bind_Done in H as [[input io1] [_ H]].
  destruct (Ascii.eqb input KEY_QUIT); [injection H as <- _; auto|].
  destruct (Ascii.eqb input KEY_YES); injection H as <- _;
    [right; left | right; right]; reflexivity.
Qed.

Lemma turns_players (turn : turn_fn) (gas : nat) (term : terminal)
    (board : board_t) (symbolUser : ascii) (io : io_t) :
  player symbolUser ->
  turns turn gas term board symbolUser
    (if Ascii.eqb symbolUser NOUGHT then CROSS else NOUGHT) io
  = turns (for_players_only turn) gas term board symbolUser
      (if Ascii.eqb symbolUser NOUGHT then CROSS else NOUGHT) io.
Proof.
  intros Hp. revert board io. induction gas as [|g IH]; intros board io;
    [reflexivity|].
  simpl. unfold for_players_only at 1.
  replace ((Ascii.eqb symbolUser NOUGHT
            && Ascii.eqb (if Ascii.eqb symbolUser NOUGHT then CROSS else NOUGHT)
                 CROSS)
           || (Ascii.eqb symbolUser CROSS
               && Ascii.eqb (if Ascii.eqb symbolUser NOUGHT then CROSS
                             else NOUGHT) NOUGHT))
    with true by (destruct Hp as [-> | ->]; reflexivity).
  apply bind_ext. intros [[go b] io1] _. destruct go; [apply IH | reflexivity].
Qed.

Lemma games_players (turn : turn_fn) (n gas : nat) (term : terminal)
    (board : board_t) (symbolUser : ascii) (io : io_t) :
  player symbolUser ->
  games turn n gas term board symbolUser io
  = games (for_players_only turn) n gas term board symbolUser io.
Proof.
  revert board symbolUser io.
  induction n as [|k IH]; intros board symbolUser io Hp; [reflexivity|].
  simpl. apply bind_ext. intros b1 _. apply bind_ext. intros io1 _.
  rewrite (turns_players turn gas term b1 symbolUser _ Hp).
  apply bind_ext. intros [b2 io2] _. apply bind_ext. intros [again io3] _.
  destruct again; [|reflexivity].
  apply bind_ext. intros [s io4] Hs.
  destruct (Ascii.eqb_spec s KEY_QUIT) as [Hq|Hnq]; [reflexivity|]. simpl.
  apply IH. apply getSymbol_symbol in Hs as [Hq | Hs]; [contradiction|].
  exact Hs.
Qed.

(** X24.  [play] never starts a game with the quit key for a symbol: every
    call it makes of [turn] has [NOUGHT] and [CROSS] for the user and the
    AI, one each, so that a [turn] that stops the program on any other
    pair of symbols makes no difference to [play]. *)
Theorem play_calls_turn_for_players (turn : turn_fn) (gas : nat)
    (term : terminal) (board : board_t) (io : io_t) :
  play_body turn gas term board io
  = play_body (for_players_only turn) gas term board io.
Proof.
  unfold play_body. apply bind_ext. intros [s io1] Hs.
  destruct (Ascii.eqb_spec s KEY_QUIT) as [Hq|Hnq]; [reflexivity|].
  apply games_players. apply getSymbol_symbol in Hs as [Hq | Hs];
    [contradiction | exact Hs].
Qed.

Lemma turn_safe (fuel gas : nat) (term : terminal) (board : board_t)
    (symbolUser : ascii) (io : io_t) :
  player symbolUser ->
  small_board board -> size board * size board < Z.of_nat gas ->
  (length (cells board) <= fuel)%nat ->
  let symbolAI := if Ascii.eqb symbolUser NOUGHT then CROSS else NOUGHT in
  turn fuel gas term board symbolUser symbolAI io = OutOfFuel \/
  turn fuel gas term board symbolUser symbolAI io = AssertFailed \/
  exists go board' io',
    turn fuel gas term board symbolUser symbolAI io = Done (go, board', io') /\
    small_board board' /\ size board' = size board /\
    (length (cells board') <= fuel)%nat.
Proof.
  intros Hp Hsmall Hgas Hfuel symbolAI.
  assert (Ha : player symbolAI) by apply other_player.
  assert (Huser : forall b io0,
            small_board b -> size b = size board ->
            (length (cells b) <= fuel)%nat ->
            moveUser gas term b symbolUser symbolAI io0 = OutOfFuel \/
            exists go b' io',
              moveUser gas term b symbolUser symbolAI io0 = Done (go, b', io') /\
              small_board b' /\ size b' = size board /\
              (length (cells b') <= fuel)%nat).
  { intros b io0 Hb Hsz Hl.
    destruct (moveUser_returns gas term b symbolUser symbolAI io0 Hb Hp
                ltac:(rewrite Hsz; exact Hgas)) as [Hout | [[[go b'] io'] H]];
      [left; exact Hout | right].
    exists go, b', io'. split; [exact H|].
    apply (one_move_shape b b' symbolUser); [|auto].
    apply moveUser_Done in H as [[_ ->] | H]; [left; reflexivity | right; exact H
                                              | exact Hp]. }
  assert (Hai : forall b io0,
            small_board b -> size b = size board ->
            (length (cells b) <= fuel)%nat ->
            moveAI fuel gas b symbolUser symbolAI io0 = AssertFailed \/
            exists go b' io',
              moveAI fuel gas b symbolUser symbolAI io0 = Done (go, b', io') /\
              small_board b' /\ size b' = size board /\
              (length (cells b') <= fuel)%nat).
  { intros b io0 Hb Hsz Hl.
    destruct (moveAI_returns fuel gas b symbolUser symbolAI io0 Hb Ha
                ltac:(rewrite Hsz; exact Hgas)
                ltac:(pose proof (count_empty_le_length (cells b)); lia))
      as [[_ Hout] | [[[go b'] io'] H]];
      [left; exact Hout | right].
    exists go, b', io'. split; [exact H|].
    apply (one_move_shape b b' symbolAI); [|auto].
    apply moveAI_Done in H; [right; exact H | exact Ha]. }
  unfold turn. destruct (Ascii.eqb symbolUser NOUGHT).
  - destruct (Huser board io Hsmall eq_refl Hfuel)
      as [-> | (go & b1 & io1 & -> & Hb1 & Hsz1 & Hl1)];
      [left; reflexivity|]. simpl.
    destruct go; simpl; [|right; right; eauto 8].
    destruct (Hai b1 io1 Hb1 Hsz1 Hl1)
      as [-> | (go2 & b2 & io2 & -> & Hb2 & Hsz2 & Hl2)];
      [right; left; reflexivity|]. simpl.
    right. right. destruct go2; simpl; eauto 8.
  - destruct (Hai board io Hsmall eq_refl Hfuel)
      as [-> | (go & b1 & io1 & -> & Hb1 & Hsz1 & Hl1)];
      [right; left; reflexivity|]. simpl.
    destruct go; simpl; [|right; right; eauto 8].
    destruct (Huser b1 io1 Hb1 Hsz1 Hl1)
      as [-> | (go2 & b2 & io2 & -> & Hb2 & Hsz2 & Hl2)];
      [left; reflexivity|]. simpl.
    right. right. destruct go2; simpl; eauto 8.
Qed.

Lemma getInput_question_safe (gas : nat) (term : terminal) (io : io_t) :
  getInputLoop gas term None EMPTY true false io = OutOfFuel \/
  exists r, getInputLoop gas term None EMPTY true false io = Done r.
Proof.
  apply getInputLoop_safe. intros input cell.
  apply input_accepted_no_board.
Qed.

Lemma getSymbol_safe (gas : nat) (term : terminal) (io : io_t) :
  getSymbol gas term io = OutOfFuel \/
  exists r, getSymbol gas term io = Done r.
Proof.
  unfold getSymbol.
  destruct (getInput_question_safe gas term (updateMessage MSG_ORDER io))
    as [-> | [[input io1] ->]]; [left; reflexivity | right]. simpl.
  destruct (Ascii.eqb input KEY_QUIT); [eauto|].
  destruct (Ascii.eqb input KEY_YES); eauto.
Qed.

Lemma isReplay_safe (gas : nat) (term : terminal) (io : io_t) :
  isReplay gas term io = OutOfFuel \/
  exists r, isReplay gas term io = Done r.
Proof.
  unfold isReplay.
  destruct (getInput_question_safe gas term io)
    as [-> | [[input io1] ->]]; [left; reflexivity | right]. simpl.
  destruct (Ascii.eqb input KEY_YES); eauto.
Qed.

Lemma resetBoard_all_empty (gas : nat) (board : board_t) :
  small_board board -> size board * size board < Z.of_nat gas ->
  resetBoard gas board
  = Done (mkBoard (size board) (replicate (length (cells board)) EMPTY)).
Proof.
  intros [Hwf H15] Hgas. pose proof Hwf as [Hs Hlen].
  destruct (resetBoard_spec gas board Hwf H15 Hgas)
    as (b' & -> & Hsz & Hl & Hall).
  f_equal. destruct b' as [sz cs]. simpl in *. subst sz. f_equal.
  rewrite <- Hl. apply (all_empty_cells (mkBoard (size board) cs)). simpl.
  intros k Hk. apply Hall. lia.
Qed.

Lemma clear_interface (gas : nat) (bound : Z) (io : io_t) :
  0 <= bound <= 255 -> bound < Z.of_nat gas ->
  exists io',
    after_loop
      (for_uint8 gas bound
         (fun cell io => Done (@Next _ io_t (updateBoard cell EMPTY io)))
         0 io)
      (fun io => Done io) = Done io'.
Proof.
  intros Hb Hgas.
  destruct (for_uint8_spec (fun (_ : Z) (_ : io_t) => True)
              (fun _ : io_t => False) bound
              (fun cell io => Done (@Next _ io_t (updateBoard cell EMPTY io)))
              ltac:(lia)) with (gas := gas) (i := 0) (s := io)
    as [x [-> Hpost]].
  - intros j s _ _. eexists. split; [reflexivity | exact I].
  - lia.
  - lia.
  - exact I.
  - destruct x as [io'|r]; [simpl; eauto | contradiction].
Qed.

Lemma turn_keeps_shape (fuel gas : nat) (sz : Z) :
  sz * sz < Z.of_nat gas -> (Z.to_nat (sz * sz) <= fuel)%nat ->
  keeps_shape (turn fuel gas) sz.
Proof.
  intros Hgas Hfuel term board symbolUser io Hsmall Hsz Hp.
  pose proof Hsmall as [[Hs0 Hlen] _].
  destruct (turn_safe fuel gas term board symbolUser io Hp Hsmall
              ltac:(rewrite Hsz; exact Hgas) ltac:(subst sz; lia))
    as [H | [H | (go & b1 & io1 & H & Hb1 & Hsz1 & _)]];
    cbv zeta in H; rewrite H.
  - split; [discriminate | intros go b' io' Hd; discriminate].
  - split; [discriminate | intros go b' io' Hd; discriminate].
  - split; [discriminate|]. intros go' b' io' Hd. injection Hd as _ <- _.
    split; [exact Hb1 | lia].
Qed.

Lemma turns_ends (turn : turn_fn) (sz : Z) (n : nat) (term : terminal)
    (board : board_t) (symbolUser : ascii) (io : io_t) :
  keeps_shape turn sz -> player symbolUser ->
  small_board board -> size board = sz ->
  ends_in_turn turn sz term
    (turns turn n term board symbolUser
       (if Ascii.eqb symbolUser NOUGHT then CROSS else NOUGHT) io).
Proof.
  intros Hkeep Hp. revert board io.
  induction n as [|k IH]; intros board io Hsmall Hsz; [exact I|].
  simpl. destruct (Hkeep term board symbolUser io Hsmall Hsz Hp) as [Hnu Hd].
  destruct (turn term board symbolUser _ io) as [[[go b1] io1]| | |] eqn:Ht;
    simpl.
  - destruct (Hd go b1 io1 eq_refl) as [Hb1 Hsz1].
    destruct go; [apply IH; assumption | simpl; auto].
  - exists board, symbolUser, io. auto.
  - apply Hnu. reflexivity.
  - exact I.
Qed.

Lemma games_ends (turn : turn_fn) (n gas : nat) (term : terminal)
    (board : board_t) (symbolUser : ascii) (io : io_t) :
  keeps_shape turn (size board) -> player symbolUser ->
  small_board board -> size board * size board < Z.of_nat gas ->
  ends_in_turn turn (size board) term
    (games turn n gas term board symbolUser io).
Proof.
  intros Hkeep. revert board symbolUser io Hkeep.
  induction n as [|k IH]; intros board symbolUser io Hkeep Hp Hsmall Hgas;
    [exact I|].
  pose proof Hsmall as [[Hs Hlen] H15].
  simpl. rewrite (resetBoard_all_empty gas board Hsmall Hgas). simpl.
  set (b1 := mkBoard (size board) (replicate (length (cells board)) EMPTY)).
  assert (Hb1 : small_board b1)
    by (split; [split|]; simpl; [exact Hs | rewrite length_replicate; exact Hlen
                                | exact H15]).
  unfold getSize. simpl (size b1).
  destruct (clear_interface gas (size board * size board) io)
    as [io1 ->]; [nia | lia|].
  simpl.
  pose proof (turns_ends turn (size board) gas term b1 symbolUser
                (updateMessage MSG_MOVE io1) Hkeep Hp Hb1 eq_refl) as Hturns.
  destruct (turns turn gas term b1 symbolUser _ _) as [[b2 io2]| | |];
    simpl in *; try assumption.
  destruct Hturns as [Hb2 Hsz2].
  destruct (isReplay_safe gas term io2) as [-> | [[again io3] ->]];
    [exact I|]. simpl.
  destruct again; [|simpl; auto].
  destruct (getSymbol_safe gas term io3) as [-> | [[s io4] Hsym]];
    [exact I|]. rewrite Hsym. simpl.
  destruct (Ascii.eqb_spec s KEY_QUIT) as [Hq|Hnq]; simpl; [auto|].
  rewrite <- Hsz2.
  apply IH; [rewrite Hsz2; exact Hkeep | | exact Hb2
            | rewrite Hsz2; exact Hgas].
  apply getSymbol_symbol in Hsym as [Hq | Hps]; [contradiction | exact Hps].
Qed.

(** X25.  [play] fails only where [turn] fails.  For every function in the
    place of [turn] that keeps the shape of the board, [play] on a board
    of at most 15 x 15 cells accesses no memory outside a block; when it
    returns, the board has the shape and the size it had; and when it
    stops at an assertion, then a call of [turn] for a player on such a
    board has stopped at one: nothing that [play] itself does, the reset
    of the board and the questions, can fail. *)
Theorem play_fails_only_in_turn (turn : turn_fn) (gas : nat)
    (term : terminal) (board : board_t) (io : io_t) :
  small_board board -> size board * size board < Z.of_nat gas ->
  keeps_shape turn (size board) ->
  play_body turn gas term board io <> Undefined /\
  (forall board' io',
     play_body turn gas term board io = Done (board', io') ->
     small_board board' /\ size board' = size board) /\
  (play_body turn gas term board io = AssertFailed ->
   exists b symbolUser io0,
     small_board b /\ size b = size board /\ player symbolUser /\
     turn term b symbolUser
       (if Ascii.eqb symbolUser NOUGHT then CROSS else NOUGHT) io0
     = AssertFailed).
Proof.
  intros Hsmall Hgas Hkeep.
  assert (Hends : ends_in_turn turn (size board) term
                    (play_body turn gas term board io)).
  { unfold play_body.
    destruct (getSymbol_safe gas term io) as [-> | [[s io1] Hsym]];
      [exact I|]. rewrite Hsym. simpl.
    destruct (Ascii.eqb_spec s KEY_QUIT) as [Hq|Hnq]; [simpl; auto|].
    apply getSymbol_symbol in Hsym as [Hq | Hps]; [contradiction|].
    apply games_ends; assumption. }
  destruct (play_body turn gas term board io) as [[b' io']| | |];
    simpl in Hends.
  - split; [discriminate|]. split; [|discriminate].
    intros b2 io2 H. injection H as <- _. exact Hends.
  - split; [discriminate|]. split; [discriminate | intros _; exact Hends].
  - contradiction.
  - split; [discriminate|]. split; discriminate.
Qed.

Lemma play_fails_only_in_turn_witness :
  let term :=
    mkTerminal (fun n => nth n ["n"; "4"; "2"; "3"; "7"; "8"; "n"]%char
                           "q"%char) (fun _ => true) in
  let drawn_game := board_of 3 [[NOUGHT; NOUGHT; CROSS ];
                                [CROSS;  CROSS;  NOUGHT];
                                [NOUGHT; CROSS;  NOUGHT]] in
  small_board board_slow /\
  size board_slow * size board_slow < Z.of_nat 12 /\
  keeps_shape (turn 9 12) (size board_slow) /\
  (exists io', play 9 12 term board_slow (mkIO 0 0 [])
               = Done (drawn_game, io')) /\
  (forall board' io',
     play_body (turn 9 12) 12 term board_slow (mkIO 0 0 [])
     = Done (board', io') ->
     small_board board' /\ size board' = size board_slow).
Proof.
  intros term drawn_game.
  assert (Hs : small_board board_slow) by (repeat split; simpl; lia).
  assert (Hg : size board_slow * size board_slow < Z.of_nat 12)
    by (simpl; lia).
  assert (Hk : keeps_shape (turn 9 12) (size board_slow))
    by (apply turn_keeps_shape; simpl; lia).
  split; [exact Hs|]. split; [exact Hg|]. split; [exact Hk|].
  split; [eexists; vm_compute; reflexivity|].
  exact (proj1 (proj2 (play_fails_only_in_turn (turn 9 12) 12 term board_slow
                         (mkIO 0 0 []) Hs Hg Hk))).
Defined.

(** ** main.c: the program *)

(** X26.  When the terminal is too small at the start, [main] returns at
    once: no key is read, no board is made, and the message about the size
    is printed if the terminal is still too small.  When the terminal is
    large enough, [main] prints the interface, and its next call,
    [initBoard (BOARD_SIZE)], writes outside the block that it has
    allocated, before a key is read: from there on the behaviour of the
    program is undefined. *)
Theorem main_outcome (fuel gas : nat) (term : terminal)
    (junk : nat -> ascii) :
  (size_ok term 0 = false ->
   main fuel gas term junk
   = Done (EXIT_SUCCESS,
           mkIO 0 2 (if size_ok term 1 then []
                     else [PrintSizeError WIDTH_INTERFACE HEIGHT_INTERFACE]))) /\
  (size_ok term 0 = true ->
   initInterface term (mkIO 0 0 [])
   = (true, mkIO 0 1 [PrintLines INTERFACE]) /\
   initBoard (4 + gas) BOARD_SIZE junk = Undefined /\
   main fuel (4 + gas) term junk = Undefined).
Proof.
  unfold main, initInterface, freeInterface. simpl. split; intros Hok;
    rewrite Hok; simpl.
  - destruct (size_ok term 1); reflexivity.
  - split; [reflexivity|]. split; reflexivity.
Qed.

Lemma main_outcome_witness :
  let term := mkTerminal (fun _ => "q"%char) (fun _ => true) in
  size_ok term 0 = true /\
  main 9 (4 + 6) term (fun _ => EMPTY) = Undefined.
Proof.
  intros term.
  assert (Hok : size_ok term 0 = true) by reflexivity.
  split; [exact Hok|].
  exact (proj2 (proj2 (proj2 (main_outcome 9 6 term (fun _ => EMPTY)) Hok))).
Defined.

(** ** The tests of the board as executable predicates *)

Lemma cell_is_holds (board : board_t) (k : Z) (symbol : ascii) :
  0 <= k -> (cell_is board k symbol = true <-> holds board k symbol).
Proof.
  intros Hk. unfold cell_is, holds.
  destruct (cells board !! Z.to_nat k) as [c|].
  - destruct (Ascii.eqb_spec c symbol) as [-> | Hne].
    + tauto.
    + split; [discriminate | intros [_ [= Heq]]; contradiction].
  - split; [discriminate | intros [_ [=]]].
Qed.

Lemma forallb_indices (n : Z) (f : Z -> bool) :
  forallb f (indices n) = true <-> forall i, 0 <= i < n -> f i = true.
Proof.
  rewrite forallb_forall. split; intros H i Hi; apply H; apply In_indices;
    exact Hi.
Qed.

Lemma existsb_indices (n : Z) (f : Z -> bool) :
  existsb f (indices n) = true <-> exists i, 0 <= i < n /\ f i = true.
Proof.
  rewrite existsb_exists. split; intros (i & Hi & Hf); exists i;
    (split; [apply In_indices; exact Hi | exact Hf]).
Qed.

Lemma spec_isWin_has_line (board : board_t) (symbol : ascii) :
  spec_isWin board symbol = true <-> has_line board symbol.
Proof.
  unfold spec_isWin, has_line, full_row, full_col, full_forward_diag,
    full_backward_diag. cbv zeta.
  rewrite !orb_true_iff, !existsb_indices, !forallb_indices.
  assert (Hline : forall f : Z -> Z,
            (forall i, 0 <= i < size board -> 0 <= f i) ->
            ((forall i, 0 <= i < size board ->
                cell_is board (f i) symbol = true) <->
             (forall i, 0 <= i < size board -> holds board (f i) symbol))).
  { intros f Hf. split; intros H i Hi; apply cell_is_holds; auto. }
  rewrite (Hline (fun i => i * size board + i)) by (intros; nia).
  rewrite (Hline (fun i => (size board - 1 - i) * size board + i))
    by (intros; nia).
  assert (Hrow : (exists r, 0 <= r < size board /\
                    forallb (fun i => cell_is board (r * size board + i) symbol)
                      (indices (size board)) = true) <->
                 (exists r, 0 <= r < size board /\
                    forall i, 0 <= i < size board ->
                      holds board (r * size board + i) symbol)).
  { split; intros (r & Hr & H); exists r; (split; [exact Hr|]);
      [rewrite forallb_indices in H | rewrite forallb_indices];
      apply (Hline (fun i => r * size board + i)); auto; intros; nia. }
  assert (Hcol : (exists c, 0 <= c < size board /\
                    forallb (fun i => cell_is board (c + i * size board) symbol)
                      (indices (size board)) = true) <->
                 (exists c, 0 <= c < size board /\
                    forall i, 0 <= i < size board ->
                      holds board (c + i * size board) symbol)).
  { split; intros (c & Hc & H); exists c; (split; [exact Hc|]);
      [rewrite forallb_indices in H | rewrite forallb_indices];
      apply (Hline (fun i => c + i * size board)); auto; intros; nia. }
  rewrite Hrow, Hcol. tauto.
Qed.

Lemma bool_eq_iff (a b : bool) : (a = true <-> b = true) -> a = b.
Proof.
  destruct a, b; intros [H1 H2]; try reflexivity.
  - symmetry. apply H1. reflexivity.
  - apply H2. reflexivity.
Qed.

Lemma isWin_eq (gas : nat) (board : board_t) (symbol : ascii) :
  wf_board board -> size board < Z.of_nat gas ->
  isWin gas board symbol = Done (spec_isWin board symbol).
Proof.
  intros Hwf Hgas.
  destruct (isWin_spec gas board symbol Hwf Hgas) as [v [-> Hiff]].
  f_equal. apply bool_eq_iff. rewrite Hiff, spec_isWin_has_line. tauto.
Qed.

Lemma isDraw_eq (gas : nat) (board : board_t) :
  small_board board -> size board * size board < Z.of_nat gas ->
  isDraw gas board = Done (spec_isDraw board).
Proof.
  intros [Hwf H15] Hgas. pose proof Hwf as [Hs Hlen].
  destruct (isDraw_spec gas board Hwf H15 Hgas) as [v [-> Hiff]].
  f_equal. apply bool_eq_iff. rewrite Hiff. unfold spec_isDraw.
  rewrite !andb_true_iff, !negb_true_iff, forallb_indices.
  rewrite <- !not_true_iff_false, !spec_isWin_has_line.
  assert (Hfull : no_empty_cell board <->
            forall i, 0 <= i < size board * size board ->
              negb (cell_is board i EMPTY) = true).
  { split.
    - intros Hno i Hi. apply negb_true_iff, not_true_iff_false.
      intros Hc. apply cell_is_holds in Hc; [|lia]. elim (Hno i Hc).
    - intros Hall k Hh. pose proof (holds_in_block _ _ _ Hh) as Hk.
      specialize (Hall k ltac:(lia)).
      apply negb_true_iff, not_true_iff_false in Hall. apply Hall.
      apply cell_is_holds; [lia | exact Hh]. }
  rewrite Hfull. tauto.
Qed.

Lemma isValidMove_eq (board : board_t) (cell : Z) (symbol : ascii) :
  wf_board board -> symbol <> EMPTY ->
  0 <= cell < size board * size board ->
  isValidMove board cell symbol = Done (cell_is board cell EMPTY).
Proof.
  intros Hwf Hne Hc.
  destruct (isValidMove_total board cell symbol Hwf) as [v [-> Hiff]].
  f_equal. apply bool_eq_iff. rewrite Hiff, cell_is_holds by lia.
  split; [intros [_ [He | Hh]]; [contradiction | exact Hh] | auto].
Qed.

(** ** Pruning *)

Lemma moves_below_succ (board : board_t) (j : Z) :
  0 <= j ->
  moves_below board (j + 1)
  = moves_below board j ++ (if cell_is board j EMPTY then [j] else []).
Proof.
  intros Hj. unfold moves_below.
  rewrite seqZ_app by lia. rewrite List.filter_app. f_equal.
Qed.

Lemma moves_below_split (board : board_t) (j n : Z) :
  0 <= j <= n ->
  exists rest, moves_below board n = moves_below board j ++ rest.
Proof.
  intros Hj. unfold moves_below.
  replace n with (j + (n - j)) by lia.
  rewrite seqZ_app by lia. rewrite List.filter_app. eauto.
Qed.

Lemma fold_min_le_init (g : Z -> Z) (l : list Z) (a : Z) :
  fold_left (fun worst cell => Z.min worst (g cell)) l a <= a.
Proof.
  revert a. induction l as [|c l IH]; intros a; simpl; [lia|].
  specialize (IH (Z.min a (g c))). lia.
Qed.

Lemma fold_max_ge_init (g : Z -> Z) (l : list Z) (a : Z) :
  a <= fold_left (fun best cell => Z.max best (g cell)) l a.
Proof.
  revert a. induction l as [|c l IH]; intros a; simpl; [lia|].
  specialize (IH (Z.max a (g c))). lia.
Qed.

Lemma fold_min_range (g : Z -> Z) (l : list Z) (a lo hi : Z) :
  (forall c, lo <= g c <= hi) -> lo <= a <= hi ->
  lo <= fold_left (fun worst cell => Z.min worst (g cell)) l a <= hi.
Proof.
  intros Hg. revert a. induction l as [|c l IH]; intros a Ha; simpl; [lia|].
  apply IH. specialize (Hg c). lia.
Qed.

Lemma fold_max_range (g : Z -> Z) (l : list Z) (a lo hi : Z) :
  (forall c, lo <= g c <= hi) -> lo <= a <= hi ->
  lo <= fold_left (fun best cell => Z.max best (g cell)) l a <= hi.
Proof.
  intros Hg. revert a. induction l as [|c l IH]; intros a Ha; simpl; [lia|].
  apply IH. specialize (Hg c). lia.
Qed.

Lemma code_value_range (plies : nat) (maximize : bool) (board : board_t)
    (self other : ascii) (depth : Z) :
  -128 <= code_value plies maximize board self other depth <= 127.
Proof.
  revert maximize board depth.
  induction plies as [|p IH]; intros maximize board depth.
  - simpl. unfold SCORE_DRAW. lia.
  - cbn [code_value]. destruct maximize.
    + destruct (spec_isWin board self); [apply to_int8_range|].
      destruct (spec_isDraw board); [apply to_int8_range|].
      apply fold_max_range; [intros c; apply IH|].
      unfold SCORE_LOSE, INT8_MIN. lia.
    + destruct (spec_isWin board other); [apply to_int8_range|].
      destruct (spec_isDraw board); [apply to_int8_range|].
      apply fold_min_range; [intros c; apply IH|].
      unfold SCORE_WIN, INT8_MAX. lia.
Qed.

Lemma within_bounds_exact (alpha beta value : Z) :
  within_bounds alpha beta value value.
Proof. unfold within_bounds. lia. Qed.

(** The answers of [callee] on boards of size [sz] with fewer than [n]
    empty cells are within the bounds of the values for [p] plies. *)
Lemma minimise_body_sound (callee : search_fn) (gas : nat)
    (self other : ascii) (sz : Z) (p : nat) :
  player other -> sz * sz < Z.of_nat gas ->
  (forall board depth alpha beta,
     small_board board -> size board = sz ->
     (count_empty (cells board) < p)%nat ->
     -128 <= alpha -> alpha < beta -> beta <= 127 ->
     exists score,
       callee board self other depth alpha beta = Done (score, board) /\
       within_bounds alpha beta
         (code_value p true board self other depth) score) ->
  forall board depth alpha beta,
    small_board board -> size board = sz ->
    (count_empty (cells board) < S p)%nat ->
    -128 <= alpha -> alpha < beta -> beta <= 127 ->
    exists score,
      minimise_body callee gas board self other depth alpha beta
      = Done (score, board) /\
      within_bounds alpha beta
        (code_value (S p) false board self other depth) score.
Proof.
  intros Ho Hgas Hcallee board depth alpha beta Hsmall Hsz Hn Ha Hab Hb.
  pose proof Hsmall as [Hwf H15]. pose proof Hwf as [Hs Hlen].
  pose proof (player_not_EMPTY _ Ho) as Hne.
  cbn [code_value]. unfold minimise_body.
  rewrite isWin_eq by (try assumption; nia).
  destruct (spec_isWin board other).
  { cbn [bind]. eexists. split; [reflexivity | apply within_bounds_exact]. }
  cbn [bind]. rewrite isDraw_eq by (try assumption; lia).
  destruct (spec_isDraw board).
  { cbn [bind]. eexists. split; [reflexivity | apply within_bounds_exact]. }
  cbn [bind].
  remember (fun cell =>
              code_value p true (place board cell other) self other
                (to_uint8 (depth + 1))) as g eqn:Hg.
  remember (fun j =>
              fold_left (fun worst cell => Z.min worst (g cell))
                (moves_below board j) SCORE_WIN) as M eqn:HM.
  change (fold_left _ (spec_moves board) SCORE_WIN)
    with ((fun j =>
             fold_left (fun worst cell => Z.min worst
                (code_value p true (place board cell other) self other
                   (to_uint8 (depth + 1))))
               (moves_below board j) SCORE_WIN) (size board * size board)).
  replace (fun j =>
             fold_left (fun worst cell => Z.min worst
                (code_value p true (place board cell other) self other
                   (to_uint8 (depth + 1))))
               (moves_below board j) SCORE_WIN) with M
    by (rewrite HM, Hg; reflexivity).
  assert (Hsucc : forall j, 0 <= j ->
            M (j + 1) = if cell_is board j EMPTY then Z.min (M j) (g j)
                        else M j).
  { intros j Hj. rewrite HM. rewrite moves_below_succ by exact Hj.
    rewrite fold_left_app. destruct (cell_is board j EMPTY); reflexivity. }
  assert (Hmono : forall j, 0 <= j <= size board * size board ->
            M (size board * size board) <= M j).
  { intros j Hj. rewrite HM.
    destruct (moves_below_split board j (size board * size board) Hj)
      as [rest ->].
    rewrite fold_left_app. apply fold_min_le_init. }
  assert (H0 : M 0 = 127) by (rewrite HM; reflexivity).
  clear HM.
  match goal with |- context [for_uint8 gas ?bd ?body 0 ?s0] =>
    destruct (for_uint8_spec
                (fun (j : Z) (st : board_t * Z) =>
                   exists be, st = (board, be) /\ alpha < be /\
                     be = Z.min beta (M j))
                (fun r : Z * board_t =>
                   r = (alpha, board) /\
                   M (size board * size board) <= alpha)
                bd body ltac:(unfold getSize; nia))
      with (gas := gas) (i := 0) (s := s0) as [x [Hx Hpost]]
  end.
  - intros j st Hj (be & -> & Habe & Hbe). unfold getSize in Hj.
    rewrite isValidMove_eq by (try assumption; lia).
    specialize (Hsucc j ltac:(lia)).
    destruct (cell_is board j EMPTY) eqn:Hv.
    + assert (Hvm : isValidMove board j other = Done true)
        by (rewrite isValidMove_eq by (try assumption; lia);
            rewrite Hv; reflexivity).
      destruct (setCell_move board j other Hwf Ho Hvm)
        as (b1 & H1 & Hwf1 & Hsz1 & Hcnt & H2).
      assert (Hb1 : b1 = place board j other).
      { pose proof (setCell_Done _ _ _ _ H1) as (_ & _ & _ & ->).
        reflexivity. }
      destruct (Hcallee b1 (to_uint8 (depth + 1)) alpha be)
        as (r & Hr & S1 & S2 & S3);
        [split; [exact Hwf1 | lia] | lia | lia | lia | lia | lia |].
      rewrite Hb1 in Hr, S1, S2, S3.
      replace (code_value p true (place board j other) self other
                 (to_uint8 (depth + 1))) with (g j) in S1, S2, S3
        by (rewrite Hg; reflexivity).
      cbn [bind]. rewrite H1. cbn [bind]. rewrite Hb1. rewrite Hr.
      cbn [bind]. rewrite <- Hb1. rewrite H2. cbn [bind].
      rewrite (proj1 (min_max_Z be r)).
      destruct (Z.leb_spec (Z.min be r) alpha) as [Hle | Hgt];
        eexists; (split; [reflexivity|]).
      * split; [reflexivity|].
        assert (Hgj : g j <= alpha).
        { destruct (Z_le_gt_dec (g j) alpha) as [|Hg1]; [assumption|].
          destruct (Z_lt_le_dec (g j) be) as [Hg2|Hg2];
            [specialize (S3 ltac:(lia)) | specialize (S2 Hg2)]; lia. }
        specialize (Hmono (j + 1) ltac:(lia)). lia.
      * exists (Z.min be r). split; [reflexivity|]. split; [lia|].
        rewrite Hsucc.
        destruct (Z_le_gt_dec (g j) alpha) as [Hg1|Hg1];
          [specialize (S1 Hg1); lia|].
        destruct (Z_lt_le_dec (g j) be) as [Hg2|Hg2];
          [specialize (S3 ltac:(lia)) | specialize (S2 Hg2)]; lia.
    + cbn [bind]. eexists. split; [reflexivity|].
      exists be. split; [reflexivity|]. split; [lia|].
      rewrite Hsucc. exact Hbe.
  - unfold getSize. nia.
  - unfold getSize. lia.
  - exists beta. split; [reflexivity|]. split; [lia|]. rewrite H0. lia.
  - rewrite Hx. destruct x as [st | r]; simpl in Hpost.
    + destruct Hpost as (be & -> & Habe & Hbe). simpl.
      exists be. split; [reflexivity|]. unfold getSize in Hbe.
      unfold within_bounds. lia.
    + destruct Hpost as [-> Hle]. simpl.
      exists alpha. split; [reflexivity|]. unfold within_bounds. lia.
Qed.

Lemma maximise_body_sound (callee : search_fn) (gas : nat)
    (self other : ascii) (sz : Z) (p : nat) :
  player self -> sz * sz < Z.of_nat gas ->
  (forall board depth alpha beta,
     small_board board -> size board = sz ->
     (count_empty (cells board) < p)%nat ->
     -128 <= alpha -> alpha < beta -> beta <= 127 ->
     exists score,
       callee board self other depth alpha beta = Done (score, board) /\
       within_bounds alpha beta
         (code_value p false board self other depth) score) ->
  forall board depth alpha beta,
    small_board board -> size board = sz ->
    (count_empty (cells board) < S p)%nat ->
    -128 <= alpha -> alpha < beta -> beta <= 127 ->
    exists score,
      maximise_body callee gas board self other depth alpha beta
      = Done (score, board) /\
      within_bounds alpha beta
        (code_value (S p) true board self other depth) score.
Proof.
  intros Ho Hgas Hcallee board depth alpha beta Hsmall Hsz Hn Ha Hab Hb.
  pose proof Hsmall as [Hwf H15]. pose proof Hwf as [Hs Hlen].
  pose proof (player_not_EMPTY _ Ho) as Hne.
  cbn [code_value]. unfold maximise_body.
  rewrite isWin_eq by (try assumption; nia).
  destruct (spec_isWin board self).
  { cbn [bind]. eexists. split; [reflexivity | apply within_bounds_exact]. }
  cbn [bind]. rewrite isDraw_eq by (try assumption; lia).
  destruct (spec_isDraw board).
  { cbn [bind]. eexists. split; [reflexivity | apply within_bounds_exact]. }
  cbn [bind].
  remember (fun cell =>
              code_value p false (place board cell self) self other
                (to_uint8 (depth + 1))) as g eqn:Hg.
  remember (fun j =>
              fold_left (fun best cell => Z.max best (g cell))
                (moves_below board j) SCORE_LOSE) as M eqn:HM.
  change (fold_left _ (spec_moves board) SCORE_LOSE)
    with ((fun j =>
             fold_left (fun best cell => Z.max best
                (code_value p false (place board cell self) self other
                   (to_uint8 (depth + 1))))
               (moves_below board j) SCORE_LOSE) (size board * size board)).
  replace (fun j =>
             fold_left (fun best cell => Z.max best
                (code_value p false (place board cell self) self other
                   (to_uint8 (depth + 1))))
               (moves_below board j) SCORE_LOSE) with M
    by (rewrite HM, Hg; reflexivity).
  assert (Hsucc : forall j, 0 <= j ->
            M (j + 1) = if cell_is board j EMPTY then Z.max (M j) (g j)
                        else M j).
  { intros j Hj. rewrite HM. rewrite moves_below_succ by exact Hj.
    rewrite fold_left_app. destruct (cell_is board j EMPTY); reflexivity. }
  assert (Hmono : forall j, 0 <= j <= size board * size board ->
            M j <= M (size board * size board)).
  { intros j Hj. rewrite HM.
    destruct (moves_below_split board j (size board * size board) Hj)
      as [rest ->].
    rewrite fold_left_app. apply fold_max_ge_init. }
  assert (H0 : M 0 = -128) by (rewrite HM; reflexivity).
  clear HM.
  match goal with |- context [for_uint8 gas ?bd ?body 0 ?s0] =>
    destruct (for_uint8_spec
                (fun (j : Z) (st : board_t * Z) =>
                   exists al, st = (board, al) /\ al < beta /\
                     al = Z.max alpha (M j))
                (fun r : Z * board_t =>
                   r = (beta, board) /\
                   beta <= M (size board * size board))
                bd body ltac:(unfold getSize; nia))
      with (gas := gas) (i := 0) (s := s0) as [x [Hx Hpost]]
  end.
  - intros j st Hj (al & -> & Habe & Hal). unfold getSize in Hj.
    rewrite isValidMove_eq by (try assumption; lia).
    specialize (Hsucc j ltac:(lia)).
    destruct (cell_is board j EMPTY) eqn:Hv.
    + assert (Hvm : isValidMove board j self = Done true)
        by (rewrite isValidMove_eq by (try assumption; lia);
            rewrite Hv; reflexivity).
      destruct (setCell_move board j self Hwf Ho Hvm)
        as (b1 & H1 & Hwf1 & Hsz1 & Hcnt & H2).
      assert (Hb1 : b1 = place board j self).
      { pose proof (setCell_Done _ _ _ _ H1) as (_ & _ & _ & ->).
        reflexivity. }
      destruct (Hcallee b1 (to_uint8 (depth + 1)) al beta)
        as (r & Hr & S1 & S2 & S3);
        [split; [exact Hwf1 | lia] | lia | lia | lia | lia | lia |].
      rewrite Hb1 in Hr, S1, S2, S3.
      replace (code_value p false (place board j self) self other
                 (to_uint8 (depth + 1))) with (g j) in S1, S2, S3
        by (rewrite Hg; reflexivity).
      cbn [bind]. rewrite H1. cbn [bind]. rewrite Hb1. rewrite Hr.
      cbn [bind]. rewrite <- Hb1. rewrite H2. cbn [bind].
      rewrite (proj2 (min_max_Z al r)).
      destruct (Z.geb_spec (Z.max al r) beta) as [Hge | Hlt];
        eexists; (split; [reflexivity|]).
      * split; [reflexivity|].
        assert (Hgj : beta <= g j).
        { destruct (Z_le_gt_dec beta (g j)) as [|Hg1]; [assumption|].
          destruct (Z_lt_le_dec al (g j)) as [Hg2|Hg2];
            [specialize (S3 ltac:(lia)) | specialize (S1 Hg2)]; lia. }
        specialize (Hmono (j + 1) ltac:(lia)). lia.
      * exists (Z.max al r). split; [reflexivity|]. split; [lia|].
        rewrite Hsucc.
        destruct (Z_le_gt_dec beta (g j)) as [Hg1|Hg1];
          [specialize (S2 Hg1); lia|].
        destruct (Z_lt_le_dec al (g j)) as [Hg2|Hg2];
          [specialize (S3 ltac:(lia)) | specialize (S1 Hg2)]; lia.
    + cbn [bind]. eexists. split; [reflexivity|].
      exists al. split; [reflexivity|]. split; [lia|].
      rewrite Hsucc. exact Hal.
  - unfold getSize. nia.
  - unfold getSize. lia.
  - exists alpha. split; [reflexivity|]. split; [lia|]. rewrite H0. lia.
  - rewrite Hx. destruct x as [st | r]; simpl in Hpost.
    + destruct Hpost as (al & -> & Habe & Hal). simpl.
      exists al. split; [reflexivity|]. unfold getSize in Hal.
      unfold within_bounds. lia.
    + destruct Hpost as [-> Hle]. simpl.
      exists beta. split; [reflexivity|]. unfold within_bounds. lia.
Qed.

Lemma search_sound (gas : nat) (self other : ascii) (sz : Z) :
  player self -> player other -> sz * sz < Z.of_nat gas ->
  forall fuel : nat,
    (forall board depth alpha beta,
       small_board board -> size board = sz ->
       (count_empty (cells board) < fuel)%nat ->
       -128 <= alpha -> alpha < beta -> beta <= 127 ->
       exists score,
         minimise fuel gas board self other depth alpha beta
         = Done (score, board) /\
         within_bounds alpha beta
           (code_value fuel false board self other depth) score) /\
    (forall board depth alpha beta,
       small_board board -> size board = sz ->
       (count_empty (cells board) < fuel)%nat ->
       -128 <= alpha -> alpha < beta -> beta <= 127 ->
       exists score,
         maximise fuel gas board self other depth alpha beta
         = Done (score, board) /\
         within_bounds alpha beta
           (code_value fuel true board self other depth) score).
Proof.
  intros Hs Ho Hgas fuel. induction fuel as [|f [IHmin IHmax]].
  - split; intros board depth alpha beta _ _ Hn; lia.
  - split.
    + exact (minimise_body_sound _ gas self other sz f Ho Hgas IHmax).
    + exact (maximise_body_sound _ gas self other sz f Hs Hgas IHmin).
Qed.

(** X27.  Pruning is sound.  On a board of at most 15 x 15 cells, with
    bounds [-128 <= alpha < beta <= 127], [minimise] and [maximise] return,
    hand the board back as it was, and answer within the bounds of the
    unpruned value of the position ([code_value]): that value itself when
    it lies strictly between [alpha] and [beta], something at most [alpha]
    when the value is at most [alpha], something at least [beta] when the
    value is at least [beta]. *)
Theorem pruning_is_sound (fuel gas : nat) (board : board_t)
    (self other : ascii) (depth alpha beta : Z) :
  small_board board -> player self -> player other ->
  size board * size board < Z.of_nat gas ->
  (count_empty (cells board) < fuel)%nat ->
  -128 <= alpha -> alpha < beta -> beta <= 127 ->
  (exists score,
     minimise fuel gas board self other depth alpha beta
     = Done (score, board) /\
     within_bounds alpha beta
       (code_value fuel false board self other depth) score) /\
  (exists score,
     maximise fuel gas board self other depth alpha beta
     = Done (score, board) /\
     within_bounds alpha beta
       (code_value fuel true board self other depth) score).
Proof.
  intros Hsmall Hs Ho Hgas Hn Ha Hab Hb.
  destruct (search_sound gas self other (size board) Hs Ho Hgas fuel)
    as [Hmin Hmax].
  split; [apply Hmin | apply Hmax]; auto.
Qed.

Lemma pruning_is_sound_witness :
  small_board board_slow /\ player NOUGHT /\ player CROSS /\
  size board_slow * size board_slow < Z.of_nat 10 /\
  (count_empty (cells board_slow) < 4)%nat /\
  (exists score,
     minimise 4 10 board_slow NOUGHT CROSS 1 0 100
     = Done (score, board_slow) /\
     within_bounds 0 100
       (code_value 4 false board_slow NOUGHT CROSS 1) score) /\
  (exists score,
     maximise 4 10 board_slow NOUGHT CROSS 1 0 100
     = Done (score, board_slow) /\
     within_bounds 0 100
       (code_value 4 true board_slow NOUGHT CROSS 1) score).
Proof.
  assert (Hb : small_board board_slow) by (repeat split; simpl; lia).
  assert (Hn : player NOUGHT) by (left; reflexivity).
  assert (Hc : player CROSS) by (right; reflexivity).
  assert (Hg : size board_slow * size board_slow < Z.of_nat 10)
    by (simpl; lia).
  assert (He : (count_empty (cells board_slow) < 4)%nat) by (simpl; lia).
  split; [exact Hb|]. split; [exact Hn|]. split; [exact Hc|].
  split; [exact Hg|]. split; [exact He|].
  exact (pruning_is_sound 4 10 board_slow NOUGHT CROSS 1 0 100
           Hb Hn Hc Hg He ltac:(lia) ltac:(lia) ltac:(lia)).
Defined.

(** X28.  With the widest bounds nothing is lost: called with
    [alpha = SCORE_LOSE] and [beta = SCORE_WIN], [minimise] and [maximise]
    return exactly the unpruned value of the position. *)
Theorem widest_bounds_exact (fuel gas : nat) (board : board_t)
    (self other : ascii) (depth : Z) :
  small_board board -> player self -> player other ->
  size board * size board < Z.of_nat gas ->
  (count_empty (cells board) < fuel)%nat ->
  minimise fuel gas board self other depth SCORE_LOSE SCORE_WIN
  = Done (code_value fuel false board self other depth, board) /\
  maximise fuel gas board self other depth SCORE_LOSE SCORE_WIN
  = Done (code_value fuel true board self other depth, board).
Proof.
  intros Hsmall Hs Ho Hgas Hn.
  destruct (search_sound gas self other (size board) Hs Ho Hgas fuel)
    as [Hmin Hmax].
  destruct (search_fits gas fuel) as [Fmin Fmax].
  change SCORE_LOSE with (-128). change SCORE_WIN with 127.
  split.
  - destruct (Hmin board depth (-128) 127) as (r & Hr & S1 & S2 & S3);
      try assumption; try reflexivity; try lia.
    pose proof (Fmin board self other depth (-128) 127 r board
                  ltac:(lia) ltac:(lia) Hr) as Hrange.
    pose proof (code_value_range fuel false board self other depth) as Hv.
    rewrite Hr. do 2 f_equal.
    destruct (Z.eq_dec (code_value fuel false board self other depth) (-128));
      [lia|].
    destruct (Z.eq_dec (code_value fuel false board self other depth) 127);
      [lia|]. apply S3. lia.
  - destruct (Hmax board depth (-128) 127) as (r & Hr & S1 & S2 & S3);
      try assumption; try reflexivity; try lia.
    pose proof (Fmax board self other depth (-128) 127 r board
                  ltac:(lia) ltac:(lia) Hr) as Hrange.
    pose proof (code_value_range fuel true board self other depth) as Hv.
    rewrite Hr. do 2 f_equal.
    destruct (Z.eq_dec (code_value fuel true board self other depth) (-128));
      [lia|].
    destruct (Z.eq_dec (code_value fuel true board self other depth) 127);
      [lia|]. apply S3. lia.
Qed.

Lemma widest_bounds_exact_witness :
  small_board board_slow /\ player NOUGHT /\ player CROSS /\
  size board_slow * size board_slow < Z.of_nat 10 /\
  (count_empty (cells board_slow) < 4)%nat /\
  minimise 4 10 board_slow NOUGHT CROSS 1 SCORE_LOSE SCORE_WIN
  = Done (code_value 4 false board_slow NOUGHT CROSS 1, board_slow) /\
  maximise 4 10 board_slow NOUGHT CROSS 1 SCORE_LOSE SCORE_WIN
  = Done (code_value 4 true board_slow NOUGHT CROSS 1, board_slow).
Proof.
  assert (Hb : small_board board_slow) by (repeat split; simpl; lia).
  assert (Hn : player NOUGHT) by (left; reflexivity).
  assert (Hc : player CROSS) by (right; reflexivity).
  assert (Hg : size board_slow * size board_slow < Z.of_nat 10)
    by (simpl; lia).
  assert (He : (count_empty (cells board_slow) < 4)%nat) by (simpl; lia).
  split; [exact Hb|]. split; [exact Hn|]. split; [exact Hc|].
  split; [exact Hg|]. split; [exact He|].
  exact (widest_bounds_exact 4 10 board_slow NOUGHT CROSS 1 Hb Hn Hc Hg He).
Defined.

(** X29.  [getBestMove] without its pruning.  On a board of at most
    15 x 15 cells [getBestMove] returns the first cell, in ascending order,
    whose unpruned value at depth 1 is the highest of all valid cells, with
    the board as it was; and its final assertion fails exactly when no
    valid cell has a value above [SCORE_LOSE]. *)
Theorem getBestMove_exhaustive (fuel gas : nat) (board : board_t)
    (symbolSelf : ascii) :
  small_board board -> player symbolSelf ->
  size board * size board < Z.of_nat gas ->
  (count_empty (cells board) <= fuel)%nat ->
  getBestMove fuel gas board symbolSelf
  = match fst (code_best fuel board symbolSelf) with
    | Some cell => Done (cell, board)
    | None => AssertFailed
    end.
Proof.
  intros Hsmall Hp Hgas Hn. pose proof Hsmall as [Hwf H15].
  pose proof Hwf as [Hs Hlen].
  pose proof (player_not_EMPTY _ Hp) as Hne.
  unfold getBestMove, getBestMove_body, code_best.
  set (other := if Ascii.eqb symbolSelf NOUGHT then CROSS else NOUGHT).
  assert (Ho : player other) by apply other_player.
  change (to_int8 SCORE_LOSE) with (-128).
  change (to_int8 SCORE_WIN) with 127.
  destruct (search_sound gas symbolSelf other (size board) Hp Ho Hgas fuel)
    as [Hmin _].
  destruct (search_total gas symbolSelf other (size board) Hp Ho Hgas fuel)
    as [Tmin _].
  destruct (search_fits gas fuel) as [Fmin _].
  remember (fun cell =>
              code_value fuel false (place board cell symbolSelf)
                symbolSelf other 1) as g eqn:Hg.
  remember (fun j =>
              fold_left
                (fun (st : option Z * Z) cell =>
                   if g cell >? snd st then (Some cell, g cell) else st)
                (moves_below board j) (None, SCORE_LOSE)) as B eqn:HB.
  cbv zeta.
  replace (fold_left _ (spec_moves board) (None, SCORE_LOSE))
    with (B (size board * size board)) by (rewrite HB, Hg; reflexivity).
  assert (Hgr : forall c, -128 <= g c <= 127)
    by (intros c; rewrite Hg; apply code_value_range).
  assert (Hsucc : forall j, 0 <= j ->
            B (j + 1) = if cell_is board j EMPTY
                        then (if g j >? snd (B j) then (Some j, g j)
                              else B j)
                        else B j).
  { intros j Hj. rewrite HB. rewrite moves_below_succ by exact Hj.
    rewrite fold_left_app. destruct (cell_is board j EMPTY); reflexivity. }
  assert (H0 : B 0 = (None, -128)) by (rewrite HB; reflexivity).
  clear HB.
  match goal with |- context [for_uint8 gas ?bd ?body 0 ?s0] =>
    destruct (for_uint8_spec
                (fun (j : Z) (st : board_t * Z * option Z) =>
                   st = (board, snd (B j), fst (B j)) /\
                   -128 <= snd (B j) <= 127 /\
                   (fst (B j) = None <-> snd (B j) = -128))
                (fun _ : Z * board_t => False)
                bd body ltac:(unfold getSize; nia))
      with (gas := gas) (i := 0) (s := s0) as [x [Hx Hpost]]
  end.
  - intros j st Hj (-> & Hal & Hnone). unfold getSize in Hj.
    rewrite isValidMove_eq by (try assumption; lia).
    specialize (Hsucc j ltac:(lia)).
    destruct (cell_is board j EMPTY) eqn:Hv.
    + assert (Hvm : isValidMove board j symbolSelf = Done true)
        by (rewrite isValidMove_eq by (try assumption; lia);
            rewrite Hv; reflexivity).
      destruct (setCell_move board j symbolSelf Hwf Hp Hvm)
        as (b1 & H1 & Hwf1 & Hsz1 & Hcnt & H2).
      assert (Hb1 : b1 = place board j symbolSelf).
      { pose proof (setCell_Done _ _ _ _ H1) as (_ & _ & _ & ->).
        reflexivity. }
      assert (Hr : exists r,
                 minimise fuel gas b1 symbolSelf other 1 (snd (B j)) 127
                 = Done (r, b1) /\
                 (r >? snd (B j)) = (g j >? snd (B j)) /\
                 (snd (B j) < g j -> r = g j)).
      { destruct (Z.eq_dec (snd (B j)) 127) as [E127 | N127].
        - destruct (Tmin b1 1 (snd (B j)) 127) as [r Hr];
            [split; [exact Hwf1 | lia] | lia | lia |].
          pose proof (Fmin b1 symbolSelf other 1 (snd (B j)) 127 r b1
                        ltac:(lia) ltac:(lia) Hr).
          exists r. split; [exact Hr|]. specialize (Hgr j).
          split; [|lia].
          destruct (Z.gtb_spec r (snd (B j)));
            destruct (Z.gtb_spec (g j) (snd (B j))); try reflexivity; lia.
        - destruct (Hmin b1 1 (snd (B j)) 127) as (r & Hr & S1 & S2 & S3);
            [split; [exact Hwf1 | lia] | lia | lia | lia | lia | lia |].
          pose proof (Fmin b1 symbolSelf other 1 (snd (B j)) 127 r b1
                        ltac:(lia) ltac:(lia) Hr).
          rewrite Hb1 in S1, S2, S3.
          replace (code_value fuel false (place board j symbolSelf)
                     symbolSelf other 1) with (g j) in S1, S2, S3
            by (rewrite Hg; reflexivity).
          exists r. split; [exact Hr|]. specialize (Hgr j).
          assert (Hcase : (g j <= snd (B j) /\ r <= snd (B j)) \/
                          (snd (B j) < g j /\ r = g j)).
          { destruct (Z_le_gt_dec (g j) (snd (B j))) as [Hle | Hgt].
            - left. split; [exact Hle | exact (S1 Hle)].
            - right. split; [lia|].
              destruct (Z_lt_le_dec (g j) 127) as [Hlt | Hge];
                [apply S3; lia | specialize (S2 Hge); lia]. }
          split; [|lia].
          destruct (Z.gtb_spec r (snd (B j)));
            destruct (Z.gtb_spec (g j) (snd (B j))); try reflexivity; lia. }
      destruct Hr as (r & Hr & Hcmp & Hval).
      cbn [bind]. rewrite H1. cbn [bind]. rewrite Hr. cbn [bind].
      rewrite H2. cbn [bind]. rewrite Hcmp, Hsucc.
      destruct (Z.gtb_spec (g j) (snd (B j))) as [Hgt | Hle];
        eexists; (split; [reflexivity|]); simpl.
      * rewrite (Hval ltac:(lia)). split; [reflexivity|].
        specialize (Hgr j). split; [lia|]. split; [discriminate | lia].
      * split; [reflexivity|]. split; [exact Hal | exact Hnone].
    + cbn [bind]. eexists. split; [reflexivity|]. simpl.
      rewrite Hsucc. split; [reflexivity|]. split; [exact Hal | exact Hnone].
  - unfold getSize. nia.
  - unfold getSize. lia.
  - rewrite H0. simpl. split; [reflexivity|]. split; [lia | tauto].
  - rewrite Hx. destruct x as [st | []]; simpl in Hpost; [|contradiction].
    destruct Hpost as (-> & Hal & Hnone). unfold getSize in *. simpl.
    destruct (B (size board * size board)) as [best al]. simpl in *.
    destruct (Z.eqb_spec al SCORE_LOSE) as [Heq | Hneq]; simpl.
    + rewrite (proj2 Hnone Heq). reflexivity.
    + destruct best as [cell|]; [reflexivity|].
      elim Hneq. apply Hnone. reflexivity.
Qed.

Lemma getBestMove_exhaustive_witness :
  small_board board_slow /\ player NOUGHT /\
  size board_slow * size board_slow < Z.of_nat 10 /\
  (count_empty (cells board_slow) <= 3)%nat /\
  getBestMove 3 10 board_slow NOUGHT
  = match fst (code_best 3 board_slow NOUGHT) with
    | Some cell => Done (cell, board_slow)
    | None => AssertFailed
    end.
Proof.
  assert (Hb : small_board board_slow) by (repeat split; simpl; lia).
  assert (Hn : player NOUGHT) by (left; reflexivity).
  assert (Hg : size board_slow * size board_slow < Z.of_nat 10)
    by (simpl; lia).
  assert (He : (count_empty (cells board_slow) <= 3)%nat) by (simpl; lia).
  split; [exact Hb|]. split; [exact Hn|]. split; [exact Hg|].
  split; [exact He|].
  exact (getBestMove_exhaustive 3 10 board_slow NOUGHT Hb Hn Hg He).
Defined.

(** The unpruned choice on the two boards of the claims: the late win of
    cell 4 scores [SCORE_WIN] and is preferred to the win at once of cell 2,
    and on [board_lost] no cell scores above [SCORE_LOSE]. *)
Example code_best_board_slow :
  code_best 3 board_slow NOUGHT = (Some 4, SCORE_WIN) /\
  code_value 3 false (place board_slow 2 NOUGHT) NOUGHT CROSS 1
  = SCORE_WIN - 2.
Proof. split; vm_compute; reflexivity. Qed.

Example code_best_board_lost :
  code_best 2 board_lost CROSS = (None, SCORE_LOSE).
Proof. vm_compute. reflexivity. Qed.

(** ** C4, C5: a win that the other step receives *)

Lemma search_widest (fuel gas : nat) (board : board_t) (self other : ascii)
    (depth : Z) :
  small_board board -> player self -> player other ->
  size board * size board < Z.of_nat gas ->
  (count_empty (cells board) < fuel)%nat ->
  minimise fuel gas board self other depth SCORE_LOSE SCORE_WIN
  = Done (code_value fuel false board self other depth, board) /\
  maximise fuel gas board self other depth SCORE_LOSE SCORE_WIN
  = Done (code_value fuel true board self other depth, board).
Proof.
  intros Hsmall Hs Ho Hgas Hn.
  destruct (search_sound gas self other (size board) Hs Ho Hgas fuel)
    as [Hmin Hmax].
  destruct (search_fits gas fuel) as [Fmin Fmax].
  change SCORE_LOSE with (-128). change SCORE_WIN with 127.
  split.
  - destruct (Hmin board depth (-128) 127) as (r & Hr & S1 & S2 & S3);
      try assumption; try reflexivity; try lia.
    pose proof (Fmin board self other depth (-128) 127 r board
                  ltac:(lia) ltac:(lia) Hr) as Hrange.
    pose proof (code_value_range fuel false board self other depth) as Hv.
    rewrite Hr. do 2 f_equal.
    destruct (Z.eq_dec (code_value fuel false board self other depth) (-128));
      [lia|].
    destruct (Z.eq_dec (code_value fuel false board self other depth) 127);
      [lia|]. apply S3. lia.
  - destruct (Hmax board depth (-128) 127) as (r & Hr & S1 & S2 & S3);
      try assumption; try reflexivity; try lia.
    pose proof (Fmax board self other depth (-128) 127 r board
                  ltac:(lia) ltac:(lia) Hr) as Hrange.
    pose proof (code_value_range fuel true board self other depth) as Hv.
    rewrite Hr. do 2 f_equal.
    destruct (Z.eq_dec (code_value fuel true board self other depth) (-128));
      [lia|].
    destruct (Z.eq_dec (code_value fuel true board self other depth) 127);
      [lia|]. apply S3. lia.
Qed.

Lemma In_spec_moves (board : board_t) (c : Z) :
  In c (spec_moves board) <->
  0 <= c < size board * size board /\ cell_is board c EMPTY = true.
Proof.
  unfold spec_moves. rewrite List.filter_In, In_indices. tauto.
Qed.

Lemma empty_cell_is_move (board : board_t) (k : Z) :
  holds board k EMPTY -> wf_board board -> In k (spec_moves board).
Proof.
  intros Hk [_ Hlen]. pose proof (holds_in_block _ _ _ Hk) as Hr.
  apply In_spec_moves. split; [lia|]. apply cell_is_holds; [lia | exact Hk].
Qed.

Lemma spec_isDraw_open (board : board_t) (k : Z) :
  wf_board board -> holds board k EMPTY -> spec_isDraw board = false.
Proof.
  intros Hwf Hk. apply not_true_iff_false. intros Hd. unfold spec_isDraw in Hd.
  apply andb_prop in Hd as [_ Hall]. rewrite forallb_indices in Hall.
  pose proof (empty_cell_is_move board k Hk Hwf) as Hin.
  apply In_spec_moves in Hin as [Hr Hc].
  specialize (Hall k Hr). rewrite Hc in Hall. discriminate.
Qed.

Lemma count_empty_pos (board : board_t) (k : Z) :
  holds board k EMPTY -> (1 <= count_empty (cells board))%nat.
Proof.
  intros [_ Hk].
  pose proof (count_empty_insert (cells board) (Z.to_nat k) NOUGHT Hk
                ltac:(discriminate)). lia.
Qed.

(** A line stays when another cell, empty so far, is taken. *)
Lemma has_line_place (board : board_t) (c : Z) (symbol mover : ascii) :
  symbol <> EMPTY -> cell_is board c EMPTY = true -> 0 <= c ->
  has_line board symbol -> has_line (place board c mover) symbol.
Proof.
  intros Hne Hc Hc0. apply has_line_mono; [reflexivity|].
  intros k [Hk0 Hk]. split; [exact Hk0|]. simpl.
  destruct (Z.eq_dec k c) as [-> | Hkc].
  - apply cell_is_holds in Hc as [_ Hc]; [|exact Hc0]. congruence.
  - rewrite list_lookup_insert_ne by lia. exact Hk.
Qed.

Lemma fold_min_const (g : Z -> Z) (l : list Z) (v : Z) :
  l <> [] -> (forall c, In c l -> g c = v) -> v <= SCORE_WIN ->
  fold_left (fun worst cell => Z.min worst (g cell)) l SCORE_WIN = v.
Proof.
  intros Hl Hg Hv.
  assert (Hstay : forall l', (forall c, In c l' -> g c = v) ->
            fold_left (fun worst cell => Z.min worst (g cell)) l' v = v).
  { induction l' as [|c l' IH]; intros Hg'; simpl; [reflexivity|].
    rewrite (Hg' c) by (left; reflexivity). rewrite Z.min_id.
    apply IH. intros c' Hc'. apply Hg'. right. exact Hc'. }
  destruct l as [|c l]; [contradiction|]. simpl.
  rewrite (Hg c) by (left; reflexivity).
  rewrite Z.min_r by exact Hv.
  apply Hstay. intros c' Hc'. apply Hg. right. exact Hc'.
Qed.

Lemma fold_max_const (g : Z -> Z) (l : list Z) (v : Z) :
  l <> [] -> (forall c, In c l -> g c = v) -> SCORE_LOSE <= v ->
  fold_left (fun best cell => Z.max best (g cell)) l SCORE_LOSE = v.
Proof.
  intros Hl Hg Hv.
  assert (Hstay : forall l', (forall c, In c l' -> g c = v) ->
            fold_left (fun best cell => Z.max best (g cell)) l' v = v).
  { induction l' as [|c l' IH]; intros Hg'; simpl; [reflexivity|].
    rewrite (Hg' c) by (left; reflexivity). rewrite Z.max_id.
    apply IH. intros c' Hc'. apply Hg'. right. exact Hc'. }
  destruct l as [|c l]; [contradiction|]. simpl.
  rewrite (Hg c) by (left; reflexivity).
  rewrite Z.max_r by exact Hv.
  apply Hstay. intros c' Hc'. apply Hg. right. exact Hc'.
Qed.

Lemma board_won_line : has_line board_won NOUGHT.
Proof.
  left. exists 0. split; [simpl; lia|]. intros i Hi. simpl in Hi.
  assert (Hi' : i = 0 \/ i = 1 \/ i = 2) by lia.
  destruct Hi' as [-> | [-> | ->]]; (split; [simpl; lia | reflexivity]).
Qed.

Lemma board_won_no_line : ~ has_line board_won CROSS.
Proof.
  rewrite <- spec_isWin_has_line. vm_compute. discriminate.
Qed.

(** C4.  A win is scored by one of the two steps only: [maximise] tests
    the win of symbolSelf, [minimise] the win of the opponent.  A position
    that symbolSelf has won and that has an empty cell left comes to
    [minimise], which tries the opponent's moves on it and answers
    [SCORE_WIN - (depth + 1)], not [SCORE_WIN - depth]; a position that
    the opponent has won comes to [maximise], which answers
    [SCORE_LOSE + (depth + 1)], not [SCORE_LOSE + depth].  So the candidate
    move that wins at once is scored [SCORE_WIN - 2] by the call that
    [getBestMove] makes at depth 1. *)
Theorem win_scored_one_ply_late (fuel gas : nat) (board : board_t)
    (self other : ascii) (depth : Z) (k : Z) :
  small_board board -> player self -> player other ->
  size board * size board < Z.of_nat gas ->
  (count_empty (cells board) < fuel)%nat ->
  0 <= depth < 255 -> holds board k EMPTY ->
  (has_line board self -> ~ has_line board other ->
   minimise fuel gas board self other depth SCORE_LOSE SCORE_WIN
   = Done (SCORE_WIN - (depth + 1), board)) /\
  (has_line board other -> ~ has_line board self ->
   maximise fuel gas board self other depth SCORE_LOSE SCORE_WIN
   = Done (SCORE_LOSE + (depth + 1), board)).
Proof.
  intros Hsmall Hs Ho Hgas Hn Hd Hk. pose proof Hsmall as [Hwf H15].
  pose proof (count_empty_pos board k Hk) as Hpos.
  destruct fuel as [|[|q]]; [lia | lia |].
  destruct (search_widest (S (S q)) gas board self other depth
              Hsmall Hs Ho Hgas Hn) as [Hmin Hmax].
  assert (Hmoves : spec_moves board <> []).
  { intros Hnil. pose proof (empty_cell_is_move board k Hk Hwf) as Hin.
    rewrite Hnil in Hin. exact Hin. }
  split; intros Hwon Hnot.
  - rewrite Hmin. do 2 f_equal.
    change (code_value (S (S q)) false board self other depth)
      with (if spec_isWin board other then to_int8 (SCORE_LOSE + depth)
            else if spec_isDraw board then to_int8 SCORE_DRAW
            else fold_left
                   (fun worst cell =>
                      Z.min worst
                        (code_value (S q) true (place board cell other)
                           self other (to_uint8 (depth + 1))))
                   (spec_moves board) SCORE_WIN).
    replace (spec_isWin board other) with false
      by (symmetry; apply not_true_iff_false; rewrite spec_isWin_has_line;
          exact Hnot).
    rewrite (spec_isDraw_open board k Hwf Hk).
    apply (fold_min_const
             (fun cell => code_value (S q) true (place board cell other)
                            self other (to_uint8 (depth + 1)))).
    + exact Hmoves.
    + intros c Hc. apply In_spec_moves in Hc as [Hr Hv].
      cbn [code_value].
      replace (spec_isWin (place board c other) self) with true
        by (symmetry; apply spec_isWin_has_line; apply has_line_place;
            [apply player_not_EMPTY; exact Hs | exact Hv | lia | exact Hwon]).
      rewrite to_uint8_small by lia.
      apply to_int8_small. unfold SCORE_WIN, INT8_MAX. lia.
    + lia.
  - rewrite Hmax. do 2 f_equal.
    change (code_value (S (S q)) true board self other depth)
      with (if spec_isWin board self then to_int8 (SCORE_WIN - depth)
            else if spec_isDraw board then to_int8 SCORE_DRAW
            else fold_left
                   (fun best cell =>
                      Z.max best
                        (code_value (S q) false (place board cell self)
                           self other (to_uint8 (depth + 1))))
                   (spec_moves board) SCORE_LOSE).
    replace (spec_isWin board self) with false
      by (symmetry; apply not_true_iff_false; rewrite spec_isWin_has_line;
          exact Hnot).
    rewrite (spec_isDraw_open board k Hwf Hk).
    apply (fold_max_const
             (fun cell => code_value (S q) false (place board cell self)
                            self other (to_uint8 (depth + 1)))).
    + exact Hmoves.
    + intros c Hc. apply In_spec_moves in Hc as [Hr Hv].
      cbn [code_value].
      replace (spec_isWin (place board c self) other) with true
        by (symmetry; apply spec_isWin_has_line; apply has_line_place;
            [apply player_not_EMPTY; exact Ho | exact Hv | lia | exact Hwon]).
      rewrite to_uint8_small by lia.
      apply to_int8_small. unfold SCORE_LOSE, INT8_MIN. lia.
    + lia.
Qed.

Lemma win_scored_one_ply_late_witness :
  small_board board_won /\ player NOUGHT /\ player CROSS /\
  size board_won * size board_won < Z.of_nat 10 /\
  (count_empty (cells board_won) < 5)%nat /\
  0 <= 1 < 255 /\ holds board_won 5 EMPTY /\
  has_line board_won NOUGHT /\ ~ has_line board_won CROSS /\
  minimise 5 10 board_won NOUGHT CROSS 1 SCORE_LOSE SCORE_WIN
  = Done (SCORE_WIN - (1 + 1), board_won).
Proof.
  assert (Hb : small_board board_won) by (repeat split; simpl; lia).
  assert (Hn : player NOUGHT) by (left; reflexivity).
  assert (Hc : player CROSS) by (right; reflexivity).
  assert (Hg : size board_won * size board_won < Z.of_nat 10)
    by (simpl; lia).
  assert (He : (count_empty (cells board_won) < 5)%nat) by (simpl; lia).
  assert (Hd : 0 <= 1 < 255) by lia.
  assert (Hk : holds board_won 5 EMPTY) by (split; [lia | reflexivity]).
  split; [exact Hb|]. split; [exact Hn|]. split; [exact Hc|].
  split; [exact Hg|]. split; [exact He|]. split; [exact Hd|].
  split; [exact Hk|]. split; [exact board_won_line|].
  split; [exact board_won_no_line|].
  exact (proj1 (win_scored_one_ply_late 5 10 board_won NOUGHT CROSS 1 5
                  Hb Hn Hc Hg He Hd Hk)
           board_won_line board_won_no_line).
Defined.

(** C5.  Each step tests one of the two wins only, so a terminal position
    that the other step would have scored is expanded: on a position that
    symbolSelf has won and that has an empty cell left, [minimise] tries
    the opponent's moves and answers what the step it calls for them
    answers, and so does [maximise] on a position that the opponent has
    won. *)
Theorem won_position_is_expanded (gas : nat) (board : board_t)
    (self other : ascii) (depth v k : Z) :
  small_board board -> player self -> player other ->
  size board * size board < Z.of_nat gas ->
  holds board k EMPTY -> -128 <= v <= 127 ->
  (has_line board self -> ~ has_line board other ->
   minimise_body (fun b _ _ _ _ _ => Done (v, b)) gas
     board self other depth SCORE_LOSE SCORE_WIN = Done (v, board)) /\
  (has_line board other -> ~ has_line board self ->
   maximise_body (fun b _ _ _ _ _ => Done (v, b)) gas
     board self other depth SCORE_LOSE SCORE_WIN = Done (v, board)).
Proof.
  intros Hsmall Hs Ho Hgas Hk Hv. pose proof Hsmall as [Hwf H15].
  pose proof Hwf as [Hs0 Hlen].
  pose proof (empty_cell_is_move board k Hk Hwf) as Hin.
  apply In_spec_moves in Hin as [Hkr Hkc].
  change SCORE_LOSE with (-128). change SCORE_WIN with 127.
  split; intros Hwon Hnot.
  - unfold minimise_body.
    rewrite isWin_eq by (try assumption; nia).
    replace (spec_isWin board other) with false
      by (symmetry; apply not_true_iff_false; rewrite spec_isWin_has_line;
          exact Hnot).
    cbn [bind]. rewrite isDraw_eq by (try assumption; lia).
    rewrite (spec_isDraw_open board k Hwf Hk). cbn [bind].
    match goal with |- context [for_uint8 gas ?bd ?body 0 ?s0] =>
      destruct (for_uint8_spec
                  (fun (j : Z) (st : board_t * Z) =>
                     exists be, st = (board, be) /\
                       (be = v \/
                        (be = 127 /\
                         forall i, 0 <= i < j ->
                           cell_is board i EMPTY = false)))
                  (fun r : Z * board_t => r = (v, board))
                  bd body ltac:(unfold getSize; nia))
        with (gas := gas) (i := 0) (s := s0) as [x [Hx Hpost]]
    end.
    + intros j st Hj (be & -> & Hbe). unfold getSize in Hj.
      rewrite isValidMove_eq
        by (try assumption; try lia; apply player_not_EMPTY; exact Ho).
      destruct (cell_is board j EMPTY) eqn:Hc.
      * assert (Hvm : isValidMove board j other = Done true)
          by (rewrite isValidMove_eq
                by (try assumption; try lia; apply player_not_EMPTY; exact Ho);
              rewrite Hc; reflexivity).
        destruct (setCell_move board j other Hwf Ho Hvm)
          as (b1 & H1 & _ & _ & _ & H2).
        cbn [bind]. rewrite H1. cbn [bind]. rewrite H2. cbn [bind].
        rewrite (proj1 (min_max_Z be v)).
        replace (Z.min be v) with v by lia.
        destruct (Z.leb_spec v (-128)) as [Hle | Hgt];
          eexists; (split; [reflexivity|]).
        -- f_equal. lia.
        -- exists v. split; [reflexivity | left; reflexivity].
      * cbn [bind]. eexists. split; [reflexivity|].
        exists be. split; [reflexivity|].
        destruct Hbe as [-> | [-> Hnone]]; [left; reflexivity | right].
        split; [reflexivity|]. intros i Hi.
        destruct (Z.eq_dec i j) as [-> | Hij]; [exact Hc | apply Hnone; lia].
    + unfold getSize. nia.
    + unfold getSize. lia.
    + exists 127. split; [reflexivity|]. right. split; [reflexivity|].
      intros i Hi. lia.
    + rewrite Hx. destruct x as [st | r]; simpl in Hpost.
      * destruct Hpost as (be & -> & [-> | [_ Hnone]]); [reflexivity|].
        unfold getSize in Hnone. rewrite (Hnone k Hkr) in Hkc. discriminate.
      * subst r. reflexivity.
  - unfold maximise_body.
    rewrite isWin_eq by (try assumption; nia).
    replace (spec_isWin board self) with false
      by (symmetry; apply not_true_iff_false; rewrite spec_isWin_has_line;
          exact Hnot).
    cbn [bind]. rewrite isDraw_eq by (try assumption; lia).
    rewrite (spec_isDraw_open board k Hwf Hk). cbn [bind].
    match goal with |- context [for_uint8 gas ?bd ?body 0 ?s0] =>
      destruct (for_uint8_spec
                  (fun (j : Z) (st : board_t * Z) =>
                     exists al, st = (board, al) /\
                       (al = v \/
                        (al = -128 /\
                         forall i, 0 <= i < j ->
                           cell_is board i EMPTY = false)))
                  (fun r : Z * board_t => r = (v, board))
                  bd body ltac:(unfold getSize; nia))
        with (gas := gas) (i := 0) (s := s0) as [x [Hx Hpost]]
    end.
    + intros j st Hj (al & -> & Hal). unfold getSize in Hj.
      rewrite isValidMove_eq
        by (try assumption; try lia; apply player_not_EMPTY; exact Hs).
      destruct (cell_is board j EMPTY) eqn:Hc.
      * assert (Hvm : isValidMove board j self = Done true)
          by (rewrite isValidMove_eq
                by (try assumption; try lia; apply player_not_EMPTY; exact Hs);
              rewrite Hc; reflexivity).
        destruct (setCell_move board j self Hwf Hs Hvm)
          as (b1 & H1 & _ & _ & _ & H2).
        cbn [bind]. rewrite H1. cbn [bind]. rewrite H2. cbn [bind].
        rewrite (proj2 (min_max_Z al v)).
        replace (Z.max al v) with v by lia.
        destruct (Z.geb_spec v 127) as [Hge | Hlt];
          eexists; (split; [reflexivity|]).
        -- f_equal. lia.
        -- exists v. split; [reflexivity | left; reflexivity].
      * cbn [bind]. eexists. split; [reflexivity|].
        exists al. split; [reflexivity|].
        destruct Hal as [-> | [-> Hnone]]; [left; reflexivity | right].
        split; [reflexivity|]. intros i Hi.
        destruct (Z.eq_dec i j) as [-> | Hij]; [exact Hc | apply Hnone; lia].
    + unfold getSize. nia.
    + unfold getSize. lia.
    + exists (-128). split; [reflexivity|]. right. split; [reflexivity|].
      intros i Hi. lia.
    + rewrite Hx. destruct x as [st | r]; simpl in Hpost.
      * destruct Hpost as (al & -> & [-> | [_ Hnone]]); [reflexivity|].
        unfold getSize in Hnone. rewrite (Hnone k Hkr) in Hkc. discriminate.
      * subst r. reflexivity.
Qed.

Lemma won_position_is_expanded_witness :
  small_board board_won /\ player NOUGHT /\ player CROSS /\
  size board_won * size board_won < Z.of_nat 10 /\
  holds board_won 5 EMPTY /\ -128 <= 1 <= 127 /\
  has_line board_won NOUGHT /\ ~ has_line board_won CROSS /\
  minimise_body (fun b _ _ _ _ _ => Done (1, b)) 10
    board_won NOUGHT CROSS 1 SCORE_LOSE SCORE_WIN = Done (1, board_won).
Proof.
  assert (Hb : small_board board_won) by (repeat split; simpl; lia).
  assert (Hn : player NOUGHT) by (left; reflexivity).
  assert (Hc : player CROSS) by (right; reflexivity).
  assert (Hg : size board_won * size board_won < Z.of_nat 10)
    by (simpl; lia).
  assert (Hk : holds board_won 5 EMPTY) by (split; [lia | reflexivity]).
  assert (Hv : -128 <= 1 <= 127) by lia.
  split; [exact Hb|]. split; [exact Hn|]. split; [exact Hc|].
  split; [exact Hg|]. split; [exact Hk|]. split; [exact Hv|].
  split; [exact board_won_line|]. split; [exact board_won_no_line|].
  exact (proj1 (won_position_is_expanded 10 board_won NOUGHT CROSS 1 1 5
                  Hb Hn Hc Hg Hk Hv)
           board_won_line board_won_no_line).
Defined.

(** ** minimax.c: the depth and the scores do not wrap *)

Lemma fold_left_ext_in {A B : Type} (f g : A -> B -> A) (l : list B) (a : A) :
  (forall x c, In c l -> f x c = g x c) ->
  fold_left f l a = fold_left g l a.
Proof.
  revert a. induction l as [|c l IH]; intros a H; simpl; [reflexivity|].
  rewrite (H a c) by (left; reflexivity).
  apply IH. intros x c' Hc'. apply H. right. exact Hc'.
Qed.

Lemma code_value_exact (self other : ascii) (plies : nat) :
  player self -> player other ->
  forall (maximize : bool) (board : board_t) (depth : Z),
    wf_board board -> (count_empty (cells board) < plies)%nat ->
    0 <= depth -> depth + Z.of_nat (count_empty (cells board)) <= 255 ->
    code_value plies maximize board self other depth
    = exact_value plies maximize board self other depth.
Proof.
  intros Hs Ho. induction plies as [|p IH];
    intros maximize board depth Hwf Hn Hd0 Hd; [lia|].
  assert (Hchild : forall mover c m,
            player mover -> In c (spec_moves board) ->
            code_value p m (place board c mover) self other
              (to_uint8 (depth + 1))
            = exact_value p m (place board c mover) self other (depth + 1)).
  { intros mover c m Hm Hc. apply In_spec_moves in Hc as [Hr Hv].
    apply cell_is_holds in Hv as [_ Hv]; [|lia].
    pose proof (count_empty_insert (cells board) (Z.to_nat c) mover Hv
                  (player_not_EMPTY _ Hm)) as Hcnt.
    rewrite to_uint8_small by lia.
    apply IH; simpl; try lia.
    destruct Hwf as [Hs0 Hlen]. split; simpl; [exact Hs0|].
    rewrite length_insert. exact Hlen. }
  cbn [code_value exact_value]. destruct maximize.
  - destruct (spec_isWin board self);
      [apply to_int8_small; unfold SCORE_WIN, INT8_MAX; lia|].
    destruct (spec_isDraw board); [reflexivity|].
    apply fold_left_ext_in. intros x c Hc.
    rewrite (Hchild self c false Hs Hc). reflexivity.
  - destruct (spec_isWin board other);
      [apply to_int8_small; unfold SCORE_LOSE, INT8_MIN; lia|].
    destruct (spec_isDraw board); [reflexivity|].
    apply fold_left_ext_in. intros x c Hc.
    rewrite (Hchild other c true Ho Hc). reflexivity.
Qed.

(** X11.  Neither the depth nor a score wraps in a search: on a board of
    at most 15 x 15 cells, at a depth that with the number of empty cells
    stays within 255, as in every search that [getBestMove] starts at
    depth 1, [minimise] and [maximise] called with the widest bounds
    return the score computed with integers that never wrap
    ([SCORE_WIN - depth], [SCORE_LOSE + depth] and [depth + 1] without a
    conversion). *)
Theorem scores_do_not_wrap (fuel gas : nat) (board : board_t)
    (self other : ascii) (depth : Z) :
  small_board board -> player self -> player other ->
  size board * size board < Z.of_nat gas ->
  (count_empty (cells board) < fuel)%nat ->
  0 <= depth -> depth + Z.of_nat (count_empty (cells board)) <= 255 ->
  minimise fuel gas board self other depth SCORE_LOSE SCORE_WIN
  = Done (exact_value fuel false board self other depth, board) /\
  maximise fuel gas board self other depth SCORE_LOSE SCORE_WIN
  = Done (exact_value fuel true board self other depth, board).
Proof.
  intros Hsmall Hs Ho Hgas Hn Hd0 Hd. pose proof Hsmall as [Hwf _].
  destruct (search_widest fuel gas board self other depth
              Hsmall Hs Ho Hgas Hn) as [-> ->].
  rewrite !(code_value_exact self other fuel Hs Ho) by assumption.
  split; reflexivity.
Qed.

Lemma scores_do_not_wrap_witness :
  small_board board_slow /\ player NOUGHT /\ player CROSS /\
  size board_slow * size board_slow < Z.of_nat 10 /\
  (count_empty (cells board_slow) < 4)%nat /\
  0 <= 1 /\ 1 + Z.of_nat (count_empty (cells board_slow)) <= 255 /\
  minimise 4 10 board_slow NOUGHT CROSS 1 SCORE_LOSE SCORE_WIN
  = Done (exact_value 4 false board_slow NOUGHT CROSS 1, board_slow) /\
  maximise 4 10 board_slow NOUGHT CROSS 1 SCORE_LOSE SCORE_WIN
  = Done (exact_value 4 true board_slow NOUGHT CROSS 1, board_slow).
Proof.
  assert (Hb : small_board board_slow) by (repeat split; simpl; lia).
  assert (Hn : player NOUGHT) by (left; reflexivity).
  assert (Hc : player CROSS) by (right; reflexivity).
  assert (Hg : size board_slow * size board_slow < Z.of_nat 10)
    by (simpl; lia).
  assert (He : (count_empty (cells board_slow) < 4)%nat) by (simpl; lia).
  assert (Hd0 : 0 <= 1) by lia.
  assert (Hd : 1 + Z.of_nat (count_empty (cells board_slow)) <= 255)
    by (simpl; lia).
  split; [exact Hb|]. split; [exact Hn|]. split; [exact Hc|].
  split; [exact Hg|]. split; [exact He|]. split; [exact Hd0|].
  split; [exact Hd|].
  exact (scores_do_not_wrap 4 10 board_slow NOUGHT CROSS 1
           Hb Hn Hc Hg He Hd0 Hd).
Defined.
